(** * DatabuzzOxxo: store-location scoring service

    A shallow embedding of the backend's prediction pipeline
    ([app/models/location.py], [app/services/data_service.py],
    [app/services/prediction_service.py], and the sales metrics of
    [app/api/routes/sales.py]) and the properties its specification states
    about it.

    Conventions of the embedding.
    - Python [float] values are read as real numbers ([R]): arithmetic is
      exact, there is no NaN, no infinity and no rounding.
    - Python [int] values are [Z]; [str] values are [string] (UTF-8 bytes, so
      the byte-wise order of [String.compare] is Python's code-point order).
    - A call that may raise returns a [result]; [try/except] blocks that
      re-raise as [ValueError] are written out.
    - The fitted scaler and regressor are one opaque function from a feature
      row to a ratio, which may also raise; numpy's global generator is a
      stream of draws indexed by a counter that the code threads.
    - The store tables and the combined training table are given as loaded
      and preprocessed, as lists of rows; what a list of rows cannot tell of
      a pandas table, the dtype of a text column without any value, is
      given with them. The clock is a reading passed in; CSV loading and
      the training script are outside the embedding; so is the generation
      of the mock sales, which the sales metrics take as given. *)

From Stdlib Require Import Reals Lra Lia ZArith List String Ascii Bool.
From Stdlib Require Import Sorted Permutation DecimalString OrderedTypeEx.
Import ListNotations.
Local Open Scope string_scope.
Local Open Scope list_scope.
Local Open Scope R_scope.

(* ================================================================== *)
(** ** Python primitives *)
(* ================================================================== *)

Module Py.

(** Exceptions the modelled code raises. A pydantic [ValidationError] carries
    the model's name and one entry per failing field (or the message of a
    failing model validator). *)
Inductive exn : Type :=
| ValidationError (model : string) (errors : list string)
| ValueError (msg : string).

Inductive result (A : Type) : Type :=
| Ok (a : A)
| Raise (e : exn).
Arguments Ok {A} a.
Arguments Raise {A} e.

Definition bind {A B : Type} (r : result A) (k : A -> result B) : result B :=
  match r with
  | Ok a => k a
  | Raise e => Raise e
  end.

(** [try: body except Exception as e: raise ValueError(msg)] *)
Definition reraise {A : Type} (msg : string) (r : result A) : result A :=
  match r with
  | Ok a => Ok a
  | Raise _ => Raise (ValueError msg)
  end.

(** A [for] loop whose body may raise and appends one item per round. *)
Fixpoint for_each {A B : Type} (body : A -> result B) (l : list A)
  : result (list B) :=
  match l with
  | [] => Ok []
  | x :: l' =>
      match body x with
      | Raise e => Raise e
      | Ok y =>
          match for_each body l' with
          | Raise e => Raise e
          | Ok ys => Ok (y :: ys)
          end
      end
  end.

(** [enumerate(l)] *)
Definition enumerate {A : Type} (l : list A) : list (nat * A) :=
  combine (seq 0 (List.length l)) l.

Definition Rlt_bool (x y : R) : bool := if Rlt_dec x y then true else false.
Definition Rle_bool (x y : R) : bool := if Rle_dec x y then true else false.
Definition Req_bool (x y : R) : bool := if Req_dec_T x y then true else false.

(** Builtin [max(a, b)] and [min(a, b)]: the first argument is kept unless the
    second is strictly greater (resp. smaller). *)
Definition max (a b : R) : R := if Rlt_bool a b then b else a.
Definition min (a b : R) : R := if Rlt_bool b a then b else a.

(** [str(n)] for integers, as f-strings print them. *)
Definition str_nat (n : nat) : string := NilZero.string_of_uint (Nat.to_uint n).
Definition str_int (z : Z) : string := NilZero.string_of_int (Z.to_int z).

(** [list.sort(key=..., reverse=True)]: a stable sort into non-increasing key
    order. Stability and a total preorder on the keys determine the result, so
    the sort is written as the insertion sort that inserts each item in front
    of the first item whose key is not greater. *)
Section SortReverse.
Context {A : Type} (key : A -> R).

Fixpoint insert_reverse (x : A) (l : list A) : list A :=
  match l with
  | [] => [x]
  | y :: l' =>
      if Rlt_bool (key x) (key y) then y :: insert_reverse x l'
      else x :: y :: l'
  end.

Definition sort_reverse (l : list A) : list A :=
  fold_right insert_reverse [] l.

(** [DataFrame.sort_values(column)]: rows in non-decreasing order of the
    column. pandas leaves the order of rows with equal values open; here
    they keep their order. *)
Fixpoint insert_ascending (x : A) (l : list A) : list A :=
  match l with
  | [] => [x]
  | y :: l' =>
      if Rlt_bool (key y) (key x) then y :: insert_ascending x l'
      else x :: y :: l'
  end.

Definition sort_values (l : list A) : list A :=
  fold_right insert_ascending [] l.

End SortReverse.

End Py.
Import Py.

(* ================================================================== *)
(** ** Models ([app/models/location.py]) *)
(* ================================================================== *)

(** One entry of a [ValidationError]: the field's name when its check fails. *)
Definition field_error (field : string) (ok : bool) : list string :=
  if ok then [] else [field].

Definition within (lo hi v : R) : bool := Rle_bool lo v && Rle_bool v hi.

Definition one_of (allowed : list string) (v : string) : bool :=
  existsb (String.eqb v) allowed.

Definition nivel_allowed : list string :=
  ["A"; "AB"; "B"; "BC"; "C"; "CD"; "D"]%string.
Definition entorno_allowed : list string :=
  ["Base"; "Hogar"; "Peatonal"; "Receso"]%string.
Definition segmento_allowed : list string :=
  ["Barrio Competido"; "Clásico"; "Hogar Reunión"; "Oficinistas";
   "Parada Técnica"]%string.

Module StoreLocation.

Record t : Type := Build {
  tiendaId : option Z;
  plazaCve : Z;
  nivelSocioeconomico : string;
  entorno : string;
  mts2Ventas : R;
  puertasRefrig : Z;
  cajonesEstacionamiento : Z;
  latitud : R;
  longitud : R;
  segmentoMaestro : string
}.

(** Field constraints ([ge], [gt], [le], [min_length]) and the field
    validators, one entry per failing field. *)
Definition errors (l : t) : list string :=
  field_error "plazaCve" (1 <=? plazaCve l)%Z ++
  field_error "nivelSocioeconomico"
    ((1 <=? String.length (nivelSocioeconomico l))%nat
     && one_of nivel_allowed (nivelSocioeconomico l)) ++
  field_error "entorno"
    ((1 <=? String.length (entorno l))%nat
     && one_of entorno_allowed (entorno l)) ++
  field_error "mts2Ventas" (Rlt_bool 0 (mts2Ventas l)) ++
  field_error "puertasRefrig" (0 <=? puertasRefrig l)%Z ++
  field_error "cajonesEstacionamiento" (0 <=? cajonesEstacionamiento l)%Z ++
  field_error "latitud"
    (within 0 90 (latitud l) && within 14.0 33.0 (latitud l)) ++
  field_error "longitud"
    (within (-180) 180 (longitud l) && within (-118.5) (-86.5) (longitud l)) ++
  field_error "segmentoMaestro"
    ((1 <=? String.length (segmentoMaestro l))%nat
     && one_of segmento_allowed (segmentoMaestro l)).

(** Construction from keyword arguments: every field is checked. *)
Definition init (fields : t) : result t :=
  match errors fields with
  | [] => Ok fields
  | es => Raise (ValidationError "StoreLocation" es)
  end.

End StoreLocation.

(** The recommendation is templated text; its four wordings are the bands,
    and the template's parameters are kept beside the band. *)
Inductive Band : Type := Excelente | Bueno | Moderado | Bajo.

Record Recommendation : Type := {
  band : Band;
  rec_expected_sales : R;
  rec_entorno : string;
  rec_probability_pct : R
}.

Module PredictionResponse.

Record t : Type := Build {
  score : R;
  expectedSales : R;
  probability : R;
  recommendation : Recommendation
}.

Definition errors (r : t) : list string :=
  field_error "score" (within 0 1 (score r)) ++
  field_error "expectedSales" (Rle_bool 0 (expectedSales r)) ++
  field_error "probability" (within 0 1 (probability r)).

Definition init (fields : t) : result t :=
  match errors fields with
  | [] => Ok fields
  | es => Raise (ValidationError "PredictionResponse" es)
  end.

End PredictionResponse.

Definition is_hex_digit (c : ascii) : bool :=
  let n := nat_of_ascii c in
  ((48 <=? n) && (n <=? 57) || (65 <=? n) && (n <=? 70)
   || (97 <=? n) && (n <=? 102))%nat.

(** [re.match(r'^#[0-9A-Fa-f]{6}$', v)]; [$] also matches before one final
    newline. *)
Definition hex_color (v : string) : bool :=
  match v with
  | String "#" rest =>
      match list_ascii_of_string rest with
      | [a; b; c; d; e; f] => forallb is_hex_digit [a; b; c; d; e; f]
      | [a; b; c; d; e; f; nl] =>
          forallb is_hex_digit [a; b; c; d; e; f] && Ascii.eqb nl "010"
      | _ => false
      end
  | _ => false
  end.

Module MapPoint.

Record t : Type := Build {
  id : string;
  lat : R;
  lng : R;
  score : R;
  color : string
}.

Definition errors (p : t) : list string :=
  field_error "lat" (within 0 90 (lat p)) ++
  field_error "lng" (within (-180) 180 (lng p)) ++
  field_error "score" (within 0 1 (score p)) ++
  field_error "color" (hex_color (color p)).

Definition init (fields : t) : result t :=
  match errors fields with
  | [] => Ok fields
  | es => Raise (ValidationError "MapPoint" es)
  end.

End MapPoint.

Module MapBounds.

Record t : Type := Build {
  north : R;
  south : R;
  east : R;
  west : R
}.

Definition errors (b : t) : list string :=
  field_error "north" (within 0 90 (north b)) ++
  field_error "south" (within 0 90 (south b)) ++
  field_error "east" (within (-180) 180 (east b)) ++
  field_error "west" (within (-180) 180 (west b)).

(** The [model_validator(mode='after')]; it runs once the fields passed. *)
Definition validate_bounds (b : t) : result t :=
  if Rle_bool (north b) (south b)
  then Raise (ValidationError "MapBounds" ["North must be greater than south"])
  else if Rle_bool (east b) (west b)
  then Raise (ValidationError "MapBounds" ["East must be greater than west"])
  else Ok b.

Definition init (fields : t) : result t :=
  match errors fields with
  | [] => validate_bounds fields
  | es => Raise (ValidationError "MapBounds" es)
  end.

End MapBounds.

Module AreaRequest.

Record t : Type := Build {
  lat : R;
  lng : R;
  radius : R
}.

Definition errors (a : t) : list string :=
  field_error "lat" (within 0 90 (lat a)) ++
  field_error "lng" (within (-180) 180 (lng a)) ++
  field_error "radius" (Rlt_bool 0 (radius a) && Rle_bool (radius a) 50).

Definition init (fields : t) : result t :=
  match errors fields with
  | [] => Ok fields
  | es => Raise (ValidationError "AreaRequest" es)
  end.

End AreaRequest.

Module HeatmapData.

Record t : Type := Build {
  points : list MapPoint.t;
  centerLat : R;
  centerLng : R
}.

Definition errors (h : t) : list string :=
  field_error "centerLat" (within 0 90 (centerLat h)) ++
  field_error "centerLng" (within (-180) 180 (centerLng h)).

Definition init (fields : t) : result t :=
  match errors fields with
  | [] => Ok fields
  | es => Raise (ValidationError "HeatmapData" es)
  end.

End HeatmapData.

Definition is_digit (c : ascii) : bool :=
  let n := nat_of_ascii c in ((48 <=? n) && (n <=? 57))%nat.

(** [re.match(r'^\d{6}$', v)] on ASCII text; [$] also matches before one
    final newline. *)
Definition six_digits (v : string) : bool :=
  match list_ascii_of_string v with
  | [a; b; c; d; e; f] => forallb is_digit [a; b; c; d; e; f]
  | [a; b; c; d; e; f; nl] =>
      forallb is_digit [a; b; c; d; e; f] && Ascii.eqb nl "010"
  | _ => false
  end.

Module SalesForecast.

Record t : Type := Build {
  month : string;
  amount : R
}.

Definition errors (f : t) : list string :=
  field_error "month" (six_digits (month f)) ++
  field_error "amount" (Rle_bool 0 (amount f)).

Definition init (fields : t) : result t :=
  match errors fields with
  | [] => Ok fields
  | es => Raise (ValidationError "SalesForecast" es)
  end.

End SalesForecast.

Module LocationAnalysisResult.

(** Its fields are model instances or lists of them, which are taken as
    they are: construction from instances does not fail. *)
Record t : Type := Build {
  location : StoreLocation.t;
  prediction : PredictionResponse.t;
  nearbyStores : option (list StoreLocation.t);
  salesForecast : option (list SalesForecast.t)
}.

End LocationAnalysisResult.

(* ================================================================== *)
(** ** Data service ([app/services/data_service.py]) *)
(* ================================================================== *)

(** A one-row [DataFrame]: column labels with their values, in column order. *)
Definition Row : Type := list (string * R).

(** A numeric [DataFrame]: its column labels and its rows; a cell without a
    value is NaN. *)
Record Frame : Type := {
  columns : list string;
  data : list (list (option R))
}.

(** The dtype [pd.read_csv] gives a column of text: [object] when a cell of
    the file holds text, [float64] when every cell of the file is empty.
    Renaming, dropping rows and merging keep the dtype of a column. *)
Inductive dtype : Type := object | float64.

Definition is_object (d : dtype) : bool :=
  match d with object => true | float64 => false end.

Module SalesTarget.
(** A row of [Meta_venta.csv]. *)
Record row : Type := Build {
  ENTORNO_DES : string;
  Meta_venta : R
}.
End SalesTarget.

Module Combined.
(** A row of [_combined_df]: a store joined with one month of sales and the
    target of its environment. The preprocessing drops rows that miss a
    critical column, so only the segment and the joined target may be
    missing (NaN). *)
Record row : Type := Build {
  plazaCve : Z;
  nivelSocioeconomico : string;
  entorno : string;
  mts2Ventas : R;
  puertasRefrig : Z;
  cajonesEstacionamiento : Z;
  latitud : R;
  longitud : R;
  segmentoMaestro : option string;
  VENTA_TOTAL : R;
  Meta_venta : option R
}.
End Combined.

Module Store.
(** A row of a preprocessed store table ([DIM_TIENDA.csv],
    [DIM_TIENDA_TEST.csv]): rows that miss a critical column are dropped and
    the counts are integers, so only the segment may be missing. *)
Record row : Type := Build {
  tiendaId : Z;
  plazaCve : Z;
  nivelSocioeconomico : string;
  entorno : string;
  mts2Ventas : R;
  puertasRefrig : Z;
  cajonesEstacionamiento : Z;
  latitud : R;
  longitud : R;
  segmentoMaestro : option string
}.
End Store.

Module DataService.

(** Besides the tables, the dtype with which each text column of the store
    file was read, by the label of the column: the rows of the combined table
    do not tell it when none of them has a value in the column, since the
    file may hold text in rows that were dropped or that match no sales. *)
Record t : Type := Build {
  _stores_df : list Store.row;
  _test_stores_df : list Store.row;
  _sales_target_df : list SalesTarget.row;
  _combined_df : list Combined.row;
  _read_as : string -> dtype
}.

(** A text column of the combined table: its label and the value it holds in
    a row. *)
Definition text_column : Type :=
  string * (Combined.row -> option string).

(** [df[['nivelSocioeconomico', 'entorno', 'segmentoMaestro']]] *)
Definition categorical_columns : list text_column :=
  [("nivelSocioeconomico", fun r => Some (Combined.nivelSocioeconomico r));
   ("entorno", fun r => Some (Combined.entorno r));
   ("segmentoMaestro", Combined.segmentoMaestro)].

(** [self._combined_df[label].dtype]: a column that holds text is an object
    column; a column without any value has the dtype its file was read
    with. *)
Definition dtype_of (self : t) (c : text_column) : dtype :=
  if existsb (fun r => match snd c r with
                       | Some _ => true
                       | None => false
                       end) (_combined_df self)
  then object
  else _read_as self (fst c).

(** *** [get_stores_in_area] *)

(** [np.radians] *)
Definition radians (degrees : R) : R := degrees * PI / 180.

(** The haversine distance of a store from the centre, in kilometres. *)
Definition distance_km (lat lng : R) (r : Store.row) : R :=
  let lat_rad := radians lat in
  let lng_rad := radians lng in
  let store_lat_rad := radians (Store.latitud r) in
  let store_lng_rad := radians (Store.longitud r) in
  let dlon := store_lng_rad - lng_rad in
  let dlat := store_lat_rad - lat_rad in
  let a := sin (dlat / 2) ^ 2
           + cos lat_rad * cos store_lat_rad * sin (dlon / 2) ^ 2 in
  let c := 2 * asin (sqrt a) in
  6371 * c.

(** The [StoreLocation] constructed from a row of the table. *)
Definition to_location (r : Store.row) : result StoreLocation.t :=
  match Store.segmentoMaestro r with
  | None => Raise (ValidationError "StoreLocation" ["segmentoMaestro"])
  | Some segmento =>
      StoreLocation.init
        {| StoreLocation.tiendaId := Some (Store.tiendaId r);
           StoreLocation.plazaCve := Store.plazaCve r;
           StoreLocation.nivelSocioeconomico := Store.nivelSocioeconomico r;
           StoreLocation.entorno := Store.entorno r;
           StoreLocation.mts2Ventas := Store.mts2Ventas r;
           StoreLocation.puertasRefrig := Store.puertasRefrig r;
           StoreLocation.cajonesEstacionamiento :=
             Store.cajonesEstacionamiento r;
           StoreLocation.latitud := Store.latitud r;
           StoreLocation.longitud := Store.longitud r;
           StoreLocation.segmentoMaestro := segmento |}
  end.

(** The stores of both tables within [radius_km] of the centre, nearest
    first; any exception, such as a row that is no valid [StoreLocation],
    is logged and the result is the empty list. *)
Definition get_stores_in_area (self : t) (lat lng radius_km : R)
  : list StoreLocation.t :=
  let all_stores_df := _stores_df self ++ _test_stores_df self in
  let nearby_stores_df :=
    filter (fun r => Rle_bool (distance_km lat lng r) radius_km)
           all_stores_df in
  let nearby_stores_df := sort_values (distance_km lat lng) nearby_stores_df in
  match for_each to_location nearby_stores_df with
  | Ok store_locations => store_locations
  | Raise _ => []
  end.

(** [get_store_by_id]: the first row with the id, of the training table or,
    when that has none, of the test table; [None] when there is no row or
    when the row is no valid [StoreLocation]. The [lru_cache] on it only
    remembers results; the tables do not change. *)
Definition get_store_by_id (self : t) (store_id : Z)
  : option StoreLocation.t :=
  let store_row :=
    filter (fun r => (Store.tiendaId r =? store_id)%Z) (_stores_df self) in
  let store_row :=
    match store_row with
    | [] => filter (fun r => (Store.tiendaId r =? store_id)%Z)
                   (_test_stores_df self)
    | _ => store_row
    end in
  match store_row with
  | [] => None
  | r :: _ =>
      match to_location r with
      | Ok store => Some store
      | Raise _ => None
      end
  end.

(** [get_all_stores]: the stores of both tables, in table order; the empty
    list when a row is no valid [StoreLocation]. *)
Definition get_all_stores (self : t) : list StoreLocation.t :=
  let all_stores_df := _stores_df self ++ _test_stores_df self in
  match for_each to_location all_stores_df with
  | Ok store_locations => store_locations
  | Raise _ => []
  end.

Definition get_sales_target_for_environment (self : t) (environment : string)
  : option R :=
  let target_row :=
    filter (fun r => String.eqb (SalesTarget.ENTORNO_DES r) environment)
           (_sales_target_df self) in
  match target_row with
  | [] => None
  | r :: _ => Some (SalesTarget.Meta_venta r)
  end.

(** *** [pd.get_dummies] *)

Definition dummy_name (prefix level : string) : string :=
  String.append prefix (String.append "_" level).

(** The levels of a column are its distinct values in sorted order; missing
    values are no level. *)
Fixpoint insert_level (v : string) (l : list string) : list string :=
  match l with
  | [] => [v]
  | x :: l' =>
      match String.compare v x with
      | Lt => v :: l
      | Eq => l
      | Gt => x :: insert_level v l'
      end
  end.

Definition levels (col : list (option string)) : list string :=
  fold_right
    (fun o acc => match o with Some v => insert_level v acc | None => acc end)
    [] col.

(** With [drop_first=True] the first level gets no column. *)
Definition kept_levels (col : list (option string)) : list string :=
  tl (levels col).

Definition indicator (v : option string) (level : string) : R :=
  match v with
  | Some s => if String.eqb s level then 1 else 0
  | None => 0
  end.

Definition numeric_columns : list string :=
  ["plazaCve"; "mts2Ventas"; "puertasRefrig"; "cajonesEstacionamiento";
   "latitud"; "longitud"].

Definition performance_ratio (r : Combined.row) : option R :=
  match Combined.Meta_venta r with
  | Some m => if Req_bool m 0 then None else Some (Combined.VENTA_TOTAL r / m)
  | None => None
  end.

(** [pd.get_dummies] on a frame encodes its object columns and puts the
    other columns, unchanged, in front of the indicator columns. *)
Definition encoded (self : t) : list text_column :=
  filter (fun c => is_object (dtype_of self c)) categorical_columns.

Definition passed_through (self : t) : list string :=
  map fst (filter (fun c => negb (is_object (dtype_of self c)))
                  categorical_columns).

(** [get_training_data]: the six numeric columns, then what
    [pd.get_dummies(..., drop_first=True)] makes of the three categorical
    columns: the columns it passes through, which are float64 columns
    without a value (NaN in every row), and the indicator columns of the
    columns it encodes, each without its first level; the target is the ratio
    of sales to target (no value where it is NaN or infinite). *)
Definition get_training_data (self : t) : Frame * list (option R) :=
  let df := _combined_df self in
  let X :=
    {| columns :=
         numeric_columns
         ++ passed_through self
         ++ flat_map (fun c : text_column =>
                        map (dummy_name (fst c))
                            (kept_levels (map (snd c) df)))
                     (encoded self);
       data :=
         map (fun r =>
                map Some
                    [IZR (Combined.plazaCve r); Combined.mts2Ventas r;
                     IZR (Combined.puertasRefrig r);
                     IZR (Combined.cajonesEstacionamiento r);
                     Combined.latitud r; Combined.longitud r]
                ++ map (fun _ => None) (passed_through self)
                ++ map Some
                     (flat_map (fun c : text_column =>
                                  map (indicator (snd c r))
                                      (kept_levels (map (snd c) df)))
                               (encoded self)))
             df |} in
  (X, map performance_ratio df).

(** *** [store_location_to_features] *)

Definition nivel_cats : list string := ["A"; "AB"; "B"; "BC"; "C"; "CD"; "D"].
Definition entorno_cats : list string := ["Base"; "Hogar"; "Peatonal"; "Receso"].
Definition segmento_cats : list string :=
  ["Barrio Competido"; "Clásico"; "Hogar Reunión"; "Oficinistas";
   "Parada Técnica"].

(** [col in X.columns] *)
Definition has_column (col : string) (X : Row) : bool :=
  existsb (fun kv => String.eqb (fst kv) col) X.

(** [if col not in X.columns: X[col] = 0] *)
Definition set_default (col : string) (X : Row) : Row :=
  if has_column col X then X else X ++ [(col, 0)].

(** [pd.get_dummies(df[c], prefix=c)] on the single row, then one zero column
    for every listed category that is missing. *)
Definition dummies_of (prefix : string) (cats : list string) (v : string)
  : Row :=
  fold_left (fun X cat => set_default (dummy_name prefix cat) X)
            cats [(dummy_name prefix v, 1)].

(** [X[col]] *)
Fixpoint getitem (col : string) (X : Row) : option R :=
  match X with
  | [] => None
  | (k, v) :: X' => if String.eqb k col then Some v else getitem col X'
  end.

(** [X[feature_order]]: a label that is no column raises [KeyError]. *)
Definition reorder (feature_order : list string) (X : Row) : result Row :=
  for_each
    (fun col =>
       match getitem col X with
       | Some v => Ok (col, v)
       | None => Raise (ValueError "KeyError")
       end)
    feature_order.

Definition store_location_to_features (self : t) (location : StoreLocation.t)
  : result Row :=
  reraise "Failed to convert StoreLocation to features"
    (let feature_order := columns (fst (get_training_data self)) in
     let X : Row :=
       [("plazaCve", IZR (StoreLocation.plazaCve location));
        ("mts2Ventas", StoreLocation.mts2Ventas location);
        ("puertasRefrig", IZR (StoreLocation.puertasRefrig location));
        ("cajonesEstacionamiento",
         IZR (StoreLocation.cajonesEstacionamiento location));
        ("latitud", StoreLocation.latitud location);
        ("longitud", StoreLocation.longitud location)] in
     let nivel_dummies :=
       dummies_of "nivelSocioeconomico" nivel_cats
                  (StoreLocation.nivelSocioeconomico location) in
     let entorno_dummies :=
       dummies_of "entorno" entorno_cats (StoreLocation.entorno location) in
     let segmento_dummies :=
       dummies_of "segmentoMaestro" segmento_cats
                  (StoreLocation.segmentoMaestro location) in
     let X := X ++ nivel_dummies ++ entorno_dummies ++ segmento_dummies in
     let X := fold_left (fun X col => set_default col X) feature_order X in
     reorder feature_order X).

End DataService.

(* ================================================================== *)
(** ** Prediction service ([app/services/prediction_service.py]) *)
(* ================================================================== *)

Module PredictionService.

Section Service.

(** The data service the prediction service was built with. *)
Variable data_service : DataService.t.
(** [self.model.predict(self.scaler.transform(X))[0]]. *)
Variable model : Row -> result R.
(** The draws of [np.random.random_sample()], in the order they are made. *)
Variable random_sample : nat -> R.

(** [np.random.uniform(low, high)] on the draw [u]. *)
Definition uniform (low high u : R) : R := low + (high - low) * u.

Definition _calculate_success_probability (performance_ratio : R) : R :=
  if Rle_bool performance_ratio 0 then 0.0
  else
    let prob := 1 / (1 + exp (-5 * (performance_ratio - 0.8))) in
    Py.min (Py.max prob 0.0) 1.0.

Definition _generate_recommendation (score expected_sales probability : R)
  (location : StoreLocation.t) : Recommendation :=
  {| band :=
       if Rle_bool 0.8 score then Excelente
       else if Rle_bool 0.6 score then Bueno
       else if Rle_bool 0.4 score then Moderado
       else Bajo;
     rec_expected_sales := expected_sales;
     rec_entorno := StoreLocation.entorno location;
     rec_probability_pct := probability * 100 |}.

(** [sales_target * performance_ratio if sales_target else 0]: [None] and
    [0.0] are both false. *)
Definition expected_sales_of (sales_target : option R) (performance_ratio : R)
  : R :=
  match sales_target with
  | Some t => if Req_bool t 0 then 0 else t * performance_ratio
  | None => 0
  end.

(** [min(max(performance_ratio / 1.5, 0.0), 1.0)] *)
Definition score_of (performance_ratio : R) : R :=
  Py.min (Py.max (performance_ratio / 1.5) 0.0) 1.0.

(** The prediction log is written after the response is built and its
    failures are swallowed, so it leaves no trace in the result. *)
Definition predict_location (location : StoreLocation.t)
  : result PredictionResponse.t :=
  reraise "Failed to make prediction"
    (bind (DataService.store_location_to_features data_service location)
       (fun X =>
     bind (model X) (fun performance_ratio =>
     let sales_target :=
       DataService.get_sales_target_for_environment
         data_service (StoreLocation.entorno location) in
     let expected_sales := expected_sales_of sales_target performance_ratio in
     let probability := _calculate_success_probability performance_ratio in
     let score := score_of performance_ratio in
     let recommendation :=
       _generate_recommendation score expected_sales probability location in
     PredictionResponse.init
       {| PredictionResponse.score := score;
          PredictionResponse.expectedSales := expected_sales;
          PredictionResponse.probability := probability;
          PredictionResponse.recommendation := recommendation |}))).

Definition get_optimal_locations (area : AreaRequest.t)
  : result (list StoreLocation.t) :=
  reraise "Failed to find optimal locations"
    (let existing_stores :=
       DataService.get_stores_in_area data_service
         (AreaRequest.lat area) (AreaRequest.lng area)
         (AreaRequest.radius area) in
     match existing_stores with
     | [] => Ok []
     | _ =>
         bind (for_each
                 (fun store =>
                    bind (predict_location store) (fun prediction =>
                    Ok (store, PredictionResponse.score prediction)))
                 existing_stores) (fun store_scores =>
         let store_scores := sort_reverse snd store_scores in
         Ok (map fst (firstn 5 store_scores)))
     end).

Definition _get_color_for_score (score : R) : string :=
  if Rle_bool 0.8 score then "#10b981"
  else if Rle_bool 0.6 score then "#3b82f6"
  else if Rle_bool 0.4 score then "#f59e0b"
  else "#ef4444".

Definition n_lat : nat := 10.
Definition n_lng : nat := 10.

(** The point of round [(i, j)]; it takes draw number [rng + i * n_lng + j]. *)
Definition grid_point (bounds : MapBounds.t) (rng : nat) (ij : nat * nat)
  : result MapPoint.t :=
  let '(i, j) := ij in
  let lat_step := (MapBounds.north bounds - MapBounds.south bounds) / INR n_lat in
  let lng_step := (MapBounds.east bounds - MapBounds.west bounds) / INR n_lng in
  let lat := MapBounds.south bounds + (INR i + 0.5) * lat_step in
  let lng := MapBounds.west bounds + (INR j + 0.5) * lng_step in
  let score := uniform 0.3 0.9 (random_sample (rng + i * n_lng + j)) in
  let color := _get_color_for_score score in
  MapPoint.init
    {| MapPoint.id :=
         String.append "grid_"
           (String.append (str_nat i) (String.append "_" (str_nat j)));
       MapPoint.lat := lat;
       MapPoint.lng := lng;
       MapPoint.score := score;
       MapPoint.color := color |}.

(** The two nested [for] loops; the generator has advanced by one draw per
    point when they end. *)
Definition _generate_grid_points (bounds : MapBounds.t) (rng : nat)
  : result (list MapPoint.t * nat) :=
  bind (for_each (grid_point bounds rng) (list_prod (seq 0 n_lat) (seq 0 n_lng)))
       (fun points => Ok (points, (rng + n_lat * n_lng)%nat)).

(** [store.tiendaId or i] *)
Definition id_or (tiendaId : option Z) (i : nat) : string :=
  match tiendaId with
  | Some z => if (z =? 0)%Z then str_nat i else str_int z
  | None => str_nat i
  end.

Definition store_point (entry : nat * StoreLocation.t) : result MapPoint.t :=
  let '(i, store) := entry in
  bind (predict_location store) (fun prediction =>
  let color := _get_color_for_score (PredictionResponse.score prediction) in
  MapPoint.init
    {| MapPoint.id :=
         String.append "store_" (id_or (StoreLocation.tiendaId store) i);
       MapPoint.lat := StoreLocation.latitud store;
       MapPoint.lng := StoreLocation.longitud store;
       MapPoint.score := PredictionResponse.score prediction;
       MapPoint.color := color |}).

Definition generate_heatmap (bounds : MapBounds.t) (rng : nat)
  : result (HeatmapData.t * nat) :=
  reraise "Failed to generate heatmap"
    (let center_lat := (MapBounds.north bounds + MapBounds.south bounds) / 2 in
     let center_lng := (MapBounds.east bounds + MapBounds.west bounds) / 2 in
     let lat_radius :=
       (MapBounds.north bounds - MapBounds.south bounds) * 111 / 2 in
     let lng_radius :=
       (MapBounds.east bounds - MapBounds.west bounds) * 111 / 2 in
     let radius_km := Py.max lat_radius lng_radius * 1.5 in
     let existing_stores :=
       DataService.get_stores_in_area data_service
         center_lat center_lng radius_km in
     bind (match existing_stores with
           | [] => _generate_grid_points bounds rng
           | _ =>
               bind (for_each store_point (enumerate existing_stores))
                    (fun points => Ok (points, rng))
           end) (fun '(points, rng') =>
     bind (HeatmapData.init
             {| HeatmapData.points := points;
                HeatmapData.centerLat := center_lat;
                HeatmapData.centerLng := center_lng |}) (fun heatmap_data =>
     Ok (heatmap_data, rng')))).

(** [seasonal_factors], a dict from the month to its factor. *)
Definition seasonal_factors : list (Z * R) :=
  [(1%Z, 0.85); (2%Z, 0.90); (3%Z, 0.95); (4%Z, 1.00); (5%Z, 1.05);
   (6%Z, 1.10); (7%Z, 1.15); (8%Z, 1.10); (9%Z, 1.05); (10%Z, 1.00);
   (11%Z, 1.10); (12%Z, 1.20)].

(** [d[key]] *)
Fixpoint dict_get (key : Z) (d : list (Z * R)) : option R :=
  match d with
  | [] => None
  | (k, v) :: d' => if (k =? key)%Z then Some v else dict_get key d'
  end.

(** [f"{n:02d}"] *)
Definition fmt_02d (n : Z) : string :=
  let s := str_int n in
  if (String.length s <? 2)%nat then String.append "0" s else s.

(** Round [i] of the forecast loop, for the clock reading
    [(current_year, current_month)]; it takes draw number [rng + i]. A month
    without a seasonal factor would raise [KeyError]; no month from 1 to 12 is
    without one. *)
Definition forecast_entry (current_year current_month : Z) (base_sales : R)
  (rng : nat) (i : nat) : result SalesForecast.t :=
  let month := ((current_month + Z.of_nat i) mod 12)%Z in
  let month := if (month =? 0)%Z then 12%Z else month in
  let year :=
    (current_year + (current_month + Z.of_nat i - 1) / 12)%Z in
  match dict_get month seasonal_factors with
  | None => Raise (ValueError "KeyError")
  | Some seasonal_factor =>
      let monthly_sales := base_sales * seasonal_factor in
      let noise := uniform (-0.05) 0.05 (random_sample (rng + i)) in
      let monthly_sales := monthly_sales * (1 + noise) in
      let month_id := String.append (str_int year) (fmt_02d month) in
      SalesForecast.init
        {| SalesForecast.month := month_id;
           SalesForecast.amount := monthly_sales |}
  end.

(** [_generate_sales_forecast]; [datetime.now()] is the clock reading. *)
Definition _generate_sales_forecast (current_year current_month : Z)
  (location : StoreLocation.t) (base_sales : R) (rng : nat)
  : result (list SalesForecast.t * nat) :=
  bind (for_each (forecast_entry current_year current_month base_sales rng)
                 (seq 0 6))
       (fun forecast => Ok (forecast, (rng + 6)%nat)).

Definition analyze_location (current_year current_month : Z)
  (location : StoreLocation.t) (rng : nat)
  : result (LocationAnalysisResult.t * nat) :=
  reraise "Failed to analyze location"
    (bind (predict_location location) (fun prediction =>
     let nearby_stores :=
       DataService.get_stores_in_area data_service
         (StoreLocation.latitud location) (StoreLocation.longitud location)
         2.0 in
     bind (_generate_sales_forecast current_year current_month location
             (PredictionResponse.expectedSales prediction) rng)
          (fun '(sales_forecast, rng') =>
     Ok ({| LocationAnalysisResult.location := location;
            LocationAnalysisResult.prediction := prediction;
            LocationAnalysisResult.nearbyStores :=
              match nearby_stores with
              | [] => None
              | _ => Some nearby_stores
              end;
            LocationAnalysisResult.salesForecast := Some sales_forecast |},
         rng')))).

End Service.

End PredictionService.

(* ================================================================== *)
(** ** Sales metrics ([app/models/sales.py], [app/api/routes/sales.py]) *)
(* ================================================================== *)

Module SaleData.
(** A [datetime] is the number of microseconds since a fixed instant. *)
Record t : Type := Build {
  id : Z;
  date : Z;
  amount : R;
  category : string;
  store : string
}.
End SaleData.

Module CategorySales.
Record t : Type := Build {
  category : string;
  sales : R
}.
End CategorySales.

Module StoreMetrics.
Record t : Type := Build {
  totalSales : R;
  averageTicket : R;
  topCategories : list CategorySales.t
}.
End StoreMetrics.

Module Sales.

(** [(now - date).days]: a [timedelta] is normalised, so its days are the
    floor of the difference. *)
Definition days_since (now date : Z) : Z := ((now - date) / 86400000000)%Z.

Definition filter_sales_by_period (now : Z) (sales : list SaleData.t)
  (period : string) : list SaleData.t :=
  if String.eqb period "daily" then
    filter (fun sale => (days_since now (SaleData.date sale) <? 1)%Z) sales
  else if String.eqb period "weekly" then
    filter (fun sale => (days_since now (SaleData.date sale) <? 7)%Z) sales
  else if String.eqb period "monthly" then
    filter (fun sale => (days_since now (SaleData.date sale) <? 30)%Z) sales
  else sales.

(** The [category_sales] dict, in insertion order:
    [if c in d: d[c] += amount else: d[c] = amount]. *)
Fixpoint add_sale (category : string) (amount : R) (d : list (string * R))
  : list (string * R) :=
  match d with
  | [] => [(category, amount)]
  | (k, v) :: d' =>
      if String.eqb k category then (k, v + amount) :: d'
      else (k, v) :: add_sale category amount d'
  end.

Definition calculate_metrics (sales : list SaleData.t) : StoreMetrics.t :=
  match sales with
  | [] =>
      {| StoreMetrics.totalSales := 0;
         StoreMetrics.averageTicket := 0;
         StoreMetrics.topCategories := [] |}
  | _ =>
      let total_sales := fold_left Rplus (map SaleData.amount sales) 0 in
      let average_ticket := total_sales / INR (List.length sales) in
      let category_sales :=
        fold_left
          (fun d sale =>
             add_sale (SaleData.category sale) (SaleData.amount sale) d)
          sales [] in
      let top_categories :=
        map (fun kv => {| CategorySales.category := fst kv;
                          CategorySales.sales := snd kv |})
            category_sales in
      let top_categories := sort_reverse CategorySales.sales top_categories in
      {| StoreMetrics.totalSales := total_sales;
         StoreMetrics.averageTicket := average_ticket;
         StoreMetrics.topCategories := top_categories |}
  end.

(** [HTTPException(status_code=..., detail=...)] *)
Inductive HTTPException : Type :=
| HTTP (status_code : Z) (detail : string).

(** The period check of the [/metrics] route, then the metrics of the
    filtered sales; the sales themselves are mock data drawn at random. *)
Definition get_metrics (now : Z) (all_sales : list SaleData.t)
  (period : string) : StoreMetrics.t + HTTPException :=
  if negb (existsb (String.eqb period) ["daily"; "weekly"; "monthly"; "all"])
  then inr (HTTP 400 "Invalid period. Must be one of: daily, weekly, monthly, all")
  else inl (calculate_metrics (filter_sales_by_period now all_sales period)).

End Sales.

(** The [/predict-location] route: the request body is parsed into a
    [StoreLocation] before the service is called. *)
Definition route_predict_location (data_service : DataService.t)
  (model : Row -> result R) (body : StoreLocation.t)
  : result PredictionResponse.t :=
  bind (StoreLocation.init body)
       (PredictionService.predict_location data_service model).

(** The [/generate-heatmap] route, likewise on a parsed [MapBounds]. *)
Definition route_generate_heatmap (data_service : DataService.t)
  (model : Row -> result R) (random_sample : nat -> R)
  (body : MapBounds.t) (rng : nat) : result (HeatmapData.t * nat) :=
  bind (MapBounds.init body) (fun bounds =>
  PredictionService.generate_heatmap
    data_service model random_sample bounds rng).

(** The encoding pipeline of a request: the record is constructed, then
    encoded. *)
Definition encode_location (data_service : DataService.t)
  (body : StoreLocation.t) : result Row :=
  bind (StoreLocation.init body)
       (DataService.store_location_to_features data_service).

(* ================================================================== *)
(** ** The specification's own notions *)
(* ================================================================== *)

(** [clamp(x, lo, hi)], as the specification writes it: [min(max(x, lo), hi)]
    on real numbers. *)
Definition clamp (x lo hi : R) : R := Rmin (Rmax x lo) hi.

(** The feature order a data set fixes, and the vector of a row. *)
Definition feature_order (ds : DataService.t) : list string :=
  columns (fst (DataService.get_training_data ds)).

Definition vector (X : Row) : list R := map snd X.

(** The values present in the three categorical columns of the training
    data. *)
Definition nivel_column (ds : DataService.t) : list (option string) :=
  map (fun r => Some (Combined.nivelSocioeconomico r))
      (DataService._combined_df ds).
Definition entorno_column (ds : DataService.t) : list (option string) :=
  map (fun r => Some (Combined.entorno r)) (DataService._combined_df ds).
Definition segmento_column (ds : DataService.t) : list (option string) :=
  map Combined.segmentoMaestro (DataService._combined_df ds).

(** The score a store gets from [predict_location] (0 when it raises). *)
Definition score_at (ds : DataService.t) (model : Row -> result R)
  (store : StoreLocation.t) : R :=
  match PredictionService.predict_location ds model store with
  | Ok p => PredictionResponse.score p
  | Raise _ => 0
  end.

Import PredictionService.
Import DataService.

(** *** The encoder in closed form *)

(** The row before the columns of the feature order are filled in. *)
Definition base_row (location : StoreLocation.t) : Row :=
  [("plazaCve", IZR (StoreLocation.plazaCve location));
   ("mts2Ventas", StoreLocation.mts2Ventas location);
   ("puertasRefrig", IZR (StoreLocation.puertasRefrig location));
   ("cajonesEstacionamiento",
    IZR (StoreLocation.cajonesEstacionamiento location));
   ("latitud", StoreLocation.latitud location);
   ("longitud", StoreLocation.longitud location)]
  ++ dummies_of "nivelSocioeconomico" nivel_cats
       (StoreLocation.nivelSocioeconomico location)
  ++ dummies_of "entorno" entorno_cats (StoreLocation.entorno location)
  ++ dummies_of "segmentoMaestro" segmento_cats
       (StoreLocation.segmentoMaestro location).

(** The value a row holds under a label, 0 when it has no such column. *)
Definition cell (X : Row) (col : string) : R :=
  match getitem col X with
  | Some v => v
  | None => 0
  end.

(** What [store_location_to_features] returns. *)
Definition encode (ds : DataService.t) (location : StoreLocation.t) : Row :=
  map (fun col => (col, cell (base_row location) col)) (feature_order ds).

(** *** The response in closed form *)

(** The fields [predict_location] computes from a predicted ratio. *)
Definition response_of (ds : DataService.t)
  (location : StoreLocation.t) (ratio : R)
  : PredictionResponse.t :=
  let expected_sales :=
    expected_sales_of
      (get_sales_target_for_environment ds (StoreLocation.entorno location))
      ratio in
  {| PredictionResponse.score := score_of ratio;
     PredictionResponse.expectedSales := expected_sales;
     PredictionResponse.probability := _calculate_success_probability ratio;
     PredictionResponse.recommendation :=
       _generate_recommendation (score_of ratio) expected_sales
         (_calculate_success_probability ratio) location |}.

(** *** Levels and attributes *)

(** The strict order [pd.get_dummies] sorts levels by. *)
Definition slt (a b : string) : Prop := String.compare a b = Lt.

Inductive attribute : Type := Nivel | Entorno | Segmento.

Definition prefix_of (a : attribute) : string :=
  match a with
  | Nivel => "nivelSocioeconomico"
  | Entorno => "entorno"
  | Segmento => "segmentoMaestro"
  end.

(** The enumeration of an attribute, as [store_location_to_features] lists
    it. *)
Definition cats_of (a : attribute) : list string :=
  match a with
  | Nivel => nivel_cats
  | Entorno => entorno_cats
  | Segmento => segmento_cats
  end.

Definition value_of (location : StoreLocation.t) (a : attribute) : string :=
  match a with
  | Nivel => StoreLocation.nivelSocioeconomico location
  | Entorno => StoreLocation.entorno location
  | Segmento => StoreLocation.segmentoMaestro location
  end.

Definition column_of (ds : DataService.t) (a : attribute)
  : list (option string) :=
  match a with
  | Nivel => nivel_column ds
  | Entorno => entorno_column ds
  | Segmento => segmento_column ds
  end.

(** The column of an attribute in the combined table, and its dtype. *)
Definition categorical (a : attribute) : text_column :=
  match a with
  | Nivel =>
      ("nivelSocioeconomico", fun r => Some (Combined.nivelSocioeconomico r))
  | Entorno => ("entorno", fun r => Some (Combined.entorno r))
  | Segmento => ("segmentoMaestro", Combined.segmentoMaestro)
  end.

Definition column_dtype (ds : DataService.t) (a : attribute) : dtype :=
  dtype_of ds (categorical a).

(** The indicator columns the training data gives an attribute. *)
Definition indicator_columns (ds : DataService.t) (a : attribute)
  : list string :=
  map (dummy_name (prefix_of a)) (kept_levels (column_of ds a)).

(** The indicator block of an attribute in an encoded row. *)
Definition block (ds : DataService.t) (a : attribute) (X : Row)
  : list (option R) :=
  map (fun col => getitem col X) (indicator_columns ds a).

(** The column order of the specification's encoder: one indicator per
    category of each enumeration except its first. *)
Definition enumeration_columns : list string :=
  numeric_columns
  ++ map (dummy_name (prefix_of Nivel)) (tl (cats_of Nivel))
  ++ map (dummy_name (prefix_of Entorno)) (tl (cats_of Entorno))
  ++ map (dummy_name (prefix_of Segmento)) (tl (cats_of Segmento)).

(** *** Sorting and ranking *)

(** Non-increasing keys. *)
Definition descending {A : Type} (key : A -> R) (l : list A) : Prop :=
  StronglySorted (fun a b => key b <= key a) l.

(** The items whose key is [v], in the order of the list. *)
Definition with_key {A : Type} (key : A -> R) (v : R) (l : list A)
  : list A :=
  filter (fun a => Req_bool (key a) v) l.

(** The input list: the stores the area query returns for a request. *)
Definition stores_of (ds : DataService.t) (area : AreaRequest.t)
  : list StoreLocation.t :=
  get_stores_in_area ds (AreaRequest.lat area) (AreaRequest.lng area)
                     (AreaRequest.radius area).

(** What [get_optimal_locations] returns when it returns. *)
Definition ranking (ds : DataService.t) (model : Row -> result R)
  (stores : list StoreLocation.t) : list StoreLocation.t :=
  firstn 5 (sort_reverse (score_at ds model) stores).

(** *** Bounds and grid *)

(** The bounds that pass construction. *)
Definition valid_bounds (b : MapBounds.t) : Prop :=
  0 <= MapBounds.south b /\ MapBounds.south b < MapBounds.north b /\
  MapBounds.north b <= 90 /\
  -180 <= MapBounds.west b /\ MapBounds.west b < MapBounds.east b /\
  MapBounds.east b <= 180.

(** The existing stores [generate_heatmap] looks at: those within one and a
    half times the larger half-extent of the bounds (at 111 km per degree)
    of their centre. *)
Definition stores_near (ds : DataService.t) (bounds : MapBounds.t)
  : list StoreLocation.t :=
  get_stores_in_area ds
    ((MapBounds.north bounds + MapBounds.south bounds) / 2)
    ((MapBounds.east bounds + MapBounds.west bounds) / 2)
    (Py.max ((MapBounds.north bounds - MapBounds.south bounds) * 111 / 2)
            ((MapBounds.east bounds - MapBounds.west bounds) * 111 / 2) * 1.5).

(** The coordinates of the 10 x 10 grid: the midpoints of ten equal steps in
    each direction. *)
Definition grid_coordinates (b : MapBounds.t) : list (R * R) :=
  map (fun ij : nat * nat =>
         (MapBounds.south b
          + (INR (fst ij) + 0.5) * ((MapBounds.north b - MapBounds.south b) / 10),
          MapBounds.west b
          + (INR (snd ij) + 0.5) * ((MapBounds.east b - MapBounds.west b) / 10)))
      (list_prod (seq 0 10) (seq 0 10)).

Definition strictly_inside (b : MapBounds.t) (p : MapPoint.t) : Prop :=
  MapBounds.south b < MapPoint.lat p < MapBounds.north b /\
  MapBounds.west b < MapPoint.lng p < MapBounds.east b.

Definition colored_by_score (p : MapPoint.t) : Prop :=
  MapPoint.color p = _get_color_for_score (MapPoint.score p).

(** A store row lies in a rectangle. *)
Definition inside_bounds (b : MapBounds.t) (r : Store.row) : Prop :=
  MapBounds.south b <= Store.latitud r <= MapBounds.north b /\
  MapBounds.west b <= Store.longitud r <= MapBounds.east b.

(** The keyword arguments of the point of round [(i, j)]. *)
Definition grid_fields (random_sample : nat -> R) (b : MapBounds.t)
  (rng : nat) (ij : nat * nat)
  : MapPoint.t :=
  let score :=
    uniform 0.3 0.9 (random_sample (rng + fst ij * n_lng + snd ij)%nat) in
  {| MapPoint.id :=
       String.append "grid_"
         (String.append (str_nat (fst ij))
                        (String.append "_" (str_nat (snd ij))));
     MapPoint.lat :=
       MapBounds.south b
       + (INR (fst ij) + 0.5)
         * ((MapBounds.north b - MapBounds.south b) / INR n_lat);
     MapPoint.lng :=
       MapBounds.west b
       + (INR (snd ij) + 0.5)
         * ((MapBounds.east b - MapBounds.west b) / INR n_lng);
     MapPoint.score := score;
     MapPoint.color := _get_color_for_score score |}.

(** *** Further notions *)

(** The colour of the heatmap bucket that a recommendation band names. *)
Definition band_colour (b : Band) : string :=
  match b with
  | Excelente => "#10b981"
  | Bueno => "#3b82f6"
  | Moderado => "#f59e0b"
  | Bajo => "#ef4444"
  end.

(** The constraints of a [StoreLocation]. *)
Definition valid_location (l : StoreLocation.t) : Prop :=
  (1 <= StoreLocation.plazaCve l)%Z /\
  In (StoreLocation.nivelSocioeconomico l) nivel_allowed /\
  In (StoreLocation.entorno l) entorno_allowed /\
  0 < StoreLocation.mts2Ventas l /\
  (0 <= StoreLocation.puertasRefrig l)%Z /\
  (0 <= StoreLocation.cajonesEstacionamiento l)%Z /\
  14 <= StoreLocation.latitud l <= 33 /\
  -118.5 <= StoreLocation.longitud l <= -86.5 /\
  In (StoreLocation.segmentoMaestro l) segmento_allowed.

(** The six numeric cells of a location, under their labels. *)
Definition numeric_cells (location : StoreLocation.t) : Row :=
  [("plazaCve", IZR (StoreLocation.plazaCve location));
   ("mts2Ventas", StoreLocation.mts2Ventas location);
   ("puertasRefrig", IZR (StoreLocation.puertasRefrig location));
   ("cajonesEstacionamiento",
    IZR (StoreLocation.cajonesEstacionamiento location));
   ("latitud", StoreLocation.latitud location);
   ("longitud", StoreLocation.longitud location)].

(** The location that has the attributes of a training row. *)
Definition location_of_row (r : Combined.row) (segmento : string)
  : StoreLocation.t :=
  {| StoreLocation.tiendaId := None;
     StoreLocation.plazaCve := Combined.plazaCve r;
     StoreLocation.nivelSocioeconomico := Combined.nivelSocioeconomico r;
     StoreLocation.entorno := Combined.entorno r;
     StoreLocation.mts2Ventas := Combined.mts2Ventas r;
     StoreLocation.puertasRefrig := Combined.puertasRefrig r;
     StoreLocation.cajonesEstacionamiento := Combined.cajonesEstacionamiento r;
     StoreLocation.latitud := Combined.latitud r;
     StoreLocation.longitud := Combined.longitud r;
     StoreLocation.segmentoMaestro := segmento |}.

(** The sum of a list of numbers. *)
Definition Rsum (l : list R) : R := fold_right Rplus 0 l.

(** The rows of both store tables, training table first. *)
Definition all_rows (ds : DataService.t) : list Store.row :=
  _stores_df ds ++ _test_stores_df ds.

(** A location carries the attributes of a store row. *)
Definition is_location_of (r : Store.row) (s : StoreLocation.t) : Prop :=
  StoreLocation.tiendaId s = Some (Store.tiendaId r) /\
  StoreLocation.plazaCve s = Store.plazaCve r /\
  StoreLocation.nivelSocioeconomico s = Store.nivelSocioeconomico r /\
  StoreLocation.entorno s = Store.entorno r /\
  StoreLocation.mts2Ventas s = Store.mts2Ventas r /\
  StoreLocation.puertasRefrig s = Store.puertasRefrig r /\
  StoreLocation.cajonesEstacionamiento s = Store.cajonesEstacionamiento r /\
  StoreLocation.latitud s = Store.latitud r /\
  StoreLocation.longitud s = Store.longitud r /\
  Store.segmentoMaestro r = Some (StoreLocation.segmentoMaestro s).

(** A store row from which a [StoreLocation] can be constructed. *)
Definition valid_row (r : Store.row) : Prop :=
  exists s, to_location r = Ok s.

(** Non-decreasing keys. *)
Definition ascending {A : Type} (key : A -> R) (l : list A) : Prop :=
  StronglySorted (fun a b => key a <= key b) l.

(** A text of [n] ASCII digits. *)
Definition digits_of_length (n : nat) (s : string) : bool :=
  (String.length s =? n)%nat && forallb is_digit (list_ascii_of_string s).

(** Entry [i] of a forecast made at the clock reading [(cy, cm)] from the
    base [base]: it is labelled with the month [i] months after the clock's,
    and its amount is within 5 % of the base times the seasonal factor of
    that month. *)
Definition forecast_month (cy cm : Z) (base : R) (i : nat)
  (f : SalesForecast.t) : Prop :=
  exists year month factor,
    (1 <= month <= 12)%Z /\
    (12 * year + month = 12 * cy + cm + Z.of_nat i)%Z /\
    SalesForecast.month f = String.append (str_int year) (fmt_02d month) /\
    dict_get month seasonal_factors = Some factor /\
    0.95 * (base * factor) <= SalesForecast.amount f <= 1.05 * (base * factor).

(** The amounts of the sales of one category, added up. *)
Definition category_total (c : string) (sales : list SaleData.t) : R :=
  Rsum (map SaleData.amount
            (filter (fun sale => String.eqb (SaleData.category sale) c) sales)).

(** The [category_sales] dict holds the totals of the sales seen so far: one
    key per category that occurred, with the total of that category. *)
Definition totals_of (seen : list SaleData.t) (d : list (string * R)) : Prop :=
  NoDup (map fst d) /\
  (forall k, In k (map fst d) <-> In k (map SaleData.category seen)) /\
  (forall k v, In (k, v) d -> v = category_total k seen).

(** The time between a sale and the clock reading, in microseconds. *)
Definition age (now : Z) (sale : SaleData.t) : Z :=
  (now - SaleData.date sale)%Z.

(** The id of the grid point of round [(i, j)]. *)
Definition grid_id (ij : nat * nat) : string :=
  String.append "grid_"
    (String.append (str_nat (fst ij)) (String.append "_" (str_nat (snd ij)))).

(** No text occurs twice. *)
Fixpoint distinct (l : list string) : bool :=
  match l with
  | [] => true
  | x :: l' => negb (existsb (String.eqb x) l') && distinct l'
  end.

(** The column [a] of the haversine formula for a row. *)
Definition haversine_a (lat lng : R) (r : Store.row) : R :=
  sin ((radians (Store.latitud r) - radians lat) / 2) ^ 2
  + cos (radians lat) * cos (radians (Store.latitud r))
    * sin ((radians (Store.longitud r) - radians lng) / 2) ^ 2.

(** *** Concrete data for the examples *)

(** The example location of the model's schema: level C, environment Hogar,
    segment Clásico. *)
Definition loc_hogar : StoreLocation.t :=
  {| StoreLocation.tiendaId := None;
     StoreLocation.plazaCve := 1;
     StoreLocation.nivelSocioeconomico := "C";
     StoreLocation.entorno := "Hogar";
     StoreLocation.mts2Ventas := 100.0;
     StoreLocation.puertasRefrig := 12;
     StoreLocation.cajonesEstacionamiento := 0;
     StoreLocation.latitud := 25.67;
     StoreLocation.longitud := -100.22;
     StoreLocation.segmentoMaestro := "Clásico" |}.

(** The example location at the socioeconomic level A. *)
Definition loc_hogar_A : StoreLocation.t :=
  {| StoreLocation.tiendaId := None;
     StoreLocation.plazaCve := 1;
     StoreLocation.nivelSocioeconomico := "A";
     StoreLocation.entorno := "Hogar";
     StoreLocation.mts2Ventas := 100.0;
     StoreLocation.puertasRefrig := 12;
     StoreLocation.cajonesEstacionamiento := 0;
     StoreLocation.latitud := 25.67;
     StoreLocation.longitud := -100.22;
     StoreLocation.segmentoMaestro := "Clásico" |}.

(** A location of level A in the environment Base. *)
Definition loc_base : StoreLocation.t :=
  {| StoreLocation.tiendaId := Some 7%Z;
     StoreLocation.plazaCve := 1;
     StoreLocation.nivelSocioeconomico := "A";
     StoreLocation.entorno := "Base";
     StoreLocation.mts2Ventas := 100.0;
     StoreLocation.puertasRefrig := 12;
     StoreLocation.cajonesEstacionamiento := 0;
     StoreLocation.latitud := 25.67;
     StoreLocation.longitud := -100.22;
     StoreLocation.segmentoMaestro := "Clásico" |}.

(** The schema's example location with the socioeconomic level "E". *)
Definition body_unknown_nivel : StoreLocation.t :=
  {| StoreLocation.tiendaId := None;
     StoreLocation.plazaCve := 1;
     StoreLocation.nivelSocioeconomico := "E";
     StoreLocation.entorno := "Hogar";
     StoreLocation.mts2Ventas := 100.0;
     StoreLocation.puertasRefrig := 12;
     StoreLocation.cajonesEstacionamiento := 0;
     StoreLocation.latitud := 25.67;
     StoreLocation.longitud := -100.22;
     StoreLocation.segmentoMaestro := "Clásico" |}.

(** A training row of the given categories. *)
Definition train_row (nivel entorno : string) (segmento : option string)
  : Combined.row :=
  {| Combined.plazaCve := 1;
     Combined.nivelSocioeconomico := nivel;
     Combined.entorno := entorno;
     Combined.mts2Ventas := 100.0;
     Combined.puertasRefrig := 12;
     Combined.cajonesEstacionamiento := 0;
     Combined.latitud := 25.67;
     Combined.longitud := -100.22;
     Combined.segmentoMaestro := segmento;
     Combined.VENTA_TOTAL := 500000;
     Combined.Meta_venta := Some 480000 |}.

Definition two_training_rows : list Combined.row :=
  [train_row "C" "Base" (Some "Clásico");
   train_row "D" "Hogar" (Some "Oficinistas")].

(** The only configured target: 480000 for Base. *)
Definition targets_base : list SalesTarget.row :=
  [ {| SalesTarget.ENTORNO_DES := "Base"; SalesTarget.Meta_venta := 480000 |} ].

(** A data service over the given store table and training rows, from a
    store file whose text columns were read as text. *)
Definition service (stores : list Store.row) (training : list Combined.row)
  : DataService.t :=
  {| _stores_df := stores;
     _test_stores_df := [];
     _sales_target_df := targets_base;
     _combined_df := training;
     _read_as := fun _ => object |}.

(** Three data sets without stores: one training record; the same and one
    more record; and three records that show the same categories as the
    second set. *)
Definition ds_one : DataService.t :=
  service [] [train_row "C" "Base" (Some "Clásico")].

Definition ds_two : DataService.t := service [] two_training_rows.

Definition ds_three : DataService.t :=
  service [] [train_row "D" "Hogar" (Some "Clásico");
              train_row "C" "Base" (Some "Oficinistas");
              train_row "C" "Hogar" None].

(** A data service over training rows from a store file whose segment
    column was read with the given dtype. *)
Definition service_read_as (read_as : dtype) (training : list Combined.row)
  : DataService.t :=
  {| _stores_df := [];
     _test_stores_df := [];
     _sales_target_df := targets_base;
     _combined_df := training;
     _read_as := fun label =>
                   if String.eqb label "segmentoMaestro" then read_as
                   else object |}.

(** Two training records without a segment: from a store file without any
    segment, whose segment column is a float64 column, and from a store file
    that has a segment in some other row, whose segment column is an object
    column. *)
Definition unsegmented_rows : list Combined.row :=
  [train_row "C" "Base" None; train_row "D" "Hogar" None].

Definition ds_float : DataService.t := service_read_as float64 unsegmented_rows.

Definition ds_text : DataService.t := service_read_as object unsegmented_rows.

(** A store row of level C, environment Hogar (no target configured) and
    segment Clásico, and the location constructed from it. *)
Definition store_row (n plaza : Z) (lat lng : R) : Store.row :=
  {| Store.tiendaId := n;
     Store.plazaCve := plaza;
     Store.nivelSocioeconomico := "C";
     Store.entorno := "Hogar";
     Store.mts2Ventas := 100.0;
     Store.puertasRefrig := 12;
     Store.cajonesEstacionamiento := 0;
     Store.latitud := lat;
     Store.longitud := lng;
     Store.segmentoMaestro := Some "Clásico" |}.

Definition store_location (n plaza : Z) (lat lng : R) : StoreLocation.t :=
  {| StoreLocation.tiendaId := Some n;
     StoreLocation.plazaCve := plaza;
     StoreLocation.nivelSocioeconomico := "C";
     StoreLocation.entorno := "Hogar";
     StoreLocation.mts2Ventas := 100.0;
     StoreLocation.puertasRefrig := 12;
     StoreLocation.cajonesEstacionamiento := 0;
     StoreLocation.latitud := lat;
     StoreLocation.longitud := lng;
     StoreLocation.segmentoMaestro := "Clásico" |}.

(** Six stores at one place, with the plaza code 1. *)
Definition ds_six : DataService.t :=
  service (map (fun n => store_row n 1 25.67 (-100.22)) [1; 2; 3; 4; 5; 6]%Z)
          two_training_rows.

(** Four stores at one place, with the plaza codes 3, 9, 3 and 6. *)
Definition ds_four : DataService.t :=
  service [store_row 1 3 25.67 (-100.22); store_row 2 9 25.67 (-100.22);
           store_row 3 3 25.67 (-100.22); store_row 4 6 25.67 (-100.22)]
          two_training_rows.

(** One store, at 26.2 N on the meridian 100 W. *)
Definition ds_north : DataService.t :=
  service [store_row 1 1 26.2 (-100)] two_training_rows.

(** A request of 5 km around the place of the stores above. *)
Definition area_mty : AreaRequest.t :=
  {| AreaRequest.lat := 25.67; AreaRequest.lng := -100.22;
     AreaRequest.radius := 5.0 |}.

(** Two models: one predicts the same ratio for every row, one a tenth of
    the plaza code. *)
Definition model_const (ratio : R) : Row -> result R := fun _ => Ok ratio.

Definition model_by_plaza (X : Row) : result R :=
  match getitem "plazaCve" X with
  | Some v => Ok (v / 10)
  | None => Raise (ValueError "shape")
  end.

(** The bounds of the schema's example. *)
Definition bounds_mty : MapBounds.t :=
  {| MapBounds.north := 25.75; MapBounds.south := 25.65;
     MapBounds.east := -100.15; MapBounds.west := -100.30 |}.

(** A rectangle one degree high and ten degrees wide, centred on the
    meridian 100 W; the store of [ds_north] lies 0.2 degrees north of it. *)
Definition bounds_wide : MapBounds.t :=
  {| MapBounds.north := 26; MapBounds.south := 25;
     MapBounds.east := -95; MapBounds.west := -105 |}.

(** A rectangle whose north edge is beyond the pole. *)
Definition bounds_north_95 : MapBounds.t :=
  {| MapBounds.north := 95; MapBounds.south := 10;
     MapBounds.east := 10; MapBounds.west := 0 |}.

(** A generator that always draws 0.5. *)
Definition draw_half : nat -> R := fun _ => 0.5.

(** *** Tactics *)

(** Case analysis on every comparison in sight, closing by linear
    arithmetic. *)
Ltac case_cmp :=
  unfold Py.max, Py.min, within, Rlt_bool, Rle_bool, Req_bool in *;
  repeat match goal with
         | |- context [Rlt_dec ?a ?b] => destruct (Rlt_dec a b)
         | |- context [Rle_dec ?a ?b] => destruct (Rle_dec a b)
         | |- context [Req_dec_T ?a ?b] => destruct (Req_dec_T a b)
         | H : context [Rlt_dec ?a ?b] |- _ => destruct (Rlt_dec a b)
         | H : context [Rle_dec ?a ?b] |- _ => destruct (Rle_dec a b)
         end;
  simpl; try reflexivity; try lra.

(* ================================================================== *)
(** ** Comparisons on reals *)
(* ================================================================== *)

Lemma Rlt_bool_true (x y : R) : x < y -> Rlt_bool x y = true.
Proof. intros H. unfold Rlt_bool. destruct (Rlt_dec x y); [reflexivity | contradiction]. Qed.

Lemma Rlt_bool_false (x y : R) : y <= x -> Rlt_bool x y = false.
Proof. intros H. unfold Rlt_bool. destruct (Rlt_dec x y); [lra | reflexivity]. Qed.

Lemma Rle_bool_true (x y : R) : x <= y -> Rle_bool x y = true.
Proof. intros H. unfold Rle_bool. destruct (Rle_dec x y); [reflexivity | contradiction]. Qed.

Lemma Rle_bool_false (x y : R) : y < x -> Rle_bool x y = false.
Proof. intros H. unfold Rle_bool. destruct (Rle_dec x y); [lra | reflexivity]. Qed.

Lemma Rlt_bool_iff (x y : R) : Rlt_bool x y = true <-> x < y.
Proof. unfold Rlt_bool. destruct (Rlt_dec x y); split; intros; auto; discriminate. Qed.

Lemma Rle_bool_iff (x y : R) : Rle_bool x y = true <-> x <= y.
Proof. unfold Rle_bool. destruct (Rle_dec x y); split; intros; auto; discriminate. Qed.

Lemma Req_bool_iff (x y : R) : Req_bool x y = true <-> x = y.
Proof. unfold Req_bool. destruct (Req_dec_T x y); split; intros; auto; discriminate. Qed.

Lemma within_iff (lo hi v : R) : within lo hi v = true <-> lo <= v <= hi.
Proof.
  unfold within. rewrite andb_true_iff, !Rle_bool_iff. tauto.
Qed.

Lemma field_error_nil (field : string) (ok : bool) :
  field_error field ok = [] <-> ok = true.
Proof. destruct ok; simpl; split; intros; auto; discriminate. Qed.

Lemma py_max_Rmax (a b : R) : Py.max a b = Rmax a b.
Proof.
  unfold Rmax. destruct (Rle_dec a b); case_cmp.
Qed.

Lemma py_min_Rmin (a b : R) : Py.min a b = Rmin a b.
Proof.
  unfold Rmin. destruct (Rle_dec a b); case_cmp.
Qed.

(* ================================================================== *)
(** ** The scorer *)
(* ================================================================== *)

Lemma score_of_clamp (ratio : R) : score_of ratio = clamp (ratio / 1.5) 0 1.
Proof.
  unfold score_of, clamp.
  rewrite py_min_Rmin, py_max_Rmax.
  replace 0.0 with 0 by lra. replace 1.0 with 1 by lra. reflexivity.
Qed.

Lemma score_of_range (ratio : R) : 0 <= score_of ratio <= 1.
Proof. unfold score_of. case_cmp. Qed.

Lemma score_of_monotone (r1 r2 : R) : r1 <= r2 -> score_of r1 <= score_of r2.
Proof. intros H. unfold score_of. case_cmp. Qed.

Lemma sigmoid_range (x : R) : 0 < 1 / (1 + exp x) < 1.
Proof.
  pose proof (exp_pos x) as Hx.
  split.
  - apply Rdiv_lt_0_compat; lra.
  - apply Rmult_lt_reg_r with (1 + exp x); [lra |].
    unfold Rdiv. rewrite Rmult_assoc, Rinv_l by lra. lra.
Qed.

Lemma probability_positive (ratio : R) :
  0 < ratio ->
  _calculate_success_probability ratio = 1 / (1 + exp (-5 * (ratio - 0.8))).
Proof.
  intros H. unfold _calculate_success_probability.
  rewrite Rle_bool_false by lra.
  pose proof (sigmoid_range (-5 * (ratio - 0.8))) as [H0 H1].
  case_cmp.
Qed.

Lemma probability_nonpositive (ratio : R) :
  ratio <= 0 -> _calculate_success_probability ratio = 0.
Proof.
  intros H. unfold _calculate_success_probability.
  rewrite Rle_bool_true by lra. lra.
Qed.

Lemma probability_range (ratio : R) :
  0 <= _calculate_success_probability ratio <= 1.
Proof.
  destruct (Rle_dec ratio 0) as [H | H].
  - rewrite probability_nonpositive by assumption. lra.
  - rewrite probability_positive by lra.
    pose proof (sigmoid_range (-5 * (ratio - 0.8))). lra.
Qed.

(* ================================================================== *)
(** ** The feature encoder in closed form *)
(* ================================================================== *)

Lemma getitem_app (col : string) (X Y : Row) :
  getitem col (X ++ Y) =
  match getitem col X with
  | Some v => Some v
  | None => getitem col Y
  end.
Proof.
  induction X as [| [k v] X IH]; simpl; [reflexivity |].
  destruct (String.eqb k col); [reflexivity | exact IH].
Qed.

Lemma has_column_getitem (col : string) (X : Row) :
  has_column col X = match getitem col X with Some _ => true | None => false end.
Proof.
  induction X as [| [k v] X IH]; simpl; [reflexivity |].
  destruct (String.eqb k col); simpl; [reflexivity | exact IH].
Qed.

Lemma getitem_set_default (col c : string) (X : Row) :
  getitem col (set_default c X) =
  match getitem col X with
  | Some v => Some v
  | None => if String.eqb c col then Some 0 else None
  end.
Proof.
  unfold set_default. rewrite has_column_getitem.
  destruct (getitem c X) as [w |] eqn:Hc.
  - destruct (getitem col X) as [v |] eqn:Hcol; [reflexivity |].
    destruct (String.eqb_spec c col) as [-> | _]; [congruence | reflexivity].
  - rewrite getitem_app. destruct (getitem col X); [reflexivity |].
    simpl. destruct (String.eqb c col); reflexivity.
Qed.

Lemma getitem_fill (col : string) (order : list string) (X : Row) :
  getitem col (fold_left (fun X c => set_default c X) order X) =
  match getitem col X with
  | Some v => Some v
  | None => if one_of order col then Some 0 else None
  end.
Proof.
  revert X. induction order as [| c order IH]; intros X; simpl.
  - destruct (getitem col X); reflexivity.
  - rewrite IH, getitem_set_default.
    destruct (getitem col X) as [v |]; [reflexivity |].
    rewrite (String.eqb_sym col c).
    destruct (String.eqb c col); simpl; [reflexivity |].
    reflexivity.
Qed.

Lemma one_of_In (l : list string) (v : string) : one_of l v = true <-> In v l.
Proof.
  unfold one_of. rewrite existsb_exists. split.
  - intros [x [Hx He]]. apply String.eqb_eq in He. now subst.
  - intros H. exists v. split; [assumption | apply String.eqb_refl].
Qed.

Lemma reorder_fill (order sub : list string) (X : Row) :
  incl sub order ->
  reorder sub (fold_left (fun X c => set_default c X) order X) =
  Ok (map (fun col => (col, cell X col)) sub).
Proof.
  unfold reorder.
  induction sub as [| c sub IH]; intros Hincl; simpl; [reflexivity |].
  rewrite getitem_fill.
  assert (Hc : one_of order c = true)
    by (apply one_of_In, Hincl; now left).
  rewrite Hc, IH by (intros x Hx; apply Hincl; now right).
  unfold cell. destruct (getitem c X); reflexivity.
Qed.

Lemma store_location_to_features_eq (ds : DataService.t)
  (location : StoreLocation.t) :
  store_location_to_features ds location = Ok (encode ds location).
Proof.
  unfold store_location_to_features.
  change (columns (fst (get_training_data ds))) with (feature_order ds).
  match goal with
  | |- reraise _ (reorder _ (fold_left _ _ ?X)) = _ =>
      change X with (base_row location)
  end.
  rewrite reorder_fill by apply incl_refl.
  reflexivity.
Qed.

Lemma encode_columns (ds : DataService.t) (location : StoreLocation.t) :
  map fst (encode ds location) = feature_order ds.
Proof.
  unfold encode. rewrite map_map. exact (map_id _).
Qed.

(* ================================================================== *)
(** ** [predict_location], case by case *)
(* ================================================================== *)

Section Predict.

Variable ds : DataService.t.
Variable model : Row -> result R.

Lemma response_errors (location : StoreLocation.t) (ratio : R) :
  PredictionResponse.errors (response_of ds location ratio) =
  field_error "expectedSales"
    (Rle_bool 0 (PredictionResponse.expectedSales
                   (response_of ds location ratio))).
Proof.
  unfold PredictionResponse.errors. simpl.
  assert (Hs : within 0 1 (score_of ratio) = true)
    by (apply within_iff, score_of_range).
  assert (Hp : within 0 1 (_calculate_success_probability ratio) = true)
    by (apply within_iff, probability_range).
  rewrite Hs, Hp. simpl. apply app_nil_r.
Qed.

Lemma predict_location_unfold (location : StoreLocation.t) :
  predict_location ds model location =
  reraise "Failed to make prediction"
    (bind (model (encode ds location)) (fun ratio =>
     PredictionResponse.init (response_of ds location ratio))).
Proof.
  unfold predict_location. rewrite store_location_to_features_eq. reflexivity.
Qed.

Lemma predict_location_ok (location : StoreLocation.t) (ratio : R) :
  model (encode ds location) = Ok ratio ->
  0 <= PredictionResponse.expectedSales (response_of ds location ratio) ->
  predict_location ds model location = Ok (response_of ds location ratio).
Proof.
  intros Hm He. rewrite predict_location_unfold, Hm. simpl.
  unfold PredictionResponse.init.
  rewrite response_errors, Rle_bool_true by exact He. reflexivity.
Qed.

Lemma response_rejected (location : StoreLocation.t) (ratio : R) :
  PredictionResponse.expectedSales (response_of ds location ratio) < 0 ->
  PredictionResponse.init (response_of ds location ratio) =
  Raise (ValidationError "PredictionResponse" ["expectedSales"]).
Proof.
  intros He. unfold PredictionResponse.init.
  rewrite response_errors, Rle_bool_false by exact He. reflexivity.
Qed.

Lemma predict_location_rejected (location : StoreLocation.t) (ratio : R) :
  model (encode ds location) = Ok ratio ->
  PredictionResponse.expectedSales (response_of ds location ratio) < 0 ->
  predict_location ds model location =
  Raise (ValueError "Failed to make prediction").
Proof.
  intros Hm He. rewrite predict_location_unfold, Hm. simpl.
  rewrite response_rejected by exact He. reflexivity.
Qed.

Lemma predict_location_inv (location : StoreLocation.t)
  (resp : PredictionResponse.t) :
  predict_location ds model location = Ok resp ->
  exists ratio,
    model (encode ds location) = Ok ratio /\
    resp = response_of ds location ratio /\
    0 <= PredictionResponse.expectedSales resp.
Proof.
  rewrite predict_location_unfold.
  destruct (model (encode ds location)) as [ratio | e] eqn:Hm; simpl;
    [| discriminate].
  destruct (Rle_dec 0 (PredictionResponse.expectedSales
                         (response_of ds location ratio))) as [He | He].
  - pose proof (predict_location_ok location ratio Hm He) as Hok.
    rewrite predict_location_unfold, Hm in Hok. simpl in Hok.
    rewrite Hok. intros [= <-]. exists ratio. auto.
  - rewrite response_rejected by lra. discriminate.
Qed.

End Predict.

(** The example locations pass construction. *)
Lemma loc_hogar_valid : StoreLocation.init loc_hogar = Ok loc_hogar.
Proof.
  unfold StoreLocation.init, StoreLocation.errors. simpl.
  rewrite Rlt_bool_true by lra.
  repeat (rewrite (proj2 (within_iff _ _ _)) by lra). reflexivity.
Qed.

Lemma loc_base_valid : StoreLocation.init loc_base = Ok loc_base.
Proof.
  unfold StoreLocation.init, StoreLocation.errors. simpl.
  rewrite Rlt_bool_true by lra.
  repeat (rewrite (proj2 (within_iff _ _ _)) by lra). reflexivity.
Qed.

(* ================================================================== *)
(** ** C1, C2: score and success probability *)
(* ================================================================== *)

(** C1. The score [predict_location] computes from a ratio is
    [clamp(ratio / 1.5, 0, 1)]; it is non-decreasing in the ratio (on the
    whole line, so on [0, 1.5]), it is 0 at ratio 0 and 1 from ratio 1.5 on;
    and the score of every response [predict_location] returns is that clamp
    of the ratio the model predicted for the location's features. *)
Theorem score_is_clamp :
  (forall ratio, score_of ratio = clamp (ratio / 1.5) 0 1) /\
  (forall r1 r2, r1 <= r2 -> score_of r1 <= score_of r2) /\
  score_of 0 = 0 /\
  (forall ratio, 1.5 <= ratio -> score_of ratio = 1) /\
  (forall ds model location resp,
      predict_location ds model location = Ok resp ->
      exists X ratio,
        store_location_to_features ds location = Ok X /\
        model X = Ok ratio /\
        PredictionResponse.score resp = clamp (ratio / 1.5) 0 1).
Proof.
  split; [exact score_of_clamp |].
  split; [exact score_of_monotone |].
  split; [unfold score_of; case_cmp |].
  split; [intros ratio H; unfold score_of; case_cmp |].
  intros ds model location resp H.
  destruct (predict_location_inv ds model location resp H)
    as [ratio [Hm [-> _]]].
  exists (encode ds location), ratio.
  split; [apply store_location_to_features_eq |].
  split; [exact Hm |].
  simpl. apply score_of_clamp.
Qed.

(** The score at a few ratios, and a returned response: ratio 0.75 gives
    score 0.5. *)
Lemma score_is_clamp_witness :
  score_of 0.75 <= score_of 1.2 /\ score_of 3 = 1 /\
  exists X ratio,
    store_location_to_features ds_two loc_hogar = Ok X /\
    model_const 0.75 X = Ok ratio /\
    clamp (ratio / 1.5) 0 1 = 0.5.
Proof.
  destruct score_is_clamp as [Hc [Hm [_ [H1 Hp]]]].
  split; [apply Hm; lra |].
  split; [apply H1; lra |].
  destruct (Hp ds_two (model_const 0.75) loc_hogar
              (response_of ds_two loc_hogar 0.75))
    as [X [ratio [HX [Hr Hs]]]].
  - apply predict_location_ok; [reflexivity |]. simpl. lra.
  - exists X, ratio. split; [exact HX |]. split; [exact Hr |].
    rewrite <- Hs. simpl. unfold score_of. case_cmp.
Defined.

(** C2. The success probability is the clamped logistic of
    [5 * (ratio - 0.8)] for a positive ratio and 0 otherwise; it is exactly
    0.5 at ratio 0.8 and 0 at ratio 0. *)
Theorem success_probability_is_clamped_sigmoid :
  (forall ratio, 0 < ratio ->
     _calculate_success_probability ratio =
     clamp (1 / (1 + exp (-5 * (ratio - 0.8)))) 0 1) /\
  (forall ratio, ratio <= 0 -> _calculate_success_probability ratio = 0) /\
  _calculate_success_probability 0.8 = 0.5 /\
  _calculate_success_probability 0 = 0.
Proof.
  split.
  - intros ratio H. rewrite probability_positive by exact H.
    pose proof (sigmoid_range (-5 * (ratio - 0.8))) as [H0 H1].
    unfold clamp. rewrite Rmax_left, Rmin_left by lra. reflexivity.
  - split; [exact probability_nonpositive |].
    split; [| apply probability_nonpositive; lra].
    rewrite probability_positive by lra.
    replace (-5 * (0.8 - 0.8)) with 0 by lra.
    rewrite exp_0. lra.
Qed.

(** The two branches at concrete ratios. *)
Lemma success_probability_witness :
  _calculate_success_probability 1 = clamp (1 / (1 + exp (-5 * (1 - 0.8)))) 0 1
  /\ _calculate_success_probability (-2) = 0.
Proof.
  destruct success_probability_is_clamped_sigmoid as [Hp [Hn _]].
  split; [apply Hp; lra | apply Hn; lra].
Defined.

(* ================================================================== *)
(** ** C4, C9: expected sales *)
(* ================================================================== *)

Lemma expected_sales_of_some (target ratio : R) :
  expected_sales_of (Some target) ratio = target * ratio.
Proof.
  unfold expected_sales_of.
  destruct (Req_bool target 0) eqn:H; [| reflexivity].
  apply Req_bool_iff in H. subst. lra.
Qed.

(** C4, as the code has it. When the model predicts [ratio] for the
    location's features: with a target configured for the environment and
    [target * ratio >= 0], [predict_location] returns a response whose
    expected sales are [target * ratio]; with no target configured it returns
    a response whose expected sales are 0, and does not raise. *)
Theorem expected_sales_of_returned_response :
  forall ds model location X ratio,
    store_location_to_features ds location = Ok X ->
    model X = Ok ratio ->
    (forall target,
        get_sales_target_for_environment ds (StoreLocation.entorno location)
        = Some target ->
        0 <= target * ratio ->
        exists resp,
          predict_location ds model location = Ok resp /\
          PredictionResponse.expectedSales resp = target * ratio) /\
    (get_sales_target_for_environment ds (StoreLocation.entorno location)
     = None ->
     exists resp,
       predict_location ds model location = Ok resp /\
       PredictionResponse.expectedSales resp = 0).
Proof.
  intros ds model location X ratio HX Hm.
  rewrite store_location_to_features_eq in HX. injection HX as <-.
  split.
  - intros target Ht Hpos.
    exists (response_of ds location ratio). split.
    + apply predict_location_ok; [exact Hm |].
      simpl. rewrite Ht, expected_sales_of_some. exact Hpos.
    + simpl. rewrite Ht. apply expected_sales_of_some.
  - intros Hnone.
    exists (response_of ds location ratio). split.
    + apply predict_location_ok; [exact Hm |].
      simpl. rewrite Hnone. simpl. lra.
    + simpl. rewrite Hnone. reflexivity.
Qed.

(** Hogar has no target in [ds_two]: expected sales 0, no exception,
    whatever the ratio (here a negative one); Base has the target 480000. *)
Lemma expected_sales_witness :
  (exists resp,
      predict_location ds_two (model_const (-1)) loc_hogar = Ok resp /\
      PredictionResponse.expectedSales resp = 0) /\
  (exists resp,
      predict_location ds_two (model_const 1.2) loc_base = Ok resp /\
      PredictionResponse.expectedSales resp = 480000 * 1.2).
Proof.
  split.
  - apply (proj2 (expected_sales_of_returned_response
                    ds_two (model_const (-1)) loc_hogar
                    (encode ds_two loc_hogar) (-1)
                    (store_location_to_features_eq _ _) eq_refl)).
    reflexivity.
  - apply (proj1 (expected_sales_of_returned_response
                    ds_two (model_const 1.2) loc_base
                    (encode ds_two loc_base) 1.2
                    (store_location_to_features_eq _ _) eq_refl) 480000).
    + reflexivity.
    + lra.
Defined.

(** C4 as stated fails: a target of 480000 is configured for Base and the
    model predicts the ratio -1 for a Base location, yet [predict_location]
    returns no response at all. *)
Lemma expected_sales_negative_product_raises :
  StoreLocation.init loc_base = Ok loc_base /\
  get_sales_target_for_environment ds_two
    (StoreLocation.entorno loc_base) = Some 480000 /\
  (exists X, store_location_to_features ds_two loc_base = Ok X /\
             model_const (-1) X = Ok (-1)) /\
  predict_location ds_two (model_const (-1)) loc_base =
  Raise (ValueError "Failed to make prediction") /\
  ~ (exists resp,
        predict_location ds_two (model_const (-1)) loc_base = Ok resp /\
        PredictionResponse.expectedSales resp = 480000 * -1).
Proof.
  assert (H : predict_location ds_two (model_const (-1)) loc_base =
              Raise (ValueError "Failed to make prediction")).
  { apply predict_location_rejected with (ratio := -1); [reflexivity |].
    change (expected_sales_of (Some 480000) (-1) < 0).
    rewrite expected_sales_of_some. lra. }
  split; [exact loc_base_valid |].
  split; [reflexivity |].
  split.
  - exists (encode ds_two loc_base).
    split; [apply store_location_to_features_eq | reflexivity].
  - split; [exact H |].
    intros [resp [Hr _]]. rewrite H in Hr. discriminate.
Qed.

(** C9. With a positive target configured for the location's environment and
    a negative predicted ratio, the response fails its [expectedSales >= 0]
    constraint and [predict_location] raises; and no response that
    [predict_location] returns has negative expected sales. *)
Theorem negative_expected_sales_never_returned :
  forall ds model location,
    (forall X target ratio,
        store_location_to_features ds location = Ok X ->
        model X = Ok ratio ->
        get_sales_target_for_environment ds (StoreLocation.entorno location)
        = Some target ->
        0 < target ->
        ratio < 0 ->
        PredictionResponse.init
          {| PredictionResponse.score := score_of ratio;
             PredictionResponse.expectedSales := target * ratio;
             PredictionResponse.probability :=
               _calculate_success_probability ratio;
             PredictionResponse.recommendation :=
               _generate_recommendation (score_of ratio) (target * ratio)
                 (_calculate_success_probability ratio) location |}
        = Raise (ValidationError "PredictionResponse" ["expectedSales"]) /\
        predict_location ds model location =
        Raise (ValueError "Failed to make prediction")) /\
    (forall resp,
        predict_location ds model location = Ok resp ->
        0 <= PredictionResponse.expectedSales resp).
Proof.
  intros ds model location. split.
  - intros X target ratio HX Hm Ht Hpos Hneg.
    rewrite store_location_to_features_eq in HX. injection HX as <-.
    assert (He : PredictionResponse.expectedSales
                   (response_of ds location ratio) < 0).
    { simpl. rewrite Ht, expected_sales_of_some. nra. }
    split.
    + pose proof (response_rejected ds location ratio He) as Hr.
      unfold response_of in Hr. rewrite Ht, expected_sales_of_some in Hr.
      exact Hr.
    + now apply predict_location_rejected with (ratio := ratio).
  - intros resp H.
    destruct (predict_location_inv ds model location resp H)
      as [ratio [_ [_ He]]].
    exact He.
Qed.

(** Base has the target 480000 and the model predicts -1. *)
Lemma negative_expected_sales_witness :
  predict_location ds_two (model_const (-1)) loc_base =
  Raise (ValueError "Failed to make prediction").
Proof.
  refine (proj2 (proj1 (negative_expected_sales_never_returned
                          ds_two (model_const (-1)) loc_base)
                   (encode ds_two loc_base) 480000 (-1)
                   (store_location_to_features_eq _ _) eq_refl eq_refl _ _));
    lra.
Defined.

(* ================================================================== *)
(** ** C6: categories outside the enumerations *)
(* ================================================================== *)

Lemma one_of_false (allowed : list string) (v : string) :
  ~ In v allowed -> one_of allowed v = false.
Proof.
  intros H. destruct (one_of allowed v) eqn:E; [| reflexivity].
  apply one_of_In in E. contradiction.
Qed.

Lemma init_errors (body : StoreLocation.t) :
  StoreLocation.errors body <> [] ->
  StoreLocation.init body =
  Raise (ValidationError "StoreLocation" (StoreLocation.errors body)).
Proof.
  intros H. unfold StoreLocation.init.
  destruct (StoreLocation.errors body); [contradiction | reflexivity].
Qed.

Lemma nivel_error (body : StoreLocation.t) :
  ~ In (StoreLocation.nivelSocioeconomico body) nivel_allowed ->
  In "nivelSocioeconomico" (StoreLocation.errors body).
Proof.
  intros H. unfold StoreLocation.errors.
  rewrite (one_of_false _ _ H), andb_false_r.
  apply in_or_app. right. apply in_or_app. left. now left.
Qed.

Lemma entorno_error (body : StoreLocation.t) :
  ~ In (StoreLocation.entorno body) entorno_allowed ->
  In "entorno" (StoreLocation.errors body).
Proof.
  intros H. unfold StoreLocation.errors.
  rewrite (one_of_false _ _ H), andb_false_r.
  do 2 (apply in_or_app; right). apply in_or_app. left. now left.
Qed.

Lemma segmento_error (body : StoreLocation.t) :
  ~ In (StoreLocation.segmentoMaestro body) segmento_allowed ->
  In "segmentoMaestro" (StoreLocation.errors body).
Proof.
  intros H. unfold StoreLocation.errors.
  rewrite (one_of_false _ _ H), andb_false_r.
  do 8 (apply in_or_app; right). now left.
Qed.

(** C6. A location record with a socioeconomic level, an environment or a
    master segment outside its enumeration is refused at construction with a
    validation error that names the offending field; the encoding pipeline
    and the prediction route fail with that error and return no vector. *)
Theorem unknown_category_is_validation_error :
  forall ds body,
    ~ In (StoreLocation.nivelSocioeconomico body) nivel_allowed \/
    ~ In (StoreLocation.entorno body) entorno_allowed \/
    ~ In (StoreLocation.segmentoMaestro body) segmento_allowed ->
    exists errs,
      StoreLocation.init body = Raise (ValidationError "StoreLocation" errs) /\
      (~ In (StoreLocation.nivelSocioeconomico body) nivel_allowed ->
       In "nivelSocioeconomico" errs) /\
      (~ In (StoreLocation.entorno body) entorno_allowed ->
       In "entorno" errs) /\
      (~ In (StoreLocation.segmentoMaestro body) segmento_allowed ->
       In "segmentoMaestro" errs) /\
      encode_location ds body = Raise (ValidationError "StoreLocation" errs) /\
      (forall X, encode_location ds body <> Ok X) /\
      (forall model,
          route_predict_location ds model body =
          Raise (ValidationError "StoreLocation" errs)).
Proof.
  intros ds body H.
  assert (Hne : StoreLocation.errors body <> []).
  { intros E.
    destruct H as [H | [H | H]];
      [apply nivel_error in H | apply entorno_error in H
       | apply segmento_error in H];
      rewrite E in H; exact H. }
  exists (StoreLocation.errors body).
  pose proof (init_errors body Hne) as Hi.
  split; [exact Hi |].
  split; [apply nivel_error |].
  split; [apply entorno_error |].
  split; [apply segmento_error |].
  unfold encode_location, route_predict_location. rewrite Hi. simpl.
  split; [reflexivity |].
  split; [discriminate | reflexivity].
Qed.

Lemma unknown_category_witness :
  exists errs,
    In "nivelSocioeconomico" errs /\
    encode_location ds_two body_unknown_nivel =
    Raise (ValidationError "StoreLocation" errs).
Proof.
  assert (Hn : ~ In (StoreLocation.nivelSocioeconomico body_unknown_nivel)
                    nivel_allowed).
  { simpl. intros H.
    repeat (destruct H as [H | H]; [discriminate H |]). exact H. }
  destruct (unknown_category_is_validation_error
              ds_two body_unknown_nivel (or_introl Hn))
    as [errs [_ [Hin [_ [_ [He _]]]]]].
  exists errs. split; [exact (Hin Hn) | exact He].
Defined.

(* ================================================================== *)
(** ** Levels of a training column *)
(* ================================================================== *)

Lemma slt_trans (a b c : string) : slt a b -> slt b c -> slt a c.
Proof.
  unfold slt. intros H1 H2.
  apply String_as_OT.cmp_lt in H1. apply String_as_OT.cmp_lt in H2.
  apply String_as_OT.cmp_lt. eapply String_as_OT.lt_trans; eassumption.
Qed.

Lemma slt_irrefl (a : string) : ~ slt a a.
Proof.
  unfold slt. intros H. apply String_as_OT.cmp_lt in H.
  apply String_as_OT.lt_not_eq in H. apply H. reflexivity.
Qed.

Lemma compare_Gt_slt (a b : string) : String.compare a b = Gt -> slt b a.
Proof.
  unfold slt. intros H. rewrite String.compare_antisym, H. reflexivity.
Qed.

Lemma insert_level_In (v x : string) (l : list string) :
  In x (insert_level v l) <-> x = v \/ In x l.
Proof.
  induction l as [| y l IH]; simpl.
  - intuition.
  - destruct (String.compare v y) eqn:E; simpl.
    + apply String.compare_eq_iff in E. subst. intuition.
    + intuition.
    + rewrite IH. intuition.
Qed.

Lemma insert_level_sorted (v : string) (l : list string) :
  StronglySorted slt l -> StronglySorted slt (insert_level v l).
Proof.
  induction 1 as [| y l Hs IH Hall]; simpl.
  - constructor; constructor.
  - destruct (String.compare v y) eqn:E.
    + now constructor.
    + constructor; [now constructor |].
      constructor; [exact E |].
      apply Forall_impl with (2 := Hall). intros z. now apply slt_trans.
    + constructor; [exact IH |].
      apply Forall_forall. intros z Hz.
      apply insert_level_In in Hz. destruct Hz as [-> | Hz].
      * now apply compare_Gt_slt.
      * rewrite Forall_forall in Hall. now apply Hall.
Qed.

Lemma levels_In (col : list (option string)) (v : string) :
  In v (levels col) <-> In (Some v) col.
Proof.
  induction col as [| [w |] col IH]; simpl.
  - tauto.
  - rewrite insert_level_In, IH. split.
    + intros [-> | H]; auto.
    + intros [[= ->] | H]; auto.
  - rewrite IH. split; [auto | intros [H | H]; [discriminate | exact H]].
Qed.

Lemma levels_sorted (col : list (option string)) :
  StronglySorted slt (levels col).
Proof.
  induction col as [| [w |] col IH]; simpl.
  - constructor.
  - now apply insert_level_sorted.
  - exact IH.
Qed.

(** A strictly sorted list is determined by its members. *)
Lemma sorted_ext (l1 l2 : list string) :
  StronglySorted slt l1 -> StronglySorted slt l2 ->
  (forall x, In x l1 <-> In x l2) -> l1 = l2.
Proof.
  intros H1. revert l2.
  induction H1 as [| a l1 Hs1 IH Ha]; intros l2 H2 Hiff.
  - destruct l2 as [| b l2]; [reflexivity |].
    exfalso. apply (Hiff b). now left.
  - destruct H2 as [| b l2 Hs2 Hb].
    + exfalso. apply (Hiff a). now left.
    + rewrite Forall_forall in Ha, Hb.
      assert (Hab : a = b).
      { destruct (proj1 (Hiff a) (or_introl eq_refl)) as [E | Hin2];
          [now symmetry |].
        destruct (proj2 (Hiff b) (or_introl eq_refl)) as [E | Hin1];
          [assumption |].
        exfalso. apply (slt_irrefl a).
        apply slt_trans with b; [now apply Ha | now apply Hb]. }
      subst b. f_equal. apply IH; [exact Hs2 |].
      intros x. split; intros Hx.
      * destruct (proj1 (Hiff x) (or_intror Hx)) as [E | Hin]; [| exact Hin].
        subst x. exfalso. apply (slt_irrefl a). now apply Ha.
      * destruct (proj2 (Hiff x) (or_intror Hx)) as [E | Hin]; [| exact Hin].
        subst x. exfalso. apply (slt_irrefl a). now apply Hb.
Qed.

Lemma levels_ext (col1 col2 : list (option string)) :
  (forall v, In (Some v) col1 <-> In (Some v) col2) ->
  levels col1 = levels col2.
Proof.
  intros H. apply sorted_ext; try apply levels_sorted.
  intros x. rewrite !levels_In. apply H.
Qed.

Lemma levels_of_sorted (col : list (option string)) (cats : list string) :
  StronglySorted slt cats ->
  (forall v, In (Some v) col <-> In v cats) ->
  levels col = cats.
Proof.
  intros Hs H. apply sorted_ext; [apply levels_sorted | exact Hs |].
  intros x. rewrite levels_In. apply H.
Qed.

Lemma levels_NoDup (col : list (option string)) : NoDup (levels col).
Proof.
  pose proof (levels_sorted col) as H.
  induction H as [| a l Hs IH Ha]; constructor; [| exact IH].
  intros Hin. rewrite Forall_forall in Ha.
  apply (slt_irrefl a). now apply Ha.
Qed.

(** *** The three categorical attributes *)

(** A float64 column holds no value, so it has no level. *)
Lemma float_no_levels (ds : DataService.t) (a : attribute) :
  column_dtype ds a = float64 -> levels (column_of ds a) = [].
Proof.
  unfold column_dtype, dtype_of.
  destruct (existsb _ (_combined_df ds)) eqn:E; [discriminate |].
  intros _.
  assert (H : forall rows,
             existsb (fun r => match snd (categorical a) r with
                               | Some _ => true
                               | None => false
                               end) rows = false ->
             levels (map (snd (categorical a)) rows) = []).
  { induction rows as [| r rows IH]; [reflexivity |].
    simpl. intros Hr. apply orb_false_iff in Hr. destruct Hr as [Hr Hrows].
    destruct (snd (categorical a) r); [discriminate | now apply IH]. }
  destruct a; exact (H _ E).
Qed.

Lemma float_no_indicators (ds : DataService.t) (a : attribute) :
  column_dtype ds a = float64 -> indicator_columns ds a = [].
Proof.
  intros H. unfold indicator_columns, kept_levels.
  now rewrite float_no_levels.
Qed.

(** The columns that are passed through, by attribute. *)
Lemma passed_through_eq (ds : DataService.t) :
  passed_through ds =
  map prefix_of
      (filter (fun a => negb (is_object (column_dtype ds a)))
              [Nivel; Entorno; Segmento]).
Proof.
  unfold passed_through, column_dtype.
  change categorical_columns with (map categorical [Nivel; Entorno; Segmento]).
  cbn [map filter].
  destruct (dtype_of ds (categorical Nivel)),
           (dtype_of ds (categorical Entorno)),
           (dtype_of ds (categorical Segmento)); reflexivity.
Qed.

(** What the encoded columns contribute for the blocks [f] of the three
    attributes, when the block of an attribute without levels is empty. *)
Lemma encoded_blocks {B : Type} (ds : DataService.t)
  (f : text_column -> list B) :
  (forall a, column_dtype ds a = float64 -> f (categorical a) = []) ->
  flat_map f (encoded ds) =
  f (categorical Nivel) ++ f (categorical Entorno) ++ f (categorical Segmento).
Proof.
  intros H. unfold encoded.
  change categorical_columns with (map categorical [Nivel; Entorno; Segmento]).
  cbn [map filter].
  pose proof (H Nivel) as HN. pose proof (H Entorno) as HE.
  pose proof (H Segmento) as HS. unfold column_dtype in HN, HE, HS.
  destruct (dtype_of ds (categorical Nivel)),
           (dtype_of ds (categorical Entorno)),
           (dtype_of ds (categorical Segmento));
    cbn [is_object flat_map app];
    rewrite ?HN, ?HE, ?HS by reflexivity;
    rewrite ?app_nil_r; reflexivity.
Qed.

Lemma feature_order_blocks (ds : DataService.t) :
  feature_order ds =
  numeric_columns ++ passed_through ds ++ indicator_columns ds Nivel
  ++ indicator_columns ds Entorno ++ indicator_columns ds Segmento.
Proof.
  unfold feature_order, get_training_data. cbn [fst columns].
  rewrite (encoded_blocks ds
             (fun c => map (dummy_name (fst c))
                           (kept_levels (map (snd c) (_combined_df ds))))).
  - reflexivity.
  - intros a Ha. apply float_no_indicators in Ha.
    destruct a; exact Ha.
Qed.

Lemma cats_sorted (a : attribute) : StronglySorted slt (cats_of a).
Proof.
  destruct a; repeat constructor.
Qed.

(* ================================================================== *)
(** ** The cells of an encoded row *)
(* ================================================================== *)

Lemma dummy_name_eqb (p v l : string) :
  String.eqb (dummy_name p v) (dummy_name p l) = String.eqb v l.
Proof.
  unfold dummy_name. induction p as [| c p IH]; simpl.
  - reflexivity.
  - rewrite Ascii.eqb_refl. exact IH.
Qed.

Lemma dummies_of_getitem (col p : string) (cats : list string) (v : string) :
  getitem col (dummies_of p cats v) =
  if String.eqb (dummy_name p v) col then Some 1
  else if one_of (map (dummy_name p) cats) col then Some 0 else None.
Proof.
  unfold dummies_of.
  assert (G : forall X,
             getitem col
               (fold_left (fun X cat => set_default (dummy_name p cat) X)
                          cats X) =
             match getitem col X with
             | Some w => Some w
             | None => if one_of (map (dummy_name p) cats) col
                       then Some 0 else None
             end).
  { induction cats as [| c cats IH]; intros X; simpl.
    - destruct (getitem col X); reflexivity.
    - rewrite IH, getitem_set_default.
      destruct (getitem col X) as [w |]; [reflexivity |].
      rewrite (String.eqb_sym col). 
      destruct (String.eqb (dummy_name p c) col); reflexivity. }
  rewrite G. simpl.
  destruct (String.eqb (dummy_name p v) col); reflexivity.
Qed.

(** A dummy column of one attribute is no numeric column and no dummy column
    of another attribute: the labels differ in their first character. *)
Lemma cell_indicator (location : StoreLocation.t) (a : attribute) (l : string) :
  cell (base_row location) (dummy_name (prefix_of a) l) =
  if String.eqb (value_of location a) l then 1 else 0.
Proof.
  unfold cell, base_row.
  rewrite !getitem_app, !dummies_of_getitem.
  destruct a; cbn [prefix_of value_of].
  - change (getitem (dummy_name "nivelSocioeconomico" l) _) with (@None R).
    rewrite dummy_name_eqb.
    destruct (String.eqb (StoreLocation.nivelSocioeconomico location) l);
      [reflexivity |].
    destruct (one_of _ _); [reflexivity |].
    change (String.eqb (dummy_name "entorno" _)
                       (dummy_name "nivelSocioeconomico" l)) with false.
    change (String.eqb (dummy_name "segmentoMaestro" _)
                       (dummy_name "nivelSocioeconomico" l)) with false.
    cbv iota.
    repeat (destruct (one_of _ _); try reflexivity).
  - change (getitem (dummy_name "entorno" l) _) with (@None R).
    change (String.eqb (dummy_name "nivelSocioeconomico" _)
                       (dummy_name "entorno" l)) with false.
    change (one_of (map (dummy_name "nivelSocioeconomico") nivel_cats)
                   (dummy_name "entorno" l)) with false.
    cbv iota. rewrite dummy_name_eqb.
    destruct (String.eqb (StoreLocation.entorno location) l); [reflexivity |].
    destruct (one_of _ _); [reflexivity |].
    change (String.eqb (dummy_name "segmentoMaestro" _)
                       (dummy_name "entorno" l)) with false.
    cbv iota.
    repeat (destruct (one_of _ _); try reflexivity).
  - change (getitem (dummy_name "segmentoMaestro" l) _) with (@None R).
    change (String.eqb (dummy_name "nivelSocioeconomico" _)
                       (dummy_name "segmentoMaestro" l)) with false.
    change (one_of (map (dummy_name "nivelSocioeconomico") nivel_cats)
                   (dummy_name "segmentoMaestro" l)) with false.
    change (String.eqb (dummy_name "entorno" _)
                       (dummy_name "segmentoMaestro" l)) with false.
    change (one_of (map (dummy_name "entorno") entorno_cats)
                   (dummy_name "segmentoMaestro" l)) with false.
    cbv iota. rewrite dummy_name_eqb.
    destruct (String.eqb (StoreLocation.segmentoMaestro location) l);
      [reflexivity |].
    destruct (one_of _ _); reflexivity.
Qed.

Lemma getitem_encode (ds : DataService.t) (location : StoreLocation.t)
  (col : string) :
  In col (feature_order ds) ->
  getitem col (encode ds location) = Some (cell (base_row location) col).
Proof.
  unfold encode. induction (feature_order ds) as [| c order IH]; simpl.
  - tauto.
  - intros [-> | H].
    + now rewrite String.eqb_refl.
    + destruct (String.eqb_spec c col) as [-> | _]; [reflexivity | now apply IH].
Qed.

Lemma indicator_columns_in_order (ds : DataService.t) (a : attribute)
  (col : string) :
  In col (indicator_columns ds a) -> In col (feature_order ds).
Proof.
  intros H. rewrite feature_order_blocks.
  do 2 (apply in_or_app; right).
  destruct a.
  - apply in_or_app. now left.
  - apply in_or_app. right. apply in_or_app. now left.
  - do 2 (apply in_or_app; right). exact H.
Qed.

Lemma block_encode (ds : DataService.t) (location : StoreLocation.t)
  (a : attribute) :
  block ds a (encode ds location) =
  map (fun l => Some (if String.eqb (value_of location a) l then 1 else 0))
      (kept_levels (column_of ds a)).
Proof.
  unfold block, indicator_columns. rewrite map_map.
  apply map_ext_in. intros l Hl.
  rewrite getitem_encode.
  - now rewrite cell_indicator.
  - apply indicator_columns_in_order with a.
    unfold indicator_columns. now apply in_map.
Qed.

(* ================================================================== *)
(** ** C3, C7: what the encoding depends on *)
(* ================================================================== *)

Lemma vector_length (ds : DataService.t) (location : StoreLocation.t) :
  List.length (vector (encode ds location)) = List.length (feature_order ds).
Proof. unfold vector, encode. now rewrite !length_map. Qed.

Lemma same_levels_same_order (ds1 ds2 : DataService.t) :
  (forall a, column_dtype ds1 a = column_dtype ds2 a) ->
  (forall a v, In (Some v) (column_of ds1 a) <-> In (Some v) (column_of ds2 a)) ->
  feature_order ds1 = feature_order ds2.
Proof.
  intros Hd H. rewrite !feature_order_blocks, !passed_through_eq.
  cbn [filter]. unfold indicator_columns, kept_levels.
  rewrite !Hd, (levels_ext _ _ (H Nivel)), (levels_ext _ _ (H Entorno)),
    (levels_ext _ _ (H Segmento)).
  reflexivity.
Qed.

(** C3, as the code has it. Encoding always returns a row whose columns are
    the feature order of the loaded training data, in that order and of that
    length; it depends on the training data only through the set of values
    present in each of its three categorical columns and the dtype of each
    of these columns: two data sets with the same sets and the same dtypes
    give every location the same row, and two data sets with the same sets
    that differ in the dtype of a column give no location the same row. *)
Theorem encoding_depends_on_training_levels :
  (forall ds location,
      exists X,
        store_location_to_features ds location = Ok X /\
        map fst X = feature_order ds /\
        List.length (vector X) = List.length (feature_order ds)) /\
  (forall ds1 ds2 location,
      (forall a, column_dtype ds1 a = column_dtype ds2 a) ->
      (forall a v,
          In (Some v) (column_of ds1 a) <-> In (Some v) (column_of ds2 a)) ->
      store_location_to_features ds1 location =
      store_location_to_features ds2 location) /\
  (forall ds1 ds2 location,
      (exists a, column_dtype ds1 a <> column_dtype ds2 a) ->
      (forall a v,
          In (Some v) (column_of ds1 a) <-> In (Some v) (column_of ds2 a)) ->
      store_location_to_features ds1 location <>
      store_location_to_features ds2 location).
Proof.
  split; [| split].
  - intros ds location. exists (encode ds location).
    split; [apply store_location_to_features_eq |].
    split; [apply encode_columns | apply vector_length].
  - intros ds1 ds2 location Hd H.
    rewrite !store_location_to_features_eq. unfold encode.
    now rewrite (same_levels_same_order ds1 ds2 Hd H).
  - intros ds1 ds2 location Hd H E.
    rewrite !store_location_to_features_eq in E.
    assert (E' : map fst (encode ds1 location) = map fst (encode ds2 location))
      by congruence.
    clear E. rename E' into E. rewrite !encode_columns in E.
    rewrite !feature_order_blocks in E.
    unfold indicator_columns, kept_levels in E.
    rewrite (levels_ext _ _ (H Nivel)), (levels_ext _ _ (H Entorno)),
      (levels_ext _ _ (H Segmento)) in E.
    apply app_inv_head, app_inv_tail in E.
    rewrite !passed_through_eq in E. cbn [filter] in E.
    destruct Hd as [a Hd].
    destruct a;
      destruct (column_dtype ds1 Nivel), (column_dtype ds2 Nivel),
               (column_dtype ds1 Entorno), (column_dtype ds2 Entorno),
               (column_dtype ds1 Segmento), (column_dtype ds2 Segmento);
      cbn in E; try discriminate E; congruence.
Qed.

(** The example location under [ds_two]: six numeric values, then the
    indicators of level D, environment Hogar and segment Oficinistas. *)
Example encode_loc_hogar :
  store_location_to_features ds_two loc_hogar =
  Ok [("plazaCve", 1); ("mts2Ventas", 100.0); ("puertasRefrig", 12);
      ("cajonesEstacionamiento", 0); ("latitud", 25.67);
      ("longitud", -100.22); ("nivelSocioeconomico_D", 0);
      ("entorno_Hogar", 1); ("segmentoMaestro_Oficinistas", 0)].
Proof. reflexivity. Qed.

(** A segment column without values that was read as float64 is passed
    through: the training frame of [ds_float] has it as its seventh column,
    without a value in any row, and the encoder gives it the value 0. With
    the same records and an object column there is no such column. *)
Example training_frame_with_float_segment :
  columns (fst (get_training_data ds_float)) =
    ["plazaCve"; "mts2Ventas"; "puertasRefrig"; "cajonesEstacionamiento";
     "latitud"; "longitud"; "segmentoMaestro"; "nivelSocioeconomico_D";
     "entorno_Hogar"] /\
  data (fst (get_training_data ds_float)) =
    [[Some 1; Some 100.0; Some 12; Some 0; Some 25.67; Some (-100.22);
      None; Some 0; Some 0];
     [Some 1; Some 100.0; Some 12; Some 0; Some 25.67; Some (-100.22);
      None; Some 1; Some 1]] /\
  columns (fst (get_training_data ds_text)) =
    ["plazaCve"; "mts2Ventas"; "puertasRefrig"; "cajonesEstacionamiento";
     "latitud"; "longitud"; "nivelSocioeconomico_D"; "entorno_Hogar"].
Proof. repeat split. Qed.

Example encode_with_float_segment :
  store_location_to_features ds_float loc_hogar =
  Ok [("plazaCve", 1); ("mts2Ventas", 100.0); ("puertasRefrig", 12);
      ("cajonesEstacionamiento", 0); ("latitud", 25.67);
      ("longitud", -100.22); ("segmentoMaestro", 0);
      ("nivelSocioeconomico_D", 0); ("entorno_Hogar", 1)] /\
  store_location_to_features ds_text loc_hogar =
  Ok [("plazaCve", 1); ("mts2Ventas", 100.0); ("puertasRefrig", 12);
      ("cajonesEstacionamiento", 0); ("latitud", 25.67);
      ("longitud", -100.22); ("nivelSocioeconomico_D", 0);
      ("entorno_Hogar", 1)].
Proof. split; reflexivity. Qed.

Lemma ds_two_three_same_values (a : attribute) (v : string) :
  In (Some v) (column_of ds_two a) <-> In (Some v) (column_of ds_three a).
Proof.
  destruct a; simpl; intuition; discriminate.
Qed.

(** [ds_two] and [ds_three] hold different records with the same categories:
    the example location gets the same row from both. *)
Lemma encoding_witness :
  store_location_to_features ds_two loc_hogar =
  store_location_to_features ds_three loc_hogar.
Proof.
  apply (proj1 (proj2 encoding_depends_on_training_levels)
           ds_two ds_three loc_hogar).
  - intros a. destruct a; reflexivity.
  - exact ds_two_three_same_values.
Defined.

(** C3 as stated fails: one more record in the training data changes the
    vector of the same location, here from 6 to 9 entries. *)
Lemma encoding_changes_with_training_data :
  StoreLocation.init loc_hogar = Ok loc_hogar /\
  exists X1 X2,
    store_location_to_features ds_one loc_hogar = Ok X1 /\
    store_location_to_features ds_two loc_hogar = Ok X2 /\
    List.length (vector X1) = 6%nat /\
    List.length (vector X2) = 9%nat /\
    vector X1 <> vector X2.
Proof.
  split; [exact loc_hogar_valid |].
  exists (encode ds_one loc_hogar), (encode ds_two loc_hogar).
  split; [apply store_location_to_features_eq |].
  split; [apply store_location_to_features_eq |].
  assert (H1 : List.length (vector (encode ds_one loc_hogar)) = 6%nat)
    by (rewrite vector_length; reflexivity).
  assert (H2 : List.length (vector (encode ds_two loc_hogar)) = 9%nat)
    by (rewrite vector_length; reflexivity).
  split; [exact H1 |]. split; [exact H2 |].
  intros E. rewrite E, H2 in H1. discriminate.
Qed.

Lemma all_zero_for_reference (ds : DataService.t) (a : attribute) (v : string) :
  v = hd "" (levels (column_of ds a)) ->
  map (fun l => Some (if String.eqb v l then 1 else 0))
      (kept_levels (column_of ds a)) =
  map (fun _ => Some 0) (kept_levels (column_of ds a)).
Proof.
  intros Hv. unfold kept_levels.
  pose proof (levels_NoDup (column_of ds a)) as Hnd.
  destruct (levels (column_of ds a)) as [| h t]; [reflexivity |].
  simpl in *. subst v. inversion_clear Hnd as [| ? ? Hh _].
  apply map_ext_in. intros l Hl.
  destruct (String.eqb_spec h l) as [-> | _]; [contradiction | reflexivity].
Qed.

(** The row the encoder builds has no column with the bare label of an
    attribute: its columns are the numeric ones and indicator columns. *)
Lemma cell_label (location : StoreLocation.t) (a : attribute) :
  cell (base_row location) (prefix_of a) = 0.
Proof.
  unfold cell, base_row. rewrite !getitem_app, !dummies_of_getitem.
  destruct a; reflexivity.
Qed.

Lemma passed_through_cases (ds : DataService.t) (col : string) :
  In col (passed_through ds) ->
  exists a, col = prefix_of a /\ column_dtype ds a = float64.
Proof.
  rewrite passed_through_eq. intros H. apply in_map_iff in H.
  destruct H as [a [<- Ha]]. apply filter_In in Ha. destruct Ha as [_ Ha].
  exists a. split; [reflexivity |].
  destruct (column_dtype ds a); [discriminate | reflexivity].
Qed.

Lemma passed_through_cell (ds : DataService.t) (location : StoreLocation.t)
  (col : string) :
  In col (passed_through ds) ->
  getitem col (encode ds location) = Some 0.
Proof.
  intros H. rewrite getitem_encode.
  - apply passed_through_cases in H. destruct H as [a [-> _]].
    now rewrite cell_label.
  - rewrite feature_order_blocks. apply in_or_app. right.
    apply in_or_app. now left.
Qed.

(** A table with a record has text in its level and environment columns. *)
Lemma record_makes_object (ds : DataService.t) (r : Combined.row) :
  In r (_combined_df ds) ->
  column_dtype ds Nivel = object /\ column_dtype ds Entorno = object /\
  (forall segmento,
      Combined.segmentoMaestro r = Some segmento ->
      column_dtype ds Segmento = object).
Proof.
  intros Hr.
  assert (H : forall a v,
             snd (categorical a) r = Some v -> column_dtype ds a = object).
  { intros a v Hv. unfold column_dtype, dtype_of.
    assert (E : existsb (fun r => match snd (categorical a) r with
                                  | Some _ => true
                                  | None => false
                                  end) (_combined_df ds) = true).
    { apply existsb_exists. exists r. split; [exact Hr | now rewrite Hv]. }
    now rewrite E. }
  split; [now apply (H Nivel (Combined.nivelSocioeconomico r)) |].
  split; [now apply (H Entorno (Combined.entorno r)) |].
  intros segmento Hs. now apply (H Segmento segmento).
Qed.

(** C7, as the code has it. The columns of an encoded row are the six numeric
    columns, then every categorical column that the training data has as a
    float64 column, under its own label, and then, for each categorical
    attribute, one indicator per value present in that column of the training
    data except the first in sorted order; when the training column shows
    exactly the categories of the enumeration, these are the enumeration's
    categories except its first. A float64 column holds no value and gives
    no indicator; it is 0 in every encoded row; in a table that has a record
    only the segment column can be one. The indicator of a level is 1 when
    the location has that level and 0 otherwise, so a location at the omitted
    level has an all-zero block; and the columns are the same for every
    location. *)
Theorem indicator_columns_follow_training_levels :
  forall ds location X,
    store_location_to_features ds location = Ok X ->
    map fst X =
      numeric_columns ++ passed_through ds ++ indicator_columns ds Nivel
      ++ indicator_columns ds Entorno ++ indicator_columns ds Segmento /\
    (forall col,
        In col (passed_through ds) <->
        exists a, col = prefix_of a /\ column_dtype ds a = float64) /\
    (forall a,
        column_dtype ds a = float64 ->
        (forall v, ~ In (Some v) (column_of ds a)) /\
        indicator_columns ds a = [] /\
        getitem (prefix_of a) X = Some 0) /\
    (forall r,
        In r (_combined_df ds) ->
        column_dtype ds Nivel = object /\ column_dtype ds Entorno = object) /\
    (forall a,
        StronglySorted slt (levels (column_of ds a)) /\
        (forall v, In v (levels (column_of ds a)) <-> In (Some v) (column_of ds a)) /\
        ((forall v, In (Some v) (column_of ds a) <-> In v (cats_of a)) ->
         indicator_columns ds a =
         map (dummy_name (prefix_of a)) (tl (cats_of a))) /\
        block ds a X =
          map (fun l => Some (if String.eqb (value_of location a) l then 1 else 0))
              (kept_levels (column_of ds a)) /\
        (value_of location a = hd "" (levels (column_of ds a)) ->
         block ds a X = map (fun _ => Some 0) (kept_levels (column_of ds a)))) /\
    (forall location' X',
        store_location_to_features ds location' = Ok X' ->
        map fst X' = map fst X).
Proof.
  intros ds location X HX.
  rewrite store_location_to_features_eq in HX. injection HX as <-.
  split; [rewrite encode_columns; apply feature_order_blocks |].
  assert (Hpassed : forall col,
             In col (passed_through ds) <->
             exists a, col = prefix_of a /\ column_dtype ds a = float64).
  { intros col. split; [apply passed_through_cases |].
    intros [a [-> Ha]]. rewrite passed_through_eq.
    apply in_map, filter_In. split; [destruct a; simpl; tauto |].
    now rewrite Ha. }
  split; [exact Hpassed |].
  split.
  { intros a Ha. split.
    - intros v Hv. apply levels_In in Hv.
      rewrite (float_no_levels ds a Ha) in Hv. destruct Hv.
    - split; [now apply float_no_indicators |].
      apply passed_through_cell, Hpassed. now exists a. }
  split.
  { intros r Hr. destruct (record_makes_object ds r Hr) as [HN [HE _]].
    now split. }
  split.
  - intros a.
    split; [apply levels_sorted |].
    split; [intros v; apply levels_In |].
    split.
    + intros H. unfold indicator_columns, kept_levels.
      now rewrite (levels_of_sorted _ _ (cats_sorted a) H).
    + split; [apply block_encode |].
      intros Hv. rewrite block_encode. now apply all_zero_for_reference.
  - intros location' X' HX'.
    rewrite store_location_to_features_eq in HX'. injection HX' as <-.
    now rewrite !encode_columns.
Qed.

(** In [ds_two] the levels C and D are present: C is omitted, D has the one
    indicator, and the example location (level C) has an all-zero block. *)
Lemma indicator_columns_witness :
  indicator_columns ds_two Nivel = ["nivelSocioeconomico_D"] /\
  block ds_two Nivel (encode ds_two loc_hogar) = [Some 0].
Proof.
  split; [reflexivity |].
  exact (proj2 (proj2 (proj2 (proj2
           (proj1 (proj2 (proj2 (proj2 (proj2
                    (indicator_columns_follow_training_levels
                       ds_two loc_hogar (encode ds_two loc_hogar)
                       (store_location_to_features_eq _ _))))))
              Nivel))))
           eq_refl).
Defined.

(** C7 as stated fails: with the training data [ds_two] the encoder emits
    one indicator per attribute, not one per category of the enumeration but
    the first; the omitted level of the socioeconomic attribute is C, not the
    first category A, and the category C has no column. *)
Lemma indicator_columns_not_the_enumeration :
  StoreLocation.init loc_hogar = Ok loc_hogar /\
  exists X,
    store_location_to_features ds_two loc_hogar = Ok X /\
    map fst X =
      numeric_columns
      ++ ["nivelSocioeconomico_D"; "entorno_Hogar"; "segmentoMaestro_Oficinistas"] /\
    map fst X <> enumeration_columns /\
    In "C" (cats_of Nivel) /\ hd "" (cats_of Nivel) = "A" /\
    getitem (dummy_name (prefix_of Nivel) "C") X = None.
Proof.
  split; [exact loc_hogar_valid |].
  exists (encode ds_two loc_hogar).
  split; [apply store_location_to_features_eq |].
  assert (H : map fst (encode ds_two loc_hogar) =
              numeric_columns
              ++ ["nivelSocioeconomico_D"; "entorno_Hogar";
                  "segmentoMaestro_Oficinistas"])
    by (rewrite encode_columns; reflexivity).
  split; [exact H |].
  split; [rewrite H; discriminate |].
  split; [simpl; tauto |].
  split; reflexivity.
Qed.

(* ================================================================== *)
(** ** The stable descending sort *)
(* ================================================================== *)

Section SortFacts.

Context {A : Type} (key : A -> R).

Lemma insert_reverse_In (x y : A) (l : list A) :
  In y (insert_reverse key x l) <-> y = x \/ In y l.
Proof.
  induction l as [| z l IH]; simpl.
  - intuition.
  - destruct (Rlt_bool (key x) (key z)); simpl.
    + rewrite IH. intuition.
    + intuition.
Qed.

Lemma insert_reverse_perm (x : A) (l : list A) :
  Permutation (insert_reverse key x l) (x :: l).
Proof.
  induction l as [| z l IH]; simpl.
  - apply Permutation_refl.
  - destruct (Rlt_bool (key x) (key z)).
    + apply perm_trans with (z :: x :: l).
      * now apply perm_skip.
      * apply perm_swap.
    + apply Permutation_refl.
Qed.

Lemma sort_reverse_perm (l : list A) : Permutation (sort_reverse key l) l.
Proof.
  induction l as [| x l IH]; simpl.
  - apply perm_nil.
  - apply perm_trans with (x :: sort_reverse key l).
    + apply insert_reverse_perm.
    + now apply perm_skip.
Qed.

Lemma insert_reverse_descending (x : A) (l : list A) :
  descending key l -> descending key (insert_reverse key x l).
Proof.
  unfold descending.
  induction 1 as [| z l Hs IH Hz]; simpl.
  - constructor; constructor.
  - destruct (Rlt_bool (key x) (key z)) eqn:E.
    + apply Rlt_bool_iff in E.
      constructor; [exact IH |].
      apply Forall_forall. intros y Hy.
      apply insert_reverse_In in Hy. destruct Hy as [-> | Hy].
      * lra.
      * rewrite Forall_forall in Hz. now apply Hz.
    + assert (Hxz : key z <= key x).
      { unfold Rlt_bool in E. destruct (Rlt_dec (key x) (key z));
          [discriminate | lra]. }
      constructor; [now constructor |].
      constructor; [exact Hxz |].
      apply Forall_impl with (2 := Hz). intros y Hy. lra.
Qed.

Lemma sort_reverse_descending (l : list A) : descending key (sort_reverse key l).
Proof.
  induction l as [| x l IH]; simpl.
  - constructor.
  - now apply insert_reverse_descending.
Qed.

(** Stability: an item is only moved past items of strictly greater key. *)
Lemma insert_reverse_with_key (v : R) (x : A) (l : list A) :
  with_key key v (insert_reverse key x l) = with_key key v (x :: l).
Proof.
  unfold with_key.
  induction l as [| z l IH]; [reflexivity |].
  simpl insert_reverse.
  destruct (Rlt_bool (key x) (key z)) eqn:E; [| reflexivity].
  apply Rlt_bool_iff in E.
  simpl filter at 1. rewrite IH. simpl.
  destruct (Req_bool (key x) v) eqn:Ex; destruct (Req_bool (key z) v) eqn:Ez;
    try reflexivity.
  apply Req_bool_iff in Ex. apply Req_bool_iff in Ez. lra.
Qed.

Lemma sort_reverse_with_key (v : R) (l : list A) :
  with_key key v (sort_reverse key l) = with_key key v l.
Proof.
  induction l as [| x l IH]; [reflexivity |].
  simpl sort_reverse. rewrite insert_reverse_with_key.
  unfold with_key in *. simpl. now rewrite IH.
Qed.

Lemma firstn_descending (n : nat) (l : list A) :
  descending key l -> descending key (firstn n l).
Proof.
  unfold descending. intros H. revert n.
  induction H as [| z l Hs IH Hz]; intros [| n]; simpl; try constructor.
  - apply IH.
  - apply Forall_forall. intros y Hy.
    rewrite Forall_forall in Hz. apply Hz.
    rewrite <- (firstn_skipn n l). apply in_or_app. now left.
Qed.

Lemma firstn_with_key (v : R) (n : nat) (l : list A) :
  with_key key v l = with_key key v (firstn n l) ++ with_key key v (skipn n l).
Proof.
  unfold with_key. rewrite <- filter_app. now rewrite firstn_skipn.
Qed.

End SortFacts.

(** Sorting pairs by their second component sorts the first components by
    the function that produced it. *)
Lemma sort_reverse_tagged {A : Type} (f : A -> R) (l : list A) :
  sort_reverse snd (map (fun a => (a, f a)) l) =
  map (fun a => (a, f a)) (sort_reverse f l).
Proof.
  induction l as [| x l IH]; [reflexivity |].
  simpl. rewrite IH. generalize (sort_reverse f l). intros s.
  induction s as [| z s IHs]; [reflexivity |].
  simpl. destruct (Rlt_bool (f x) (f z)); simpl; [now rewrite IHs | reflexivity].
Qed.

Lemma for_each_ok {A B : Type} (body : A -> result B) (g : A -> B)
  (l : list A) :
  (forall x, In x l -> body x = Ok (g x)) ->
  for_each body l = Ok (map g l).
Proof.
  induction l as [| x l IH]; intros H; simpl; [reflexivity |].
  rewrite (H x) by now left.
  rewrite IH by (intros y Hy; apply H; now right). reflexivity.
Qed.

Lemma for_each_inv {A B : Type} (body : A -> result B) (l : list A)
  (ys : list B) :
  for_each body l = Ok ys -> Forall2 (fun x y => body x = Ok y) l ys.
Proof.
  revert ys. induction l as [| x l IH]; intros ys; simpl.
  - intros [= <-]. constructor.
  - destruct (body x) as [y | e] eqn:Hx; [| discriminate].
    destruct (for_each body l) as [ys' | e]; [| discriminate].
    intros [= <-]. constructor; [exact Hx | now apply IH].
Qed.

(* ================================================================== *)
(** ** The area query on concrete tables *)
(* ================================================================== *)

Lemma sort_values_sorted {A : Type} (key : A -> R) (l : list A) :
  StronglySorted (fun a b => key a <= key b) l -> sort_values key l = l.
Proof.
  induction 1 as [| x l Hs IH Hx]; [reflexivity |].
  simpl. rewrite IH. destruct l as [| y l']; [reflexivity |].
  simpl. inversion_clear Hx as [| ? ? Hxy _].
  now rewrite Rlt_bool_false.
Qed.

Lemma distance_same_point (lat lng : R) (r : Store.row) :
  Store.latitud r = lat -> Store.longitud r = lng ->
  distance_km lat lng r = 0.
Proof.
  intros Hlat Hlng. unfold distance_km. rewrite Hlat, Hlng.
  replace (radians lat - radians lat) with 0 by lra.
  replace (radians lng - radians lng) with 0 by lra.
  replace (0 / 2) with 0 by lra.
  rewrite sin_0.
  replace (0 ^ 2 + cos (radians lat) * cos (radians lat) * 0 ^ 2) with 0
    by ring.
  rewrite sqrt_0, asin_0. ring.
Qed.

(** Due north of the centre the distance is the arc of the difference in
    latitude. *)
Lemma distance_same_meridian (lat lng : R) (r : Store.row) :
  Store.longitud r = lng ->
  0 <= Store.latitud r - lat <= 180 ->
  distance_km lat lng r = 6371 * radians (Store.latitud r - lat).
Proof.
  intros Hlng Hlat. unfold distance_km. rewrite Hlng.
  replace (radians lng - radians lng) with 0 by lra.
  replace (0 / 2) with 0 by lra.
  rewrite sin_0.
  set (x := (radians (Store.latitud r) - radians lat) / 2).
  replace (sin x ^ 2 + cos (radians lat) * cos (radians (Store.latitud r))
                       * 0 ^ 2) with (sin x ^ 2) by ring.
  pose proof PI_RGT_0 as Hpi.
  assert (Hx : 0 <= x <= PI / 2).
  { unfold x, radians. split; nra. }
  rewrite sqrt_pow2 by (apply sin_ge_0; lra).
  rewrite asin_sin by lra.
  unfold x, radians. lra.
Qed.

Lemma area_query_colocated (ds : DataService.t) (lat lng radius : R)
  (g : Store.row -> StoreLocation.t) :
  0 <= radius ->
  (forall r, In r (_stores_df ds ++ _test_stores_df ds) ->
             Store.latitud r = lat /\ Store.longitud r = lng) ->
  (forall r, In r (_stores_df ds ++ _test_stores_df ds) ->
             to_location r = Ok (g r)) ->
  get_stores_in_area ds lat lng radius =
  map g (_stores_df ds ++ _test_stores_df ds).
Proof.
  intros Hr Hat Hloc. unfold get_stores_in_area.
  set (rows := _stores_df ds ++ _test_stores_df ds) in *.
  assert (Hd : forall r, In r rows -> distance_km lat lng r = 0).
  { intros r Hin. destruct (Hat r Hin). now apply distance_same_point. }
  assert (Hf : filter (fun r => Rle_bool (distance_km lat lng r) radius) rows
               = rows).
  { apply forallb_filter_id. apply forallb_forall. intros r Hin.
    rewrite (Hd r Hin). now apply Rle_bool_true. }
  rewrite Hf, sort_values_sorted.
  - now rewrite (for_each_ok to_location g rows Hloc).
  - clear Hf Hat Hloc. induction rows as [| r rows IH]; constructor.
    + apply IH. intros r' Hin. apply Hd. now right.
    + apply Forall_forall. intros r' Hin.
      rewrite (Hd r) by now left. rewrite (Hd r') by now right. lra.
Qed.

Lemma area_query_single (ds : DataService.t) (lat lng radius : R)
  (r : Store.row) (location : StoreLocation.t) :
  _stores_df ds ++ _test_stores_df ds = [r] ->
  distance_km lat lng r <= radius ->
  to_location r = Ok location ->
  get_stores_in_area ds lat lng radius = [location].
Proof.
  intros Hrows Hd Hloc. unfold get_stores_in_area. rewrite Hrows.
  simpl filter. rewrite (Rle_bool_true _ _ Hd).
  simpl. now rewrite Hloc.
Qed.

Lemma store_row_location (n plaza : Z) (lat lng : R) :
  (1 <= plaza)%Z -> 14 <= lat <= 33 -> -118.5 <= lng <= -86.5 ->
  to_location (store_row n plaza lat lng) = Ok (store_location n plaza lat lng).
Proof.
  intros Hp Hlat Hlng. unfold to_location. simpl.
  unfold StoreLocation.init, StoreLocation.errors. simpl.
  rewrite (proj2 (Z.leb_le 1 plaza) Hp).
  rewrite Rlt_bool_true by lra.
  rewrite !(proj2 (within_iff _ _ _)) by lra. reflexivity.
Qed.

(* ================================================================== *)
(** ** C5: the ranking of an area *)
(* ================================================================== *)

Section Ranking.

Variable ds : DataService.t.
Variable model : Row -> result R.

Lemma scored_stores (stores : list StoreLocation.t)
  (pairs : list (StoreLocation.t * R)) :
  for_each (fun store =>
              bind (predict_location ds model store) (fun prediction =>
              Ok (store, PredictionResponse.score prediction)))
           stores = Ok pairs ->
  pairs = map (fun s => (s, score_at ds model s)) stores.
Proof.
  intros H. apply for_each_inv in H.
  induction H as [| s y stores pairs Hs _ IH]; [reflexivity |].
  simpl. rewrite <- IH. f_equal.
  unfold score_at.
  destruct (predict_location ds model s); simpl in Hs; [| discriminate].
  now injection Hs as <-.
Qed.

Lemma ranking_of_pairs (stores : list StoreLocation.t) :
  map fst (firstn 5 (sort_reverse snd
                       (map (fun s => (s, score_at ds model s)) stores))) =
  ranking ds model stores.
Proof.
  rewrite sort_reverse_tagged, firstn_map, map_map. simpl. apply map_id.
Qed.

Lemma get_optimal_locations_inv (area : AreaRequest.t)
  (out : list StoreLocation.t) :
  get_optimal_locations ds model area = Ok out ->
  out = ranking ds model (stores_of ds area).
Proof.
  unfold get_optimal_locations. fold (stores_of ds area).
  destruct (stores_of ds area) as [| s0 rest] eqn:Hst.
  - simpl. now intros [= <-].
  - destruct (for_each _ (s0 :: rest)) as [pairs | e] eqn:Hfe;
      cbv beta iota zeta delta [bind reraise]; [| discriminate].
    apply scored_stores in Hfe. subst pairs.
    rewrite ranking_of_pairs. now intros [= <-].
Qed.

Lemma get_optimal_locations_ok (area : AreaRequest.t) :
  (forall s, In s (stores_of ds area) ->
             exists p, predict_location ds model s = Ok p) ->
  get_optimal_locations ds model area =
  Ok (ranking ds model (stores_of ds area)).
Proof.
  intros H. unfold get_optimal_locations. fold (stores_of ds area).
  destruct (stores_of ds area) as [| s0 rest] eqn:Hst; [reflexivity |].
  rewrite for_each_ok with (g := fun s => (s, score_at ds model s)).
  - cbv beta iota zeta delta [bind reraise].
    rewrite ranking_of_pairs. reflexivity.
  - intros s Hs. destruct (H s Hs) as [p Hp].
    unfold score_at. rewrite Hp. reflexivity.
Qed.

Lemma get_optimal_locations_predicted (area : AreaRequest.t)
  (out : list StoreLocation.t) :
  get_optimal_locations ds model area = Ok out ->
  forall s, In s (stores_of ds area) ->
            exists p, predict_location ds model s = Ok p /\
                      PredictionResponse.score p = score_at ds model s.
Proof.
  unfold get_optimal_locations. fold (stores_of ds area).
  destruct (stores_of ds area) as [| s0 rest] eqn:Hst.
  - intros _ s [].
  - destruct (for_each _ (s0 :: rest)) as [pairs | e] eqn:Hfe;
      cbv beta iota zeta delta [bind reraise]; [| discriminate].
    intros _ s Hs. apply for_each_inv in Hfe.
    revert Hs. generalize (s0 :: rest) as stores, pairs as ys, Hfe.
    induction 1 as [| x y stores ys Hx _ IH]; intros Hin; [destruct Hin |].
    destruct Hin as [-> | Hin]; [| now apply IH].
    destruct (predict_location ds model s) as [p |] eqn:Hp; [| discriminate].
    exists p. split; [reflexivity |]. unfold score_at. now rewrite Hp.
Qed.

Lemma ranking_incl (stores : list StoreLocation.t) :
  incl (ranking ds model stores) stores.
Proof.
  intros s Hs. unfold ranking in Hs.
  apply Permutation_in with (sort_reverse (score_at ds model) stores).
  - apply sort_reverse_perm.
  - rewrite <- (firstn_skipn 5). apply in_or_app. now left.
Qed.

Lemma ranking_length (stores : list StoreLocation.t) :
  List.length (ranking ds model stores) = Nat.min 5 (List.length stores).
Proof.
  unfold ranking. rewrite length_firstn.
  now rewrite (Permutation_length (sort_reverse_perm _ stores)).
Qed.

End Ranking.

(** C5. [get_optimal_locations] returns whenever every store of the area is
    predicted. When it returns, every store of the input list was predicted
    (its prediction score is [score_at]), and the result has at most 5 stores
    (5, or all of them when the area has fewer), all taken from the input
    list, in non-increasing order of their prediction score; and for every
    score the returned stores of that score are, in their order, the first of
    the input's stores of that score. *)
Theorem ranking_is_stable_top_five :
  forall ds model area,
    ((forall s, In s (stores_of ds area) ->
                exists p, predict_location ds model s = Ok p) ->
     exists out,
       get_optimal_locations ds model area = Ok out) /\
    (forall out,
        get_optimal_locations ds model area = Ok out ->
        (forall s, In s (stores_of ds area) ->
                   exists p, predict_location ds model s = Ok p /\
                             PredictionResponse.score p = score_at ds model s) /\
        (List.length out <= 5)%nat /\
        List.length out =
          Nat.min 5 (List.length (stores_of ds area)) /\
        incl out (stores_of ds area) /\
        descending (score_at ds model) out /\
        forall v, exists rest,
            with_key (score_at ds model) v (stores_of ds area)
            = with_key (score_at ds model) v out ++ rest).
Proof.
  intros ds model area. split.
  - intros H. eexists. now apply get_optimal_locations_ok.
  - intros out H.
    split; [now apply get_optimal_locations_predicted with out |].
    apply get_optimal_locations_inv in H. subst out.
    split; [rewrite ranking_length; apply Nat.le_min_l |].
    split; [apply ranking_length |].
    split; [apply ranking_incl |].
    split; [apply firstn_descending, sort_reverse_descending |].
    intros v.
    exists (with_key (score_at ds model) v
              (skipn 5 (sort_reverse (score_at ds model)
                          (stores_of ds area)))).
    rewrite <- (sort_reverse_with_key (score_at ds model) v (stores_of ds area)).
    apply firstn_with_key.
Qed.

Lemma stores_of_ds_six :
  stores_of ds_six area_mty =
  map (fun n => store_location n 1 25.67 (-100.22)) [1; 2; 3; 4; 5; 6]%Z.
Proof.
  unfold stores_of.
  rewrite area_query_colocated
    with (g := fun r => store_location (Store.tiendaId r) 1 25.67 (-100.22)).
  - reflexivity.
  - simpl. lra.
  - intros r Hr. simpl in Hr.
    repeat (destruct Hr as [<- | Hr]; [split; reflexivity |]). contradiction.
  - intros r Hr. simpl in Hr.
    repeat (destruct Hr as [<- | Hr];
            [apply store_row_location; [lia | lra | lra] |]).
    contradiction.
Qed.

Lemma ranking_witness :
  exists out,
    get_optimal_locations ds_six (model_const 0.75) area_mty = Ok out.
Proof.
  apply (proj1 (ranking_is_stable_top_five
                  ds_six (model_const 0.75) area_mty)).
  rewrite stores_of_ds_six.
  intros s Hs. exists (response_of ds_six s 0.75).
  simpl in Hs.
  repeat (destruct Hs as [<- | Hs];
          [apply predict_location_ok; [reflexivity | simpl; lra] |]).
  contradiction.
Defined.

Lemma stores_of_ds_four :
  stores_of ds_four area_mty =
  [store_location 1 3 25.67 (-100.22); store_location 2 9 25.67 (-100.22);
   store_location 3 3 25.67 (-100.22); store_location 4 6 25.67 (-100.22)].
Proof.
  unfold stores_of.
  rewrite area_query_colocated
    with (g := fun r => store_location (Store.tiendaId r) (Store.plazaCve r)
                                       25.67 (-100.22)).
  - reflexivity.
  - simpl. lra.
  - intros r Hr. simpl in Hr.
    repeat (destruct Hr as [<- | Hr]; [split; reflexivity |]). contradiction.
  - intros r Hr. simpl in Hr.
    repeat (destruct Hr as [<- | Hr];
            [cbn [store_row Store.tiendaId Store.plazaCve];
             apply store_row_location; [lia | lra | lra] |]).
    contradiction.
Qed.

Lemma score_at_plaza (n plaza : Z) (lat lng : R) :
  score_at ds_four model_by_plaza (store_location n plaza lat lng) =
  score_of (IZR plaza / 10).
Proof.
  unfold score_at.
  rewrite predict_location_ok with (ratio := IZR plaza / 10);
    [reflexivity | reflexivity | simpl; lra].
Qed.

Example ranking_of_four_stores :
  get_optimal_locations ds_four model_by_plaza area_mty =
  Ok [store_location 2 9 25.67 (-100.22); store_location 4 6 25.67 (-100.22);
      store_location 1 3 25.67 (-100.22); store_location 3 3 25.67 (-100.22)].
Proof.
  rewrite get_optimal_locations_ok.
  - unfold ranking. rewrite stores_of_ds_four. simpl sort_reverse.
    repeat (rewrite ?score_at_plaza;
            first [ rewrite Rlt_bool_true by (unfold score_of; case_cmp)
                  | rewrite Rlt_bool_false by (unfold score_of; case_cmp) ];
            simpl insert_reverse).
    reflexivity.
  - rewrite stores_of_ds_four. intros s Hs.
    exists (response_of ds_four s (IZR (StoreLocation.plazaCve s) / 10)).
    simpl in Hs.
    repeat (destruct Hs as [<- | Hs];
            [apply predict_location_ok; [reflexivity | simpl; lra] |]).
    contradiction.
Qed.

(* ================================================================== *)
(** ** Map bounds and the fallback grid *)
(* ================================================================== *)

Lemma app_nil_iff {A : Type} (l l' : list A) :
  l ++ l' = [] <-> l = [] /\ l' = [].
Proof.
  split; [apply app_eq_nil | intros [-> ->]; reflexivity].
Qed.

Lemma bounds_errors_nil (b : MapBounds.t) :
  MapBounds.errors b = [] <->
  (0 <= MapBounds.north b <= 90 /\ 0 <= MapBounds.south b <= 90 /\
   -180 <= MapBounds.east b <= 180 /\ -180 <= MapBounds.west b <= 180).
Proof.
  unfold MapBounds.errors.
  rewrite !app_nil_iff, !field_error_nil, !within_iff. tauto.
Qed.

Lemma bounds_init_iff (body b : MapBounds.t) :
  MapBounds.init body = Ok b <-> b = body /\ valid_bounds body.
Proof.
  unfold MapBounds.init, valid_bounds.
  destruct (MapBounds.errors body) as [| e es] eqn:E.
  - apply bounds_errors_nil in E. unfold MapBounds.validate_bounds.
    destruct (Rle_bool (MapBounds.north body) (MapBounds.south body)) eqn:E1.
    { apply Rle_bool_iff in E1. split; [discriminate | intros [_ H]; lra]. }
    destruct (Rle_bool (MapBounds.east body) (MapBounds.west body)) eqn:E2.
    { apply Rle_bool_iff in E2. split; [discriminate | intros [_ H]; lra]. }
    assert (H1 : MapBounds.south body < MapBounds.north body).
    { unfold Rle_bool in E1. destruct (Rle_dec _ _); [discriminate | lra]. }
    assert (H2 : MapBounds.west body < MapBounds.east body).
    { unfold Rle_bool in E2. destruct (Rle_dec _ _); [discriminate | lra]. }
    split; [intros [= <-]; split; [reflexivity | lra] | intros [-> _]; reflexivity].
  - split; [discriminate |].
    intros [_ H].
    assert (En : MapBounds.errors body = []) by (apply bounds_errors_nil; lra).
    congruence.
Qed.

Lemma bounds_init_raises (body : MapBounds.t) :
  ~ valid_bounds body ->
  exists errs, MapBounds.init body = Raise (ValidationError "MapBounds" errs).
Proof.
  intros H. destruct (MapBounds.init body) as [b | e] eqn:E.
  - apply bounds_init_iff in E. tauto.
  - unfold MapBounds.init, MapBounds.validate_bounds in E.
    destruct (MapBounds.errors body) as [| x xs].
    + destruct (Rle_bool _ _); [injection E as <-; eauto |].
      destruct (Rle_bool _ _); [injection E as <-; eauto | discriminate].
    + injection E as <-. eauto.
Qed.

Lemma point_init_inv (fields p : MapPoint.t) :
  MapPoint.init fields = Ok p -> p = fields.
Proof.
  unfold MapPoint.init. destruct (MapPoint.errors fields); [| discriminate].
  now intros [= <-].
Qed.

Lemma point_init_ok (fields : MapPoint.t) :
  0 <= MapPoint.lat fields <= 90 ->
  -180 <= MapPoint.lng fields <= 180 ->
  0 <= MapPoint.score fields <= 1 ->
  hex_color (MapPoint.color fields) = true ->
  MapPoint.init fields = Ok fields.
Proof.
  intros H1 H2 H3 H4. unfold MapPoint.init, MapPoint.errors.
  rewrite (proj2 (within_iff _ _ _) H1), (proj2 (within_iff _ _ _) H2),
    (proj2 (within_iff _ _ _) H3), H4.
  reflexivity.
Qed.

Lemma color_is_hex (score : R) : hex_color (_get_color_for_score score) = true.
Proof.
  unfold _get_color_for_score.
  repeat (destruct (Rle_bool _ _); [reflexivity |]). reflexivity.
Qed.

Lemma uniform_range (u : R) :
  0 <= u < 1 -> 0.3 <= uniform 0.3 0.9 u < 0.9.
Proof. unfold uniform. intros H. lra. Qed.

Lemma INR_index (i : nat) : (i < 10)%nat -> 0 <= INR i <= 9.
Proof.
  intros H. split; [apply pos_INR |].
  replace 9 with (INR 9) by (simpl; lra).
  apply le_INR. lia.
Qed.

Lemma midpoint_between (a b : R) (i : nat) :
  a < b -> (i < 10)%nat ->
  a < a + (INR i + 0.5) * ((b - a) / 10) < b.
Proof.
  intros Hab Hi. pose proof (INR_index i Hi) as [H0 H9].
  split; nra.
Qed.

Section Grid.

Variable random_sample : nat -> R.
Hypothesis random_sample_range : forall k, 0 <= random_sample k < 1.

Lemma grid_point_unfold (b : MapBounds.t) (rng : nat) (ij : nat * nat) :
  grid_point random_sample b rng ij = MapPoint.init (grid_fields random_sample b rng ij).
Proof. destruct ij. reflexivity. Qed.

Lemma INR_n : INR n_lat = 10 /\ INR n_lng = 10.
Proof. unfold n_lat, n_lng. simpl. lra. Qed.

Lemma grid_fields_inside (b : MapBounds.t) (rng : nat) (ij : nat * nat) :
  valid_bounds b -> In ij (list_prod (seq 0 10) (seq 0 10)) ->
  strictly_inside b (grid_fields random_sample b rng ij).
Proof.
  intros Hb Hin. destruct ij as [i j].
  apply in_prod_iff in Hin. rewrite !in_seq in Hin.
  unfold valid_bounds in Hb. unfold strictly_inside, grid_fields.
  cbn [MapPoint.lat MapPoint.lng fst snd].
  destruct INR_n as [-> ->].
  split; apply midpoint_between; lra || lia.
Qed.

Lemma grid_point_ok (b : MapBounds.t) (rng : nat) (ij : nat * nat) :
  valid_bounds b -> In ij (list_prod (seq 0 10) (seq 0 10)) ->
  grid_point random_sample b rng ij = Ok (grid_fields random_sample b rng ij).
Proof.
  intros Hb Hin. rewrite grid_point_unfold.
  pose proof (grid_fields_inside b rng ij Hb Hin) as [Hlat Hlng].
  unfold valid_bounds in Hb.
  apply point_init_ok; try lra.
  - simpl. pose proof (uniform_range _ (random_sample_range
                                          (rng + fst ij * n_lng + snd ij))).
    lra.
  - apply color_is_hex.
Qed.

Lemma generate_grid_points_ok (b : MapBounds.t) (rng : nat) :
  valid_bounds b ->
  _generate_grid_points random_sample b rng =
  Ok (map (grid_fields random_sample b rng) (list_prod (seq 0 10) (seq 0 10)),
      (rng + 100)%nat).
Proof.
  intros Hb. unfold _generate_grid_points.
  change (list_prod (seq 0 n_lat) (seq 0 n_lng))
    with (list_prod (seq 0 10) (seq 0 10)).
  rewrite for_each_ok with (g := grid_fields random_sample b rng).
  - reflexivity.
  - intros ij Hin. now apply grid_point_ok.
Qed.

Lemma grid_coordinates_eq (b : MapBounds.t) (rng : nat) :
  map (fun p => (MapPoint.lat p, MapPoint.lng p))
      (map (grid_fields random_sample b rng) (list_prod (seq 0 10) (seq 0 10))) =
  grid_coordinates b.
Proof.
  unfold grid_coordinates. rewrite map_map. apply map_ext.
  intros ij. unfold grid_fields. cbn [MapPoint.lat MapPoint.lng].
  destruct INR_n as [-> ->]. reflexivity.
Qed.

End Grid.

Lemma for_each_Forall {A B : Type} (body : A -> result B) (P : B -> Prop)
  (l : list A) (ys : list B) :
  (forall x y, body x = Ok y -> P y) ->
  for_each body l = Ok ys -> Forall P ys.
Proof.
  intros HP H. apply for_each_inv in H.
  induction H as [| x y l ys Hxy _ IH]; constructor; eauto.
Qed.

Lemma heatmap_init_inv (fields h : HeatmapData.t) :
  HeatmapData.init fields = Ok h -> h = fields.
Proof.
  unfold HeatmapData.init. destruct (HeatmapData.errors fields); [| discriminate].
  now intros [= <-].
Qed.

Lemma heatmap_init_ok (b : MapBounds.t) (points : list MapPoint.t) :
  valid_bounds b ->
  let fields :=
    {| HeatmapData.points := points;
       HeatmapData.centerLat := (MapBounds.north b + MapBounds.south b) / 2;
       HeatmapData.centerLng := (MapBounds.east b + MapBounds.west b) / 2 |} in
  HeatmapData.init fields = Ok fields.
Proof.
  intros Hb fields. unfold valid_bounds in Hb.
  unfold HeatmapData.init, HeatmapData.errors. subst fields. simpl.
  rewrite !(proj2 (within_iff _ _ _)) by lra. reflexivity.
Qed.

Lemma grid_point_colored (random_sample : nat -> R) (b : MapBounds.t)
  (rng : nat) (ij : nat * nat) (p : MapPoint.t) :
  grid_point random_sample b rng ij = Ok p -> colored_by_score p.
Proof.
  rewrite grid_point_unfold. intros H. apply point_init_inv in H.
  subst p. reflexivity.
Qed.

Lemma store_point_colored (ds : DataService.t) (model : Row -> result R)
  (entry : nat * StoreLocation.t) (p : MapPoint.t) :
  store_point ds model entry = Ok p -> colored_by_score p.
Proof.
  destruct entry as [i store]. unfold store_point.
  destruct (predict_location ds model store) as [prediction | e]; simpl;
    [| discriminate].
  intros H. apply point_init_inv in H. subst p. reflexivity.
Qed.

Section Heatmap.

Variable ds : DataService.t.
Variable model : Row -> result R.
Variable random_sample : nat -> R.

Lemma generate_heatmap_unfold (b : MapBounds.t) (rng : nat) :
  generate_heatmap ds model random_sample b rng =
  reraise "Failed to generate heatmap"
    (bind (match stores_near ds b with
           | [] => _generate_grid_points random_sample b rng
           | _ =>
               bind (for_each (store_point ds model)
                              (enumerate (stores_near ds b)))
                    (fun points => Ok (points, rng))
           end) (fun '(points, rng') =>
     bind (HeatmapData.init
             {| HeatmapData.points := points;
                HeatmapData.centerLat :=
                  (MapBounds.north b + MapBounds.south b) / 2;
                HeatmapData.centerLng :=
                  (MapBounds.east b + MapBounds.west b) / 2 |})
          (fun heatmap_data => Ok (heatmap_data, rng')))).
Proof. reflexivity. Qed.

Lemma generate_heatmap_colored (b : MapBounds.t) (rng rng' : nat)
  (h : HeatmapData.t) :
  generate_heatmap ds model random_sample b rng
  = Ok (h, rng') ->
  Forall colored_by_score (HeatmapData.points h).
Proof.
  rewrite generate_heatmap_unfold.
  assert (Hpts : forall pts r,
             match stores_near ds b with
             | [] => _generate_grid_points random_sample b rng
             | _ =>
                 bind (for_each (store_point ds model)
                                (enumerate (stores_near ds b)))
                      (fun points => Ok (points, rng))
             end = Ok (pts, r) ->
             Forall colored_by_score pts).
  { intros pts r. destruct (stores_near ds b) as [| s0 rest].
    - unfold _generate_grid_points.
      destruct (for_each _ _) as [ys | e] eqn:E; simpl; [| discriminate].
      intros [= <- _].
      eapply for_each_Forall; [| exact E].
      intros ij p. apply grid_point_colored.
    - destruct (for_each _ _) as [ys | e] eqn:E; simpl; [| discriminate].
      intros [= <- _].
      eapply for_each_Forall; [| exact E].
      intros entry p. apply store_point_colored. }
  destruct (match stores_near ds b with
            | [] => _ | _ => _ end) as [[pts r] | e]; simpl; [| discriminate].
  specialize (Hpts pts r eq_refl).
  destruct (HeatmapData.init _) as [h0 | e] eqn:Eh; simpl; [| discriminate].
  intros [= <- _]. apply heatmap_init_inv in Eh. subst h0. exact Hpts.
Qed.

Hypothesis random_sample_range : forall k, 0 <= random_sample k < 1.

Lemma generate_heatmap_grid (b : MapBounds.t) (rng : nat) :
  valid_bounds b ->
  stores_near ds b = [] ->
  generate_heatmap ds model random_sample b rng =
  Ok ({| HeatmapData.points :=
           map (grid_fields random_sample b rng)
               (list_prod (seq 0 10) (seq 0 10));
         HeatmapData.centerLat := (MapBounds.north b + MapBounds.south b) / 2;
         HeatmapData.centerLng := (MapBounds.east b + MapBounds.west b) / 2 |},
      (rng + 100)%nat).
Proof.
  intros Hb Hnone. rewrite generate_heatmap_unfold, Hnone.
  rewrite generate_grid_points_ok by assumption.
  cbv beta iota zeta delta [bind].
  rewrite heatmap_init_ok by assumption. reflexivity.
Qed.

End Heatmap.

Lemma color_thresholds (score : R) :
  (0.8 <= score -> _get_color_for_score score = "#10b981") /\
  (0.6 <= score < 0.8 -> _get_color_for_score score = "#3b82f6") /\
  (0.4 <= score < 0.6 -> _get_color_for_score score = "#f59e0b") /\
  (score < 0.4 -> _get_color_for_score score = "#ef4444").
Proof.
  unfold _get_color_for_score.
  repeat split; intros H; case_cmp.
Qed.

(* ================================================================== *)
(** ** C8: the heatmap *)
(* ================================================================== *)

(** C8, as the code has it. With draws in [0, 1): for every bounds rectangle
    that passes construction and for which the area query around its centre
    (radius: one and a half times its larger half-extent, at 111 km per
    degree) finds no store, [generate_heatmap] returns exactly 100 points, at
    the coordinates of the uniform 10 x 10 grid, strictly inside the bounds,
    each with a score in [0.3, 0.9]; every point of every heatmap it returns,
    from the grid or from a store, has the colour of its score; and that
    colour is green from 0.8, blue from 0.6, amber from 0.4 and red below. *)
Theorem heatmap_grid_and_colours :
  forall ds model random_sample,
    (forall k, 0 <= random_sample k < 1) ->
    (forall body bounds rng,
        MapBounds.init body = Ok bounds ->
        stores_near ds bounds = [] ->
        exists h,
          generate_heatmap ds model random_sample bounds rng
          = Ok (h, (rng + 100)%nat) /\
          List.length (HeatmapData.points h) = 100%nat /\
          map (fun p => (MapPoint.lat p, MapPoint.lng p)) (HeatmapData.points h)
          = grid_coordinates bounds /\
          Forall (strictly_inside bounds) (HeatmapData.points h) /\
          Forall (fun p => 0.3 <= MapPoint.score p <= 0.9)
                 (HeatmapData.points h)) /\
    (forall bounds rng h rng',
        generate_heatmap ds model random_sample bounds rng
        = Ok (h, rng') ->
        Forall colored_by_score (HeatmapData.points h)) /\
    (forall score,
        (0.8 <= score -> _get_color_for_score score = "#10b981") /\
        (0.6 <= score < 0.8 -> _get_color_for_score score = "#3b82f6") /\
        (0.4 <= score < 0.6 -> _get_color_for_score score = "#f59e0b") /\
        (score < 0.4 -> _get_color_for_score score = "#ef4444")).
Proof.
  intros ds model rs Hrs.
  split; [| split; [| exact color_thresholds]].
  - intros body bounds rng Hinit Hnone.
    apply bounds_init_iff in Hinit. destruct Hinit as [-> Hb].
    eexists. split; [now apply generate_heatmap_grid |].
    cbn [HeatmapData.points].
    split; [now rewrite length_map |].
    split; [apply grid_coordinates_eq |].
    split.
    + apply Forall_forall. intros p Hp.
      apply in_map_iff in Hp. destruct Hp as [ij [<- Hij]].
      now apply grid_fields_inside.
    + apply Forall_forall. intros p Hp.
      apply in_map_iff in Hp. destruct Hp as [ij [<- Hij]].
      cbn [grid_fields MapPoint.score].
      pose proof (uniform_range _ (Hrs (rng + fst ij * n_lng + snd ij)%nat)).
      lra.
  - intros bounds rng h rng'. apply generate_heatmap_colored.
Qed.

Lemma bounds_mty_valid : MapBounds.init bounds_mty = Ok bounds_mty.
Proof.
  apply bounds_init_iff. split; [reflexivity |].
  unfold valid_bounds. simpl. lra.
Qed.

Lemma heatmap_witness :
  exists h,
    generate_heatmap ds_two (model_const 1) draw_half bounds_mty 0
    = Ok (h, 100%nat) /\
    List.length (HeatmapData.points h) = 100%nat.
Proof.
  assert (Hrs : forall k, 0 <= draw_half k < 1)
    by (intros k; unfold draw_half; lra).
  destruct (proj1 (heatmap_grid_and_colours
                     ds_two (model_const 1) draw_half Hrs)
              bounds_mty bounds_mty 0%nat bounds_mty_valid eq_refl)
    as [h [Hh [Hlen _]]].
  exists h. split; [exact Hh | exact Hlen].
Defined.

Lemma stores_near_bounds_wide :
  stores_near ds_north bounds_wide = [store_location 1 1 26.2 (-100)].
Proof.
  unfold stores_near.
  apply area_query_single with (r := store_row 1 1 26.2 (-100)).
  - reflexivity.
  - rewrite distance_same_meridian by (simpl; lra).
    unfold radians. simpl.
    pose proof PI_4. pose proof PI_RGT_0.
    case_cmp.
  - apply store_row_location; [lia | lra | lra].
Qed.

(** C8 as stated fails: the rectangle [bounds_wide] passes construction and
    contains no store of [ds_north], yet the heatmap is not the grid of 100
    points: it is the single point of the store that lies north of the
    rectangle and within the radius searched around its centre. *)
Lemma heatmap_of_store_outside_bounds :
  MapBounds.init bounds_wide = Ok bounds_wide /\
  (forall r, In r (_stores_df ds_north ++ _test_stores_df ds_north) ->
             ~ inside_bounds bounds_wide r) /\
  exists h rng',
    generate_heatmap ds_north (model_const 0.75) draw_half bounds_wide 0
    = Ok (h, rng') /\
    List.length (HeatmapData.points h) = 1%nat /\
    map (fun p => (MapPoint.lat p, MapPoint.lng p)) (HeatmapData.points h)
    = [(26.2, -100)].
Proof.
  assert (Hb : valid_bounds bounds_wide) by (unfold valid_bounds; simpl; lra).
  split; [apply bounds_init_iff; split; [reflexivity | exact Hb] |].
  split.
  - intros r [<- | []]. unfold inside_bounds. simpl. lra.
  - set (location := store_location 1 1 26.2 (-100)).
    set (score := score_of 0.75).
    set (p := {| MapPoint.id := "store_1";
                 MapPoint.lat := 26.2;
                 MapPoint.lng := -100;
                 MapPoint.score := score;
                 MapPoint.color := _get_color_for_score score |}).
    assert (Hp : store_point ds_north (model_const 0.75) (0%nat, location)
                 = Ok p).
    { unfold store_point.
      rewrite predict_location_ok with (ratio := 0.75);
        [| reflexivity | simpl; lra].
      cbv beta iota zeta delta [bind].
      apply point_init_ok; simpl; try lra.
      - apply score_of_range.
      - apply color_is_hex. }
    eexists. exists 0%nat.
    rewrite generate_heatmap_unfold, stores_near_bounds_wide.
    change (enumerate [store_location 1 1 26.2 (-100)])
      with [(0%nat, location)].
    cbn [for_each]. rewrite Hp.
    cbv beta iota zeta delta [bind].
    rewrite (heatmap_init_ok bounds_wide [p] Hb).
    split; [reflexivity |]. split; reflexivity.
Qed.

(* ================================================================== *)
(** ** C10: construction of map bounds *)
(* ================================================================== *)

(** C10, as the code has it. [MapBounds] construction succeeds exactly when
    the four fields are in range and north > south and east > west, that is
    when 0 <= south < north <= 90 and -180 <= west < east <= 180; every other
    body is refused with a validation error before [generate_heatmap] is
    called; and on constructed bounds, with draws in [0, 1), the fallback
    grid is produced and each of its points lies strictly between south and
    north and strictly between west and east. *)
Theorem map_bounds_construction :
  (forall body,
      (exists bounds, MapBounds.init body = Ok bounds) <->
      (0 <= MapBounds.south body /\ MapBounds.south body < MapBounds.north body /\
       MapBounds.north body <= 90 /\
       -180 <= MapBounds.west body /\ MapBounds.west body < MapBounds.east body /\
       MapBounds.east body <= 180)) /\
  (forall ds model random_sample body rng,
      ~ (MapBounds.north body > MapBounds.south body /\
         MapBounds.east body > MapBounds.west body) ->
      exists errs,
        route_generate_heatmap ds model random_sample body rng
        = Raise (ValidationError "MapBounds" errs)) /\
  (forall random_sample,
      (forall k, 0 <= random_sample k < 1) ->
      forall body bounds rng,
        MapBounds.init body = Ok bounds ->
        exists points,
          _generate_grid_points random_sample bounds rng
          = Ok (points, (rng + 100)%nat) /\
          Forall (strictly_inside bounds) points).
Proof.
  split; [| split].
  - intros body. split.
    + intros [bounds H]. apply bounds_init_iff in H. apply H.
    + intros H. exists body. apply bounds_init_iff. split; [reflexivity | exact H].
  - intros ds model rs body rng H.
    destruct (bounds_init_raises body) as [errs He].
    + unfold valid_bounds. intros Hv. apply H. lra.
    + exists errs. unfold route_generate_heatmap. now rewrite He.
  - intros rs Hrs body bounds rng H.
    apply bounds_init_iff in H. destruct H as [-> Hb].
    eexists. split; [now apply generate_grid_points_ok |].
    apply Forall_forall. intros p Hp.
    apply in_map_iff in Hp. destruct Hp as [ij [<- Hij]].
    now apply grid_fields_inside.
Qed.

Lemma map_bounds_witness :
  exists points,
    _generate_grid_points draw_half bounds_mty 0 = Ok (points, 100%nat) /\
    Forall (strictly_inside bounds_mty) points.
Proof.
  assert (Hrs : forall k, 0 <= draw_half k < 1)
    by (intros k; unfold draw_half; lra).
  exact (proj2 (proj2 map_bounds_construction) draw_half Hrs
           bounds_mty bounds_mty 0%nat bounds_mty_valid).
Defined.

(** C10 as stated fails: north 95 is greater than south 10 and east 10 is
    greater than west 0, yet construction is refused, because north is above
    90. *)
Lemma map_bounds_out_of_range_refused :
  MapBounds.north bounds_north_95 > MapBounds.south bounds_north_95 /\
  MapBounds.east bounds_north_95 > MapBounds.west bounds_north_95 /\
  MapBounds.init bounds_north_95 =
    Raise (ValidationError "MapBounds" ["north"]) /\
  ~ ((exists bounds, MapBounds.init bounds_north_95 = Ok bounds) <->
     (MapBounds.north bounds_north_95 > MapBounds.south bounds_north_95 /\
      MapBounds.east bounds_north_95 > MapBounds.west bounds_north_95)).
Proof.
  assert (H : MapBounds.init bounds_north_95 =
              Raise (ValidationError "MapBounds" ["north"])).
  { unfold MapBounds.init, MapBounds.errors, bounds_north_95. simpl.
    unfold within.
    rewrite (Rle_bool_false 95 90) by lra.
    rewrite !Rle_bool_true by lra. reflexivity. }
  unfold bounds_north_95 in *. simpl.
  split; [lra |]. split; [lra |]. split; [exact H |].
  intros [_ Hiff]. destruct Hiff as [b Hb]; [lra |].
  rewrite H in Hb. discriminate.
Qed.

(* ================================================================== *)
(** ** Further properties: models and scorer *)
(* ================================================================== *)

Lemma allowed_nonempty (allowed : list string) (v : string) :
  Forall (fun a => (1 <= String.length a)%nat) allowed ->
  one_of allowed v = true ->
  ((1 <=? String.length v)%nat && one_of allowed v) = true.
Proof.
  intros Hall H. rewrite H, andb_true_r. apply Nat.leb_le.
  apply one_of_In in H. rewrite Forall_forall in Hall. now apply Hall.
Qed.

Lemma location_errors_nil (l : StoreLocation.t) :
  StoreLocation.errors l = [] <-> valid_location l.
Proof.
  unfold StoreLocation.errors, valid_location.
  rewrite !app_nil_iff, !field_error_nil, !andb_true_iff, !within_iff,
    !Z.leb_le, !one_of_In, Rlt_bool_iff, !Nat.leb_le.
  split.
  - intros H. repeat split; try tauto; lra.
  - intros (Hp & Hn & He & Hm & Hr & Hc & Hlat & Hlng & Hs).
    assert (Ln : (1 <= String.length (StoreLocation.nivelSocioeconomico l))%nat).
    { simpl in Hn.
      repeat (destruct Hn as [<- | Hn]; [simpl; lia |]). contradiction. }
    assert (Le : (1 <= String.length (StoreLocation.entorno l))%nat).
    { simpl in He.
      repeat (destruct He as [<- | He]; [simpl; lia |]). contradiction. }
    assert (Ls : (1 <= String.length (StoreLocation.segmentoMaestro l))%nat).
    { simpl in Hs.
      repeat (destruct Hs as [<- | Hs]; [simpl; lia |]). contradiction. }
    repeat split; try assumption; lra.
Qed.

(** X1. Construction of a [StoreLocation] succeeds exactly on the records
    that meet its constraints, and returns the record unchanged: plaza code
    at least 1, the three categories in their enumerations, a positive sales
    area, non-negative door and parking counts, latitude in [14, 33] and
    longitude in [-118.5, -86.5]. The generic ranges of the coordinate
    fields and the minimal lengths add nothing to these. *)
Theorem store_location_construction :
  forall body loc,
    StoreLocation.init body = Ok loc <-> loc = body /\ valid_location body.
Proof.
  intros body loc. unfold StoreLocation.init.
  destruct (StoreLocation.errors body) as [| e es] eqn:E.
  - apply location_errors_nil in E. split.
    + intros [= <-]. auto.
    + intros [-> _]. reflexivity.
  - split; [discriminate |].
    intros [_ H]. apply location_errors_nil in H. congruence.
Qed.

(** X2. Every response [predict_location] returns is a valid
    [PredictionResponse]: score and probability in [0, 1], expected sales
    not negative; and its recommendation is the one of its own score,
    expected sales and probability, for the location's environment. *)
Theorem returned_response_is_consistent :
  forall ds model location resp,
    predict_location ds model location = Ok resp ->
    0 <= PredictionResponse.score resp <= 1 /\
    0 <= PredictionResponse.probability resp <= 1 /\
    0 <= PredictionResponse.expectedSales resp /\
    PredictionResponse.init resp = Ok resp /\
    PredictionResponse.recommendation resp =
      _generate_recommendation
        (PredictionResponse.score resp) (PredictionResponse.expectedSales resp)
        (PredictionResponse.probability resp) location.
Proof.
  intros ds model location resp H.
  destruct (predict_location_inv ds model location resp H)
    as [ratio [Hm [-> He]]].
  split; [apply score_of_range |].
  split; [apply probability_range |].
  split; [exact He |].
  split; [| reflexivity].
  unfold PredictionResponse.init.
  rewrite response_errors, Rle_bool_true by exact He. reflexivity.
Qed.

Lemma returned_response_witness :
  0 <= PredictionResponse.score (response_of ds_two loc_hogar 0.75) <= 1.
Proof.
  apply (returned_response_is_consistent
           ds_two (model_const 0.75) loc_hogar).
  apply predict_location_ok; [reflexivity | simpl; lra].
Defined.

(** X3. The band of a recommendation and the heatmap colour of the same
    score always agree: excellent is green, good is blue, moderate is amber
    and low is red. *)
Theorem band_agrees_with_colour :
  forall score expected_sales probability location,
    _get_color_for_score score =
    band_colour (band (_generate_recommendation
                         score expected_sales probability location)).
Proof.
  intros score expected_sales probability location.
  unfold _get_color_for_score, _generate_recommendation. simpl.
  repeat (destruct (Rle_bool _ score); [reflexivity |]). reflexivity.
Qed.

Lemma probability_strictly_increasing (r1 r2 : R) :
  0 < r1 -> r1 < r2 ->
  _calculate_success_probability r1 < _calculate_success_probability r2.
Proof.
  intros H0 H. rewrite !probability_positive by lra.
  assert (He : exp (-5 * (r2 - 0.8)) < exp (-5 * (r1 - 0.8)))
    by (apply exp_increasing; lra).
  pose proof (exp_pos (-5 * (r2 - 0.8))) as Hp.
  unfold Rdiv. rewrite !Rmult_1_l.
  apply Rinv_lt_contravar; [| lra].
  apply Rmult_lt_0_compat; lra.
Qed.

(** X4. The success probability never decreases when the ratio grows, grows
    strictly among positive ratios, and is at least 0.5 exactly from the
    ratio 0.8 on. *)
Theorem success_probability_monotone :
  (forall r1 r2, r1 <= r2 ->
     _calculate_success_probability r1 <= _calculate_success_probability r2) /\
  (forall r1 r2, 0 < r1 -> r1 < r2 ->
     _calculate_success_probability r1 < _calculate_success_probability r2) /\
  (forall r, 0.5 <= _calculate_success_probability r <-> 0.8 <= r).
Proof.
  assert (Hhalf : _calculate_success_probability 0.8 = 0.5).
  { rewrite probability_positive by lra.
    replace (-5 * (0.8 - 0.8)) with 0 by lra. rewrite exp_0. lra. }
  split; [| split].
  - intros r1 r2 H.
    destruct (Rle_dec r1 0) as [H1 | H1].
    + rewrite (probability_nonpositive r1 H1). apply probability_range.
    + destruct (Req_dec_T r1 r2) as [-> | Hne]; [lra |].
      apply Rlt_le, probability_strictly_increasing; lra.
  - exact probability_strictly_increasing.
  - intros r. split; intros H.
    + destruct (Rle_dec 0.8 r) as [Hr | Hr]; [exact Hr |].
      exfalso.
      destruct (Rle_dec r 0) as [H0 | H0].
      * rewrite (probability_nonpositive r H0) in H. lra.
      * pose proof (probability_strictly_increasing r 0.8) as Hs.
        rewrite Hhalf in Hs. lra.
    + destruct (Req_dec_T r 0.8) as [-> | Hne]; [lra |].
      pose proof (probability_strictly_increasing 0.8 r) as Hs.
      rewrite Hhalf in Hs. lra.
Qed.

(** X5. [predict_location] returns a response exactly when the model yields
    a ratio for the location's features and the expected sales it computes
    from that ratio are not negative; whatever else happens, the model
    raising or the response being refused, it raises the one [ValueError]
    of its [except] clause, never a validation error. *)
Theorem predict_location_outcomes :
  forall ds model location,
    ((exists resp, predict_location ds model location = Ok resp) <->
     (exists X ratio,
         store_location_to_features ds location = Ok X /\
         model X = Ok ratio /\
         0 <= expected_sales_of
                (get_sales_target_for_environment
                   ds (StoreLocation.entorno location)) ratio)) /\
    (forall e,
        predict_location ds model location = Raise e ->
        e = ValueError "Failed to make prediction").
Proof.
  intros ds model location. split.
  - split.
    + intros [resp H].
      destruct (predict_location_inv ds model location resp H)
        as [ratio [Hm [-> He]]].
      exists (encode ds location), ratio.
      split; [apply store_location_to_features_eq |]. split; assumption.
    + intros [X [ratio [HX [Hm He]]]].
      rewrite store_location_to_features_eq in HX. injection HX as <-.
      exists (response_of ds location ratio).
      now apply predict_location_ok.
  - intros e. rewrite predict_location_unfold.
    destruct (bind _ _); simpl; [discriminate | now intros [= <-]].
Qed.

(** X6. The target of an environment is the one of the first row of the
    target table that names the environment; there is none exactly when no
    row names it. *)
Theorem sales_target_is_first_match :
  forall ds environment,
    (get_sales_target_for_environment ds environment = None <->
     forall row, In row (_sales_target_df ds) ->
                 SalesTarget.ENTORNO_DES row <> environment) /\
    (forall target,
        get_sales_target_for_environment ds environment = Some target <->
        exists before row after,
          _sales_target_df ds = before ++ row :: after /\
          SalesTarget.ENTORNO_DES row = environment /\
          SalesTarget.Meta_venta row = target /\
          forall r, In r before -> SalesTarget.ENTORNO_DES r <> environment).
Proof.
  intros ds environment. unfold get_sales_target_for_environment.
  induction (_sales_target_df ds) as [| r table [IHn IHs]]; simpl.
  - split; [split; [intros _ row [] | reflexivity] |].
    intros target. split; [discriminate |].
    intros (before & row & after & H & _). now destruct before.
  - destruct (String.eqb_spec (SalesTarget.ENTORNO_DES r) environment)
      as [E | E]; simpl.
    + split.
      * split; [discriminate |]. intros H. exfalso. apply (H r); auto.
      * intros target. split.
        -- intros [= <-]. exists [], r, table. repeat split; auto.
        -- intros (before & row & after & H & He & Ht & Hb).
           destruct before as [| b before]; simpl in H; injection H as -> ->.
           ++ now rewrite Ht.
           ++ exfalso. apply (Hb b); auto. now left.
    + split.
      * rewrite IHn. split.
        -- intros H row [<- | Hin]; auto.
        -- intros H row Hin. apply H. now right.
      * intros target. rewrite IHs. split.
        -- intros (before & row & after & -> & He & Ht & Hb).
           exists (r :: before), row, after. repeat split; auto.
           intros r' [<- | Hin]; auto.
        -- intros (before & row & after & H & He & Ht & Hb).
           destruct before as [| b before]; simpl in H; injection H as -> ->.
           ++ contradiction.
           ++ exists before, row, after. repeat split; auto.
              intros r' Hin. apply Hb. now right.
Qed.

(* ================================================================== *)
(** ** Further properties: the encoder and the training frame *)
(* ================================================================== *)

Lemma app_inv_length {A : Type} (l1 l1' l2 l2' : list A) :
  List.length l1 = List.length l1' ->
  l1 ++ l2 = l1' ++ l2' -> l1 = l1' /\ l2 = l2'.
Proof.
  revert l1'. induction l1 as [| x l1 IH]; intros [| y l1'] Hlen H;
    try discriminate.
  - auto.
  - simpl in H. injection H as -> H. injection Hlen as Hlen.
    destruct (IH l1' Hlen H) as [-> ->]. auto.
Qed.

Lemma vector_encode (ds : DataService.t) (location : StoreLocation.t) :
  vector (encode ds location) =
  map snd (numeric_cells location)
  ++ map (fun _ => 0) (passed_through ds)
  ++ map (fun l => if String.eqb (value_of location Nivel) l then 1 else 0)
         (kept_levels (column_of ds Nivel))
  ++ map (fun l => if String.eqb (value_of location Entorno) l then 1 else 0)
         (kept_levels (column_of ds Entorno))
  ++ map (fun l => if String.eqb (value_of location Segmento) l then 1 else 0)
         (kept_levels (column_of ds Segmento)).
Proof.
  unfold vector, encode. rewrite map_map. cbn [snd].
  rewrite feature_order_blocks, !map_app. f_equal.
  unfold indicator_columns. rewrite !map_map.
  f_equal; [| f_equal; [| f_equal]];
    try (apply map_ext; intros l; apply cell_indicator).
  apply map_ext_in. intros col Hcol.
  apply passed_through_cases in Hcol. destruct Hcol as [a [-> _]].
  apply cell_label.
Qed.

(** X7. The six numeric attributes pass through the encoder unchanged: they
    are the first six columns of every encoded row, in the fixed order plaza
    code, sales area, doors, parking spaces, latitude, longitude. After them
    come the categorical columns that the training data has as float64
    columns, each under its own label and with the value 0, and then the
    indicator columns of the three categorical attributes. *)
Theorem numeric_attributes_pass_through :
  forall ds location X,
    store_location_to_features ds location = Ok X ->
    firstn 6 X = numeric_cells location /\
    exists indicators,
      skipn 6 X =
        map (fun col => (col, 0)) (passed_through ds) ++ indicators /\
      map fst indicators =
        indicator_columns ds Nivel ++ indicator_columns ds Entorno
        ++ indicator_columns ds Segmento.
Proof.
  intros ds location X H.
  rewrite store_location_to_features_eq in H.
  assert (HX : X = encode ds location) by congruence. subst X. clear H.
  assert (Hpassed : map (fun col => (col, cell (base_row location) col))
                        (passed_through ds) =
                    map (fun col => (col, 0)) (passed_through ds)).
  { apply map_ext_in. intros col Hcol.
    apply passed_through_cases in Hcol. destruct Hcol as [a [-> _]].
    now rewrite cell_label. }
  unfold encode. rewrite feature_order_blocks.
  change (numeric_columns ++ ?l) with
    ("plazaCve" :: "mts2Ventas" :: "puertasRefrig"
     :: "cajonesEstacionamiento" :: "latitud" :: "longitud" :: l).
  cbn [map firstn skipn]. rewrite map_app, Hpassed.
  split; [reflexivity |].
  eexists. split; [reflexivity |].
  rewrite map_map. apply map_id.
Qed.

Lemma numeric_attributes_witness :
  firstn 6 (encode ds_two loc_hogar) = numeric_cells loc_hogar.
Proof.
  exact (proj1 (numeric_attributes_pass_through
                  ds_two loc_hogar (encode ds_two loc_hogar)
                  (store_location_to_features_eq _ _))).
Defined.

Lemma indicator_eq_iff (b1 b2 : bool) :
  (if b1 then 1 else 0) = (if b2 then 1 else 0) :> R <-> b1 = b2.
Proof.
  destruct b1, b2; split; intros H; try reflexivity; try discriminate; lra.
Qed.

(** X8. Two locations get the same vector exactly when their six numeric
    attributes agree and, for each categorical attribute, they agree on
    every level that has a column. So all values of an attribute that have
    no column, the omitted level and the values the training data does not
    show, are encoded alike. *)
Theorem equal_vectors :
  forall ds l1 l2 X1 X2,
    store_location_to_features ds l1 = Ok X1 ->
    store_location_to_features ds l2 = Ok X2 ->
    (vector X1 = vector X2 <->
     (StoreLocation.plazaCve l1 = StoreLocation.plazaCve l2 /\
      StoreLocation.mts2Ventas l1 = StoreLocation.mts2Ventas l2 /\
      StoreLocation.puertasRefrig l1 = StoreLocation.puertasRefrig l2 /\
      StoreLocation.cajonesEstacionamiento l1 =
        StoreLocation.cajonesEstacionamiento l2 /\
      StoreLocation.latitud l1 = StoreLocation.latitud l2 /\
      StoreLocation.longitud l1 = StoreLocation.longitud l2) /\
     (forall a level,
         In level (kept_levels (column_of ds a)) ->
         (value_of l1 a = level <-> value_of l2 a = level))).
Proof.
  intros ds l1 l2 X1 X2 H1 H2.
  rewrite store_location_to_features_eq in H1, H2.
  injection H1 as <-. injection H2 as <-.
  rewrite !vector_encode. split.
  - intros H.
    apply app_inv_length in H; [| reflexivity]. destruct H as [Hn H].
    apply app_inv_head in H.
    apply app_inv_length in H; [| now rewrite !length_map].
    destruct H as [HN H].
    apply app_inv_length in H; [| now rewrite !length_map].
    destruct H as [HE HS].
    split.
    + simpl in Hn. injection Hn as Hp Hm Hr Hc Hlat Hlng.
      apply eq_IZR in Hp, Hr, Hc. auto 6.
    + intros a level Hin.
      assert (Hb : String.eqb (value_of l1 a) level =
                   String.eqb (value_of l2 a) level).
      { apply indicator_eq_iff.
        destruct a;
          [ exact (proj1 map_ext_in_iff HN level Hin)
          | exact (proj1 map_ext_in_iff HE level Hin)
          | exact (proj1 map_ext_in_iff HS level Hin) ]. }
      rewrite <- !String.eqb_eq, Hb. tauto.
  - intros [(Hp & Hm & Hr & Hc & Hlat & Hlng) Hlev].
    assert (Hmap : forall a,
               map (fun l => if String.eqb (value_of l1 a) l then 1 else 0)
                   (kept_levels (column_of ds a)) =
               map (fun l => if String.eqb (value_of l2 a) l then 1 else 0)
                   (kept_levels (column_of ds a))).
    { intros a. apply map_ext_in. intros l Hin.
      apply indicator_eq_iff.
      pose proof (Hlev a l Hin) as Hiff. rewrite <- !String.eqb_eq in Hiff.
      destruct (String.eqb (value_of l1 a) l),
               (String.eqb (value_of l2 a) l); intuition congruence. }
    rewrite (Hmap Nivel), (Hmap Entorno), (Hmap Segmento).
    unfold numeric_cells. cbn [map snd].
    now rewrite Hp, Hm, Hr, Hc, Hlat, Hlng.
Qed.

(** Under [ds_two] the levels C (omitted) and A (not in the training data)
    have no column: the example location and the same location at level A
    get the same vector. *)
Lemma equal_vectors_witness :
  vector (encode ds_two loc_hogar) = vector (encode ds_two loc_hogar_A).
Proof.
  apply (proj2 (equal_vectors ds_two loc_hogar loc_hogar_A _ _
                  (store_location_to_features_eq _ _)
                  (store_location_to_features_eq _ _))).
  split; [repeat split |].
  intros a level Hin.
  destruct a; simpl in Hin; destruct Hin as [<- | []]; simpl;
    split; intros H; try discriminate H; reflexivity.
Defined.

Lemma Rsum_indicators (v : string) (kept : list string) :
  NoDup kept ->
  Rsum (map (fun l => if String.eqb v l then 1 else 0) kept) =
  if one_of kept v then 1 else 0.
Proof.
  unfold one_of. induction 1 as [| l kept Hl Hnd IH]; simpl; [reflexivity |].
  rewrite IH.
  destruct (String.eqb_spec v l) as [-> | Hne]; simpl; [| lra].
  destruct (existsb (String.eqb l) kept) eqn:E; [| lra].
  exfalso. apply Hl. apply existsb_exists in E. destruct E as [x [Hx Hxl]].
  apply String.eqb_eq in Hxl. now subst.
Qed.

Lemma kept_levels_NoDup (col : list (option string)) : NoDup (kept_levels col).
Proof.
  unfold kept_levels. pose proof (levels_NoDup col) as H.
  destruct (levels col); [constructor | now inversion H].
Qed.

(** X9. In an encoded row, the indicators of one attribute are zeros and at
    most one 1: they sum to 1 when the location's value has a column and to
    0 when it has none. *)
Theorem one_indicator_per_block :
  forall ds location X a,
    store_location_to_features ds location = Ok X ->
    exists values,
      block ds a X = map Some values /\
      Forall (fun v => v = 0 \/ v = 1) values /\
      Rsum values =
        if one_of (kept_levels (column_of ds a)) (value_of location a)
        then 1 else 0.
Proof.
  intros ds location X a H.
  rewrite store_location_to_features_eq in H. injection H as <-.
  exists (map (fun l => if String.eqb (value_of location a) l then 1 else 0)
              (kept_levels (column_of ds a))).
  split; [rewrite block_encode, map_map; reflexivity |].
  split.
  - apply Forall_forall. intros v Hv. apply in_map_iff in Hv.
    destruct Hv as [l [<- _]]. destruct (String.eqb _ l); auto.
  - apply Rsum_indicators, kept_levels_NoDup.
Qed.

Lemma one_indicator_witness :
  exists values,
    block ds_two Entorno (encode ds_two loc_hogar) = map Some values /\
    Rsum values = 1.
Proof.
  destruct (one_indicator_per_block
              ds_two loc_hogar (encode ds_two loc_hogar) Entorno
              (store_location_to_features_eq _ _))
    as [values [Hb [_ Hs]]].
  exists values. split; [exact Hb | exact Hs].
Defined.

Lemma Forall2_map_r {A B : Type} (P : A -> B -> Prop) (h : A -> B)
  (l : list A) :
  (forall x, In x l -> P x (h x)) -> Forall2 P l (map h l).
Proof.
  induction l as [| x l IH]; intros H; simpl; constructor.
  - apply H. now left.
  - apply IH. intros y Hy. apply H. now right.
Qed.

Lemma indicator_some (v l : string) :
  indicator (Some v) l = if String.eqb v l then 1 else 0.
Proof. reflexivity. Qed.

Lemma training_row_blocks (ds : DataService.t) (r : Combined.row) :
  flat_map (fun c : text_column =>
              map (indicator (snd c r))
                  (kept_levels (map (snd c) (_combined_df ds))))
           (encoded ds) =
  map (indicator (Some (Combined.nivelSocioeconomico r)))
      (kept_levels (column_of ds Nivel))
  ++ map (indicator (Some (Combined.entorno r)))
         (kept_levels (column_of ds Entorno))
  ++ map (indicator (Combined.segmentoMaestro r))
         (kept_levels (column_of ds Segmento)).
Proof.
  rewrite (encoded_blocks ds
             (fun c => map (indicator (snd c r))
                           (kept_levels (map (snd c) (_combined_df ds))))).
  - reflexivity.
  - intros a Ha. apply float_no_levels in Ha.
    destruct a; cbn [categorical snd column_of] in *;
      unfold kept_levels, nivel_column, entorno_column, segmento_column in *;
      now rewrite Ha.
Qed.

(** X10. Training and inference encode alike: each row of the training frame
    is the vector the encoder gives the location that has the attributes of
    that training record, and has no missing cell. *)
Theorem training_rows_match_inference :
  forall ds,
    Forall2
      (fun r row =>
         forall segmento X,
           Combined.segmentoMaestro r = Some segmento ->
           store_location_to_features ds (location_of_row r segmento) = Ok X ->
           map Some (vector X) = row)
      (_combined_df ds) (data (fst (get_training_data ds))).
Proof.
  intros ds. unfold get_training_data. cbn [fst data].
  apply Forall2_map_r. intros r Hr segmento X Hs HX.
  rewrite store_location_to_features_eq in HX.
  assert (E : X = encode ds (location_of_row r segmento)) by congruence.
  subst X. clear HX.
  destruct (record_makes_object ds r Hr) as [HN [HE HS]].
  specialize (HS segmento Hs).
  rewrite training_row_blocks, vector_encode, passed_through_eq.
  cbn [filter]. rewrite HN, HE, HS, Hs. cbn [is_object negb map app].
  rewrite !map_app, !map_map. reflexivity.
Qed.

Lemma dummy_columns_NoDup (ds : DataService.t) (a : attribute) :
  NoDup (indicator_columns ds a).
Proof.
  unfold indicator_columns.
  apply NoDup_map_NoDup_ForallPairs; [| apply kept_levels_NoDup].
  intros x y _ _ H.
  apply String.eqb_eq. rewrite <- (dummy_name_eqb (prefix_of a)).
  now apply String.eqb_eq.
Qed.

Lemma dummy_not_numeric (a : attribute) (l : string) :
  ~ In (dummy_name (prefix_of a) l) numeric_columns.
Proof.
  intros H. destruct a; simpl in H;
    repeat (destruct H as [H | H]; [discriminate H |]); exact H.
Qed.

Lemma dummy_prefix_differs (a a' : attribute) (l l' : string) :
  a <> a' -> dummy_name (prefix_of a) l <> dummy_name (prefix_of a') l'.
Proof.
  intros Hne H. destruct a, a'; try contradiction; discriminate H.
Qed.

Lemma indicator_column_inv (ds : DataService.t) (a : attribute) (col : string) :
  In col (indicator_columns ds a) ->
  exists l, col = dummy_name (prefix_of a) l.
Proof.
  unfold indicator_columns. intros H. apply in_map_iff in H.
  destruct H as [l [<- _]]. now exists l.
Qed.

Lemma indicators_NoDup (ds : DataService.t) :
  NoDup (indicator_columns ds Nivel ++ indicator_columns ds Entorno
         ++ indicator_columns ds Segmento).
Proof.
  apply NoDup_app; [apply dummy_columns_NoDup | |].
  - apply NoDup_app; try apply dummy_columns_NoDup.
    intros col HE HS.
    apply indicator_column_inv in HE, HS.
    destruct HE as [l ->], HS as [l' H].
    now apply dummy_prefix_differs in H.
  - intros col HN H. apply indicator_column_inv in HN.
    destruct HN as [l ->].
    apply in_app_or in H. destruct H as [H | H];
      apply indicator_column_inv in H; destruct H as [l' H];
      now apply dummy_prefix_differs in H.
Qed.

(** The label of a categorical column is no label of an indicator column
    and no label of a numeric column. *)
Lemma label_not_dummy (a a' : attribute) (l : string) :
  prefix_of a <> dummy_name (prefix_of a') l.
Proof.
  intros H. apply String.eqb_eq in H. destruct a, a'; discriminate H.
Qed.

Lemma label_not_numeric (a : attribute) : ~ In (prefix_of a) numeric_columns.
Proof.
  intros H. destruct a; simpl in H;
    repeat (destruct H as [H | H]; [discriminate H |]); exact H.
Qed.

Lemma feature_order_NoDup (ds : DataService.t) : NoDup (feature_order ds).
Proof.
  rewrite feature_order_blocks.
  apply NoDup_app.
  - repeat constructor; simpl; intros H;
      repeat (destruct H as [H | H]; [discriminate H |]); exact H.
  - apply NoDup_app; [| apply indicators_NoDup |].
    + rewrite passed_through_eq. cbn [filter].
      destruct (column_dtype ds Nivel), (column_dtype ds Entorno),
               (column_dtype ds Segmento);
        cbn [is_object negb map prefix_of];
        repeat constructor; simpl; intros H;
        repeat (destruct H as [H | H]; [discriminate H |]); exact H.
    + intros col Hp H. apply passed_through_cases in Hp.
      destruct Hp as [a [-> _]].
      apply in_app_or in H. destruct H as [H | H];
        [| apply in_app_or in H; destruct H as [H | H]];
        apply indicator_column_inv in H; destruct H as [l H];
        now apply label_not_dummy in H.
  - intros col Hnum H.
    apply in_app_or in H. destruct H as [H | H].
    + apply passed_through_cases in H. destruct H as [a [-> _]].
      now apply label_not_numeric in Hnum.
    + apply in_app_or in H. destruct H as [H | H];
        [| apply in_app_or in H; destruct H as [H | H]];
        apply indicator_column_inv in H; destruct H as [l ->];
        now apply dummy_not_numeric in Hnum.
Qed.

(** X11. The training frame is well formed: its column labels are pairwise
    distinct, every row has one entry per column, and there is one row and
    one target per record of the combined table. *)
Theorem training_frame_well_formed :
  forall ds,
    NoDup (columns (fst (get_training_data ds))) /\
    Forall (fun row =>
              List.length row =
              List.length (columns (fst (get_training_data ds))))
           (data (fst (get_training_data ds))) /\
    List.length (data (fst (get_training_data ds))) =
      List.length (_combined_df ds) /\
    List.length (snd (get_training_data ds)) = List.length (_combined_df ds).
Proof.
  intros ds. split; [apply feature_order_NoDup |].
  unfold get_training_data. cbn [fst snd data columns].
  split; [| split; apply length_map].
  apply Forall_forall. intros row H. apply in_map_iff in H.
  destruct H as [r [<- _]].
  rewrite training_row_blocks.
  change (numeric_columns ++ passed_through ds ++ _) with (feature_order ds).
  rewrite feature_order_blocks. unfold indicator_columns.
  repeat (rewrite ?length_app, ?length_map). reflexivity.
Qed.

(* ================================================================== *)
(** ** Further properties: the store tables *)
(* ================================================================== *)

Section SortValuesFacts.

Context {A : Type} (key : A -> R).

Lemma insert_ascending_In (x y : A) (l : list A) :
  In y (insert_ascending key x l) <-> y = x \/ In y l.
Proof.
  induction l as [| z l IH]; simpl.
  - intuition.
  - destruct (Rlt_bool (key z) (key x)); simpl.
    + rewrite IH. intuition.
    + intuition.
Qed.

Lemma insert_ascending_perm (x : A) (l : list A) :
  Permutation (insert_ascending key x l) (x :: l).
Proof.
  induction l as [| z l IH]; simpl.
  - apply Permutation_refl.
  - destruct (Rlt_bool (key z) (key x)).
    + apply perm_trans with (z :: x :: l);
        [now apply perm_skip | apply perm_swap].
    + apply Permutation_refl.
Qed.

Lemma sort_values_perm (l : list A) : Permutation (sort_values key l) l.
Proof.
  induction l as [| x l IH]; simpl.
  - apply perm_nil.
  - apply perm_trans with (x :: sort_values key l);
      [apply insert_ascending_perm | now apply perm_skip].
Qed.

Lemma insert_ascending_ascending (x : A) (l : list A) :
  ascending key l -> ascending key (insert_ascending key x l).
Proof.
  unfold ascending.
  induction 1 as [| z l Hs IH Hz]; simpl.
  - constructor; constructor.
  - destruct (Rlt_bool (key z) (key x)) eqn:E.
    + apply Rlt_bool_iff in E.
      constructor; [exact IH |].
      apply Forall_forall. intros y Hy.
      apply insert_ascending_In in Hy. destruct Hy as [-> | Hy].
      * lra.
      * rewrite Forall_forall in Hz. now apply Hz.
    + assert (Hxz : key x <= key z).
      { unfold Rlt_bool in E. destruct (Rlt_dec (key z) (key x));
          [discriminate | lra]. }
      constructor; [now constructor |].
      constructor; [exact Hxz |].
      apply Forall_impl with (2 := Hz). intros y Hy. lra.
Qed.

Lemma sort_values_ascending (l : list A) : ascending key (sort_values key l).
Proof.
  induction l as [| x l IH]; simpl.
  - constructor.
  - now apply insert_ascending_ascending.
Qed.

End SortValuesFacts.

Lemma to_location_iff (r : Store.row) (s : StoreLocation.t) :
  to_location r = Ok s <-> is_location_of r s /\ valid_location s.
Proof.
  unfold to_location, is_location_of.
  destruct (Store.segmentoMaestro r) as [segmento |] eqn:Hseg.
  - unfold StoreLocation.init.
    match goal with
    | |- match StoreLocation.errors ?f with _ => _ end = _ <-> _ =>
        set (fields := f)
    end.
    destruct (StoreLocation.errors fields) as [| e es] eqn:E.
    + apply location_errors_nil in E. split.
      * intros [= <-]. split; [repeat split | exact E].
      * intros [(H1 & H2 & H3 & H4 & H5 & H6 & H7 & H8 & H9 & H10) _].
        destruct s. simpl in *. injection H10 as ->. subst. reflexivity.
    + split; [discriminate |].
      intros [(H1 & H2 & H3 & H4 & H5 & H6 & H7 & H8 & H9 & H10) Hv].
      assert (s = fields).
      { destruct s. simpl in *. injection H10 as ->. subst. reflexivity. }
      subst s. apply location_errors_nil in Hv. congruence.
  - split; [discriminate |]. intros [(_ & _ & _ & _ & _ & _ & _ & _ & _ & H) _].
    discriminate H.
Qed.

Lemma for_each_raise {A B : Type} (body : A -> result B) (l : list A) :
  (exists x, In x l /\ forall y, body x <> Ok y) ->
  exists e, for_each body l = Raise e.
Proof.
  intros [x [Hin Hx]]. induction l as [| z l IH]; [destruct Hin |].
  simpl. destruct (body z) as [y | e] eqn:Hz; [| eauto].
  destruct Hin as [-> | Hin]; [now apply Hx in Hz |].
  destruct (IH Hin) as [e' ->]. eauto.
Qed.

Lemma for_each_total {A B : Type} (body : A -> result B) (l : list A) :
  (forall x, In x l -> exists y, body x = Ok y) ->
  exists ys, for_each body l = Ok ys /\ Forall2 (fun x y => body x = Ok y) l ys.
Proof.
  induction l as [| x l IH]; intros H; simpl.
  - exists []. split; [reflexivity | constructor].
  - destruct (H x (or_introl eq_refl)) as [y Hy]. rewrite Hy.
    destruct IH as [ys [-> Hys]]; [intros z Hz; apply H; now right |].
    exists (y :: ys). split; [reflexivity | now constructor].
Qed.

Lemma area_query_rows (ds : DataService.t) (lat lng radius_km : R) :
  exists rows,
    Forall2 (fun r s => to_location r = Ok s)
            rows (get_stores_in_area ds lat lng radius_km) /\
    incl rows (all_rows ds) /\
    Forall (fun r => distance_km lat lng r <= radius_km) rows /\
    ascending (distance_km lat lng) rows.
Proof.
  unfold get_stores_in_area.
  fold (all_rows ds).
  set (near := filter (fun r => Rle_bool (distance_km lat lng r) radius_km)
                      (all_rows ds)).
  destruct (for_each to_location (sort_values (distance_km lat lng) near))
    as [locs | e] eqn:E.
  - exists (sort_values (distance_km lat lng) near).
    split.
    + now apply for_each_inv in E.
    + assert (Hin : forall r, In r (sort_values (distance_km lat lng) near) ->
                              In r near).
      { intros r. apply Permutation_in, sort_values_perm. }
      split; [| split].
      * intros r Hr. apply Hin in Hr. unfold near in Hr.
        now apply filter_In in Hr.
      * apply Forall_forall. intros r Hr. apply Hin in Hr. unfold near in Hr.
        apply filter_In in Hr. now apply Rle_bool_iff.
      * apply sort_values_ascending.
  - exists []. repeat split; try constructor. intros r [].
Qed.

Lemma Forall2_In_l {A B : Type} (P : A -> B -> Prop) (l : list A)
  (l' : list B) (x : A) :
  Forall2 P l l' -> In x l -> exists y, In y l' /\ P x y.
Proof.
  induction 1 as [| a b l l' Hab _ IH]; intros Hin; [destruct Hin |].
  destruct Hin as [-> | Hin].
  - exists b. split; [now left | exact Hab].
  - destruct (IH Hin) as [y [Hy Hxy]]. exists y. split; [now right | exact Hxy].
Qed.

Lemma Forall2_In_r {A B : Type} (P : A -> B -> Prop) (l : list A)
  (l' : list B) (y : B) :
  Forall2 P l l' -> In y l' -> exists x, In x l /\ P x y.
Proof.
  induction 1 as [| a b l l' Hab _ IH]; intros Hin; [destruct Hin |].
  destruct Hin as [-> | Hin].
  - exists a. split; [now left | exact Hab].
  - destruct (IH Hin) as [x [Hx Hxy]]. exists x. split; [now right | exact Hxy].
Qed.

Lemma area_query_store (ds : DataService.t) (lat lng radius_km : R)
  (s : StoreLocation.t) :
  In s (get_stores_in_area ds lat lng radius_km) ->
  exists r, In r (all_rows ds) /\ to_location r = Ok s.
Proof.
  intros Hs.
  destruct (area_query_rows ds lat lng radius_km) as [rows [H2 [Hincl _]]].
  destruct (Forall2_In_r _ _ _ _ H2 Hs) as [r [Hr Hrs]].
  exists r. split; [now apply Hincl | exact Hrs].
Qed.

(** X12. What the area query returns comes from rows of the store tables
    that lie within the radius, nearest first, and every returned store is a
    valid [StoreLocation] that carries the attributes and the id of its
    row. *)
Theorem area_query_is_sound :
  forall ds lat lng radius_km,
    exists rows,
      Forall2 (fun r s => is_location_of r s /\ valid_location s)
              rows (get_stores_in_area ds lat lng radius_km) /\
      incl rows (all_rows ds) /\
      Forall (fun r => distance_km lat lng r <= radius_km) rows /\
      ascending (distance_km lat lng) rows.
Proof.
  intros ds lat lng radius_km.
  destruct (area_query_rows ds lat lng radius_km) as [rows [H2 H]].
  exists rows. split; [| exact H].
  apply Forall2_impl with (2 := H2). intros r s. apply to_location_iff.
Qed.

(** X13. The area query is all or nothing: when every row within the radius
    is a valid row, it returns one store per such row; when a single row
    within the radius is not, for instance for a missing segment, it returns
    the empty list, whatever the other rows are. *)
Theorem area_query_all_or_nothing :
  forall ds lat lng radius_km,
    let near :=
      filter (fun r => Rle_bool (distance_km lat lng r) radius_km)
             (all_rows ds) in
    ((forall r, In r near -> valid_row r) ->
     List.length (get_stores_in_area ds lat lng radius_km) = List.length near) /\
    ((exists r, In r near /\ ~ valid_row r) ->
     get_stores_in_area ds lat lng radius_km = []).
Proof.
  intros ds lat lng radius_km near. unfold get_stores_in_area.
  fold (all_rows ds). fold near. split.
  - intros H.
    destruct (for_each_total to_location
                (sort_values (distance_km lat lng) near)) as [locs [-> Hl]].
    + intros r Hr. apply H. revert Hr. apply Permutation_in, sort_values_perm.
    + rewrite <- (Forall2_length Hl).
      apply Permutation_length, sort_values_perm.
  - intros [r [Hin Hr]].
    destruct (for_each_raise to_location
                (sort_values (distance_km lat lng) near)) as [e ->];
      [| reflexivity].
    exists r. split.
    + revert Hin. apply Permutation_in, Permutation_sym, sort_values_perm.
    + intros s Hs. apply Hr. now exists s.
Qed.

Lemma filter_none {A : Type} (f : A -> bool) (l : list A) :
  (forall x, In x l -> f x = false) -> filter f l = [].
Proof.
  induction l as [| a l IH]; intros H; [reflexivity |].
  simpl. rewrite (H a (or_introl eq_refl)). apply IH.
  intros x Hx. apply H. now right.
Qed.

Lemma filter_first {A : Type} (f : A -> bool) (before after : list A) (r : A) :
  (forall x, In x before -> f x = false) -> f r = true ->
  filter f (before ++ r :: after) = r :: filter f after.
Proof.
  intros Hb Hr. rewrite filter_app, (filter_none f before Hb). simpl.
  now rewrite Hr.
Qed.

Lemma filter_head {A : Type} (f : A -> bool) (l rest : list A) (r : A) :
  filter f l = r :: rest -> In r l /\ f r = true.
Proof.
  intros H. apply filter_In. rewrite H. now left.
Qed.

Lemma get_store_by_id_row (ds : DataService.t) (store_id : Z)
  (s : StoreLocation.t) :
  get_store_by_id ds store_id = Some s ->
  exists r, In r (all_rows ds) /\ Store.tiendaId r = store_id /\
            to_location r = Ok s.
Proof.
  unfold get_store_by_id, all_rows.
  destruct (filter _ (_stores_df ds)) as [| r rest] eqn:E1.
  - destruct (filter _ (_test_stores_df ds)) as [| r rest] eqn:E2;
      [discriminate |].
    apply filter_head in E2. destruct E2 as [Hin Hid].
    destruct (to_location r) as [s' | e] eqn:Hl; [| discriminate].
    intros [= <-]. exists r. split; [apply in_or_app; now right |].
    split; [now apply Z.eqb_eq | exact Hl].
  - apply filter_head in E1. destruct E1 as [Hin Hid].
    destruct (to_location r) as [s' | e] eqn:Hl; [| discriminate].
    intros [= <-]. exists r. split; [apply in_or_app; now left |].
    split; [now apply Z.eqb_eq | exact Hl].
Qed.

Lemma get_store_by_id_first (ds : DataService.t) (store_id : Z) :
  (exists r, In r (all_rows ds) /\ Store.tiendaId r = store_id) ->
  exists r, In r (all_rows ds) /\ Store.tiendaId r = store_id /\
            get_store_by_id ds store_id =
            match to_location r with Ok s => Some s | Raise _ => None end.
Proof.
  intros [r0 [Hin0 Hid0]]. unfold get_store_by_id, all_rows in *.
  destruct (filter _ (_stores_df ds)) as [| r rest] eqn:E1.
  - destruct (filter _ (_test_stores_df ds)) as [| r rest] eqn:E2.
    + exfalso. apply in_app_or in Hin0.
      assert (Hf : (Store.tiendaId r0 =? store_id)%Z = true)
        by now apply Z.eqb_eq.
      destruct Hin0 as [Hin0 | Hin0].
      * assert (H : In r0 (filter (fun r => (Store.tiendaId r =? store_id)%Z)
                                  (_stores_df ds)))
          by (apply filter_In; now split).
        rewrite E1 in H. destruct H.
      * assert (H : In r0 (filter (fun r => (Store.tiendaId r =? store_id)%Z)
                                  (_test_stores_df ds)))
          by (apply filter_In; now split).
        rewrite E2 in H. destruct H.
    + apply filter_head in E2. destruct E2 as [Hin Hid].
      exists r. split; [apply in_or_app; now right |].
      split; [now apply Z.eqb_eq | reflexivity].
  - apply filter_head in E1. destruct E1 as [Hin Hid].
    exists r. split; [apply in_or_app; now left |].
    split; [now apply Z.eqb_eq | reflexivity].
Qed.

(** X14. [get_store_by_id] returns nothing for an id no table has; a store
    it returns has the id asked for, is a valid [StoreLocation] and carries
    the attributes of a row of the tables; and the first row of the training
    table with the id decides the result alone: when that row is no valid
    location the result is [None], whatever the test table holds. *)
Theorem store_lookup :
  forall ds store_id,
    ((forall r, In r (all_rows ds) -> Store.tiendaId r <> store_id) ->
     get_store_by_id ds store_id = None) /\
    (forall s, get_store_by_id ds store_id = Some s ->
               StoreLocation.tiendaId s = Some store_id /\
               valid_location s /\
               exists r, In r (all_rows ds) /\ is_location_of r s) /\
    (forall before r after,
        _stores_df ds = before ++ r :: after ->
        Store.tiendaId r = store_id ->
        (forall x, In x before -> Store.tiendaId x <> store_id) ->
        get_store_by_id ds store_id =
        match to_location r with Ok s => Some s | Raise _ => None end).
Proof.
  intros ds store_id. split; [| split].
  - intros H. unfold get_store_by_id.
    rewrite !filter_none; [reflexivity | |];
      intros r Hr; apply Z.eqb_neq, H; apply in_or_app; auto.
  - intros s Hs. apply get_store_by_id_row in Hs.
    destruct Hs as [r [Hin [Hid Hl]]].
    apply to_location_iff in Hl. destruct Hl as [Hloc Hv].
    split; [| split; [exact Hv | now exists r]].
    destruct Hloc as [Ht _]. now rewrite Ht, Hid.
  - intros before r after Hrows Hid Hb. unfold get_store_by_id.
    rewrite Hrows, filter_first; [reflexivity | | now apply Z.eqb_eq].
    intros x Hx. now apply Z.eqb_neq, Hb.
Qed.

(** X15. [get_all_stores] is all or nothing: when every row of the two
    tables is a valid row, it returns one store per row, in table order
    (training table first), each with the attributes of its row; a single
    row that is not valid makes it return the empty list. *)
Theorem all_stores_all_or_nothing :
  forall ds,
    ((forall r, In r (all_rows ds) -> valid_row r) ->
     Forall2 (fun r s => is_location_of r s /\ valid_location s)
             (all_rows ds) (get_all_stores ds)) /\
    ((exists r, In r (all_rows ds) /\ ~ valid_row r) ->
     get_all_stores ds = []).
Proof.
  intros ds. unfold get_all_stores. fold (all_rows ds). split.
  - intros H.
    destruct (for_each_total to_location (all_rows ds) H) as [locs [-> Hl]].
    apply Forall2_impl with (2 := Hl). intros r s. apply to_location_iff.
  - intros [r [Hin Hr]].
    destruct (for_each_raise to_location (all_rows ds)) as [e ->];
      [| reflexivity].
    exists r. split; [exact Hin |]. intros s Hs. apply Hr. now exists s.
Qed.

Lemma get_all_stores_rows (ds : DataService.t) :
  get_all_stores ds <> [] ->
  Forall2 (fun r s => to_location r = Ok s) (all_rows ds) (get_all_stores ds).
Proof.
  unfold get_all_stores. fold (all_rows ds).
  destruct (for_each to_location (all_rows ds)) as [locs | e] eqn:E.
  - intros _. now apply for_each_inv.
  - intros H. now destruct H.
Qed.

(** X16. The three store queries agree: when [get_all_stores] returns
    stores, every store the area query returns is among them, every store
    [get_store_by_id] returns is among them, and each of them has an id under
    which [get_store_by_id] finds a store. *)
Theorem store_queries_agree :
  forall ds,
    get_all_stores ds <> [] ->
    (forall lat lng radius_km,
        incl (get_stores_in_area ds lat lng radius_km) (get_all_stores ds)) /\
    (forall store_id s,
        get_store_by_id ds store_id = Some s -> In s (get_all_stores ds)) /\
    (forall s,
        In s (get_all_stores ds) ->
        exists store_id s',
          StoreLocation.tiendaId s = Some store_id /\
          get_store_by_id ds store_id = Some s' /\
          StoreLocation.tiendaId s' = Some store_id).
Proof.
  intros ds Hne. pose proof (get_all_stores_rows ds Hne) as Hall.
  assert (Hrow : forall r s, In r (all_rows ds) -> to_location r = Ok s ->
                             In s (get_all_stores ds)).
  { intros r s Hr Hs.
    destruct (Forall2_In_l _ _ _ _ Hall Hr) as [s' [Hs' Hrs']].
    congruence. }
  split; [| split].
  - intros lat lng radius_km s Hs.
    apply area_query_store in Hs. destruct Hs as [r [Hr Hs]]. eauto.
  - intros store_id s Hs.
    apply get_store_by_id_row in Hs. destruct Hs as [r [Hr [_ Hs]]]. eauto.
  - intros s Hs.
    destruct (Forall2_In_r _ _ _ _ Hall Hs) as [r [Hr Hrs]].
    destruct (get_store_by_id_first ds (Store.tiendaId r)) as [r' [Hr' [Hid Hg]]];
      [now exists r |].
    destruct (Forall2_In_l _ _ _ _ Hall Hr') as [s' [_ Hs']].
    rewrite Hs' in Hg.
    exists (Store.tiendaId r), s'.
    apply to_location_iff in Hrs. destruct Hrs as [[Ht _] _].
    apply to_location_iff in Hs'. destruct Hs' as [[Ht' _] _].
    split; [exact Ht | split; [exact Hg | now rewrite Ht', Hid]].
Qed.

Lemma get_all_stores_ds_north :
  get_all_stores ds_north = [store_location 1 1 26.2 (-100)].
Proof.
  unfold get_all_stores, ds_north, service.
  cbn [_stores_df _test_stores_df app for_each].
  rewrite store_row_location by (lia || lra). reflexivity.
Qed.

Lemma store_queries_witness :
  incl (get_stores_in_area ds_north 26.2 (-100) 1) (get_all_stores ds_north).
Proof.
  apply (proj1 (store_queries_agree ds_north
                  ltac:(rewrite get_all_stores_ds_north; discriminate))).
Defined.

(* ================================================================== *)
(** ** Further properties: ranking and heatmap of existing stores *)
(* ================================================================== *)

Lemma for_each_raise_inv {A B : Type} (body : A -> result B) (l : list A)
  (e : exn) :
  for_each body l = Raise e -> exists x, In x l /\ body x = Raise e.
Proof.
  induction l as [| a l IH]; [discriminate |]. simpl.
  destruct (body a) as [y | e'] eqn:Ha.
  - destruct (for_each body l) as [ys | e'']; [discriminate |].
    intros [= ->]. destruct (IH eq_refl) as [x [Hx Hbx]].
    exists x. split; [now right | exact Hbx].
  - intros [= ->]. exists a. split; [now left | exact Ha].
Qed.

Lemma area_query_valid (ds : DataService.t) (lat lng radius_km : R)
  (s : StoreLocation.t) :
  In s (get_stores_in_area ds lat lng radius_km) ->
  valid_location s /\ exists store_id, StoreLocation.tiendaId s = Some store_id.
Proof.
  intros Hs. apply area_query_store in Hs. destruct Hs as [r [_ Hs]].
  apply to_location_iff in Hs. destruct Hs as [[Ht _] Hv].
  split; [exact Hv | now exists (Store.tiendaId r)].
Qed.

(** X17. [get_optimal_locations] returns the empty list for an area without
    stores, and fails exactly when some store of the area cannot be
    predicted; whatever went wrong, the error it raises is the [ValueError]
    of the failed ranking. *)
Theorem optimal_locations_outcomes :
  forall ds model area,
    (stores_of ds area = [] ->
     get_optimal_locations ds model area = Ok []) /\
    ((exists s, In s (stores_of ds area) /\
                forall p, predict_location ds model s <> Ok p) ->
     get_optimal_locations ds model area =
     Raise (ValueError "Failed to find optimal locations")) /\
    (forall e,
        get_optimal_locations ds model area = Raise e ->
        e = ValueError "Failed to find optimal locations" /\
        exists s, In s (stores_of ds area) /\
                  forall p, predict_location ds model s <> Ok p).
Proof.
  intros ds model area. unfold get_optimal_locations.
  fold (stores_of ds area).
  set (body := fun store =>
                 bind (predict_location ds model store) (fun prediction =>
                 Ok (store, PredictionResponse.score prediction))).
  split; [| split].
  - intros ->. reflexivity.
  - intros [s [Hin Hs]].
    destruct (stores_of ds area) as [| s0 rest]; [destruct Hin |].
    destruct (for_each_raise body (s0 :: rest)) as [e He].
    + exists s. split; [exact Hin |]. intros y. unfold body.
      destruct (predict_location ds model s) as [p | e'] eqn:Hp;
        [now destruct (Hs p) | discriminate].
    + fold body. rewrite He. reflexivity.
  - intros e.
    destruct (stores_of ds area) as [| s0 rest]; [discriminate |].
    fold body.
    destruct (for_each body (s0 :: rest)) as [pairs | e'] eqn:E;
      cbv beta iota zeta delta [bind reraise]; [discriminate |].
    intros [= <-]. split; [reflexivity |].
    apply for_each_raise_inv in E. destruct E as [s [Hin Hs]].
    exists s. split; [exact Hin |]. intros p Hp. unfold body in Hs.
    rewrite Hp in Hs. discriminate.
Qed.

Lemma sorted_app_le {A : Type} (rel : A -> A -> Prop) (l1 l2 : list A) :
  StronglySorted rel (l1 ++ l2) ->
  forall a b, In a l1 -> In b l2 -> rel a b.
Proof.
  induction l1 as [| x l1 IH]; intros Hs a b Ha Hb; [destruct Ha |].
  simpl in Hs. apply StronglySorted_inv in Hs. destruct Hs as [Hs Hx].
  destruct Ha as [-> | Ha].
  - rewrite Forall_forall in Hx. apply Hx, in_or_app. now right.
  - now apply IH.
Qed.

(** X18. The stores [get_optimal_locations] returns are a best selection:
    the stores of the area split into the returned ones and a rest, and no
    store of the rest has a higher score than a returned one. Every returned
    store is a valid [StoreLocation] with an id. *)
Theorem optimal_locations_are_best :
  forall ds model area out,
    get_optimal_locations ds model area = Ok out ->
    exists rest,
      Permutation (out ++ rest) (stores_of ds area) /\
      (forall s s', In s out -> In s' rest ->
                    score_at ds model s' <= score_at ds model s) /\
      Forall (fun s => valid_location s /\
                       exists store_id,
                         StoreLocation.tiendaId s = Some store_id) out.
Proof.
  intros ds model area out H.
  apply get_optimal_locations_inv in H. subst out. unfold ranking.
  set (sorted := sort_reverse (score_at ds model) (stores_of ds area)).
  exists (skipn 5 sorted).
  assert (Hperm : Permutation sorted (stores_of ds area))
    by apply sort_reverse_perm.
  split; [now rewrite firstn_skipn |].
  split.
  - intros s s' Hs Hs'.
    apply (sorted_app_le (fun a b => score_at ds model b <= score_at ds model a)
             (firstn 5 sorted) (skipn 5 sorted)); [| exact Hs | exact Hs'].
    rewrite firstn_skipn. apply sort_reverse_descending.
  - apply Forall_forall. intros s Hs.
    apply (area_query_valid ds (AreaRequest.lat area) (AreaRequest.lng area)
             (AreaRequest.radius area)).
    fold (stores_of ds area).
    apply Permutation_in with (1 := Hperm).
    rewrite <- (firstn_skipn 5 sorted). apply in_or_app. now left.
Qed.

Lemma optimal_locations_witness :
  exists rest,
    Permutation
      (ranking ds_six (model_const 0.75) (stores_of ds_six area_mty) ++ rest)
      (stores_of ds_six area_mty).
Proof.
  destruct (optimal_locations_are_best ds_six (model_const 0.75) area_mty
              (ranking ds_six (model_const 0.75) (stores_of ds_six area_mty)))
    as [rest [Hperm _]].
  - apply get_optimal_locations_ok. rewrite stores_of_ds_six.
    intros s Hs. exists (response_of ds_six s 0.75).
    simpl in Hs.
    repeat (destruct Hs as [<- | Hs];
            [apply predict_location_ok; [reflexivity | simpl; lra] |]).
    contradiction.
  - exists rest. exact Hperm.
Defined.

Lemma store_points_inv (ds : DataService.t) (model : Row -> result R)
  (stores : list StoreLocation.t) (k : nat) (points : list MapPoint.t) :
  for_each (store_point ds model)
           (combine (seq k (List.length stores)) stores) = Ok points ->
  Forall2 (fun s p => MapPoint.lat p = StoreLocation.latitud s /\
                      MapPoint.lng p = StoreLocation.longitud s /\
                      MapPoint.score p = score_at ds model s)
          stores points.
Proof.
  revert k points. induction stores as [| s stores IH]; intros k points.
  - simpl. intros [= <-]. constructor.
  - cbn [List.length seq combine for_each].
    destruct (store_point ds model (k, s)) as [p | e] eqn:Hp; [| discriminate].
    destruct (for_each _ _) as [ps | e] eqn:Hps; [| discriminate].
    intros [= <-]. constructor; [| now apply IH with (S k)].
    unfold store_point in Hp. unfold score_at.
    destruct (predict_location ds model s) as [prediction | e]; simpl in Hp;
      [| discriminate].
    apply point_init_inv in Hp. subst p. repeat split.
Qed.

Lemma store_point_ok (ds : DataService.t) (model : Row -> result R)
  (i : nat) (s : StoreLocation.t) (prediction : PredictionResponse.t) :
  valid_location s ->
  predict_location ds model s = Ok prediction ->
  exists p, store_point ds model (i, s) = Ok p.
Proof.
  intros Hv Hp. unfold store_point. rewrite Hp.
  cbv beta iota zeta delta [bind].
  eexists. apply point_init_ok; cbn [MapPoint.lat MapPoint.lng MapPoint.score
                                      MapPoint.color].
  - unfold valid_location in Hv. lra.
  - unfold valid_location in Hv. lra.
  - apply predict_location_inv in Hp. destruct Hp as [ratio [_ [-> _]]].
    apply score_of_range.
  - apply color_is_hex.
Qed.

(** X19. When the area around the bounds holds stores, the heatmap is made
    of them: a heatmap that is returned has one point per store, in the order
    of the area query, at the coordinates of the store and with the score of
    its prediction, and no random number is drawn. For bounds that pass
    construction it is returned when every store is predicted; one store
    that cannot be predicted makes the call fail with the [ValueError] of the
    heatmap. *)
Theorem heatmap_of_stores :
  forall ds model random_sample bounds rng,
    stores_near ds bounds <> [] ->
    (forall h rng',
        generate_heatmap ds model random_sample bounds rng = Ok (h, rng') ->
        rng' = rng /\
        Forall2 (fun s p => MapPoint.lat p = StoreLocation.latitud s /\
                            MapPoint.lng p = StoreLocation.longitud s /\
                            MapPoint.score p = score_at ds model s)
                (stores_near ds bounds) (HeatmapData.points h)) /\
    (valid_bounds bounds ->
     (forall s, In s (stores_near ds bounds) ->
                exists p, predict_location ds model s = Ok p) ->
     exists h,
       generate_heatmap ds model random_sample bounds rng = Ok (h, rng)) /\
    ((exists s, In s (stores_near ds bounds) /\
                forall p, predict_location ds model s <> Ok p) ->
     generate_heatmap ds model random_sample bounds rng =
     Raise (ValueError "Failed to generate heatmap")).
Proof.
  intros ds model random_sample bounds rng Hne.
  rewrite generate_heatmap_unfold.
  destruct (stores_near ds bounds) as [| s0 rest] eqn:Hst;
    [now destruct Hne |].
  rewrite <- Hst. clear Hne.
  assert (Hvalid : forall s, In s (stores_near ds bounds) -> valid_location s).
  { intros s Hs. unfold stores_near in Hs.
    now apply area_query_valid in Hs. }
  split; [| split].
  - intros h rng'.
    destruct (for_each _ _) as [points | e] eqn:E;
      cbv beta iota zeta delta [bind reraise]; [| discriminate].
    destruct (HeatmapData.init _) as [h0 | e] eqn:Eh; [| discriminate].
    intros [= <- <-]. apply heatmap_init_inv in Eh. subst h0.
    split; [reflexivity |]. cbn [HeatmapData.points].
    now apply store_points_inv with (k := 0%nat).
  - intros Hb Hall.
    destruct (for_each_total (store_point ds model)
                (enumerate (stores_near ds bounds))) as [points [-> _]].
    + intros [i s] Hin. apply in_combine_r in Hin.
      destruct (Hall s Hin) as [p Hp].
      now apply store_point_ok with p; [apply Hvalid |].
    + cbv beta iota zeta delta [bind reraise].
      rewrite heatmap_init_ok by exact Hb. eexists. reflexivity.
  - intros [s [Hin Hs]].
    destruct (In_nth _ _ s Hin) as [n [Hn Hnth]].
    destruct (for_each_raise (store_point ds model)
                (enumerate (stores_near ds bounds))) as [e ->];
      [| reflexivity].
    exists (n, s). split.
    + unfold enumerate.
      replace (n, s)
        with (nth n (combine (seq 0 (List.length (stores_near ds bounds)))
                             (stores_near ds bounds)) (0%nat, s)).
      * apply nth_In. rewrite length_combine, length_seq.
        now rewrite Nat.min_id.
      * rewrite combine_nth by apply length_seq.
        rewrite seq_nth by exact Hn. now rewrite Hnth.
    + intros p. unfold store_point.
      destruct (predict_location ds model s) as [prediction | e] eqn:Hp;
        [now destruct (Hs prediction) | discriminate].
Qed.

Lemma heatmap_of_stores_witness :
  exists h,
    generate_heatmap ds_north (model_const 0.75) draw_half bounds_wide 0
    = Ok (h, 0%nat).
Proof.
  apply (proj1 (proj2 (heatmap_of_stores
                         ds_north (model_const 0.75) draw_half bounds_wide 0%nat
                         ltac:(rewrite stores_near_bounds_wide; discriminate)))).
  - unfold valid_bounds. simpl. lra.
  - rewrite stores_near_bounds_wide. intros s [<- | []].
    exists (response_of ds_north (store_location 1 1 26.2 (-100)) 0.75).
    apply predict_location_ok; [reflexivity | simpl; lra].
Defined.

(* ================================================================== *)
(** ** Further properties: the sales forecast and the analysis *)
(* ================================================================== *)

Lemma for_each_total_rel {A B : Type} (body : A -> result B)
  (P : A -> B -> Prop) (l : list A) :
  (forall x, In x l -> exists y, body x = Ok y /\ P x y) ->
  exists ys, for_each body l = Ok ys /\ Forall2 P l ys.
Proof.
  induction l as [| x l IH]; intros H; simpl.
  - exists []. split; [reflexivity | constructor].
  - destruct (H x (or_introl eq_refl)) as [y [Hy HP]]. rewrite Hy.
    destruct IH as [ys [-> Hys]]; [intros z Hz; apply H; now right |].
    exists (y :: ys). split; [reflexivity | now constructor].
Qed.

Lemma forecast_calendar (cm i : Z) :
  (1 <= cm <= 12)%Z -> (0 <= i)%Z ->
  let m := ((cm + i) mod 12)%Z in
  let month := if (m =? 0)%Z then 12%Z else m in
  (1 <= month <= 12)%Z /\
  (12 * ((cm + i - 1) / 12) + month = cm + i)%Z.
Proof.
  intros Hcm Hi m month. subst month m.
  destruct (Z.eqb_spec ((cm + i) mod 12) 0) as [E | E];
    Z.div_mod_to_equations; lia.
Qed.

Lemma seasonal_factor_range (month : Z) :
  (1 <= month <= 12)%Z ->
  exists factor,
    dict_get month seasonal_factors = Some factor /\ 0.85 <= factor <= 1.20.
Proof.
  intros H.
  assert (Hc : (month = 1 \/ month = 2 \/ month = 3 \/ month = 4 \/ month = 5
                \/ month = 6 \/ month = 7 \/ month = 8 \/ month = 9
                \/ month = 10 \/ month = 11 \/ month = 12)%Z) by lia.
  repeat (destruct Hc as [-> | Hc];
          [eexists; split; [reflexivity | lra] |]).
  subst month. eexists; split; [reflexivity | lra].
Qed.

Lemma year_digits (year : Z) :
  (1000 <= year <= 9999)%Z -> digits_of_length 4 (str_int year) = true.
Proof.
  intros H.
  assert (Hall : forallb (fun n => digits_of_length 4
                                     (str_int (Z.of_nat n + 1000)))
                         (seq 0 (Z.to_nat 9000)) = true)
    by (vm_compute; reflexivity).
  rewrite forallb_forall in Hall.
  specialize (Hall (Z.to_nat (year - 1000))).
  replace (Z.of_nat (Z.to_nat (year - 1000)) + 1000)%Z with year in Hall by lia.
  apply Hall, in_seq. lia.
Qed.

Lemma month_digits (month : Z) :
  (1 <= month <= 12)%Z -> digits_of_length 2 (fmt_02d month) = true.
Proof.
  intros H.
  assert (Hall : forallb (fun n => digits_of_length 2
                                     (fmt_02d (Z.of_nat n + 1)))
                         (seq 0 12) = true)
    by (vm_compute; reflexivity).
  rewrite forallb_forall in Hall.
  specialize (Hall (Z.to_nat (month - 1))).
  replace (Z.of_nat (Z.to_nat (month - 1)) + 1)%Z with month in Hall by lia.
  apply Hall, in_seq. lia.
Qed.

Lemma six_digits_append (a b : string) :
  digits_of_length 4 a = true -> digits_of_length 2 b = true ->
  six_digits (String.append a b) = true.
Proof.
  unfold digits_of_length.
  destruct a as [| a1 [| a2 [| a3 [| a4 [| a5 a]]]]]; try discriminate.
  destruct b as [| b1 [| b2 [| b3 b]]]; try discriminate.
  cbn [String.length Nat.eqb andb list_ascii_of_string forallb String.append
       six_digits].
  intros Ha Hb.
  repeat (apply andb_true_iff in Ha; destruct Ha as [? Ha]).
  repeat (apply andb_true_iff in Hb; destruct Hb as [? Hb]).
  repeat match goal with
         | H : is_digit _ = true |- _ => rewrite H; clear H
         end.
  reflexivity.
Qed.

Section Forecast.

Variable random_sample : nat -> R.
Hypothesis random_sample_range : forall k, 0 <= random_sample k < 1.

Variables current_year current_month : Z.
Hypothesis year_range : (1000 <= current_year <= 9998)%Z.
Hypothesis month_range : (1 <= current_month <= 12)%Z.

Lemma forecast_entry_unfold (base_sales : R) (rng i : nat) :
  (i < 6)%nat ->
  exists year month factor,
    (1 <= month <= 12)%Z /\
    (1000 <= year <= 9999)%Z /\
    (12 * year + month = 12 * current_year + current_month + Z.of_nat i)%Z /\
    dict_get month seasonal_factors = Some factor /\
    0.85 <= factor <= 1.20 /\
    forecast_entry random_sample current_year current_month base_sales rng i =
    SalesForecast.init
      {| SalesForecast.month := String.append (str_int year) (fmt_02d month);
         SalesForecast.amount :=
           base_sales * factor
           * (1 + uniform (-0.05) 0.05 (random_sample (rng + i))) |}.
Proof.
  intros Hi. unfold forecast_entry.
  destruct (forecast_calendar current_month (Z.of_nat i) month_range
              (Nat2Z.is_nonneg i)) as [Hm Hy].
  cbv zeta in Hm, Hy.
  set (month := if ((current_month + Z.of_nat i) mod 12 =? 0)%Z
                then 12%Z else ((current_month + Z.of_nat i) mod 12)%Z) in *.
  set (year := (current_year + (current_month + Z.of_nat i - 1) / 12)%Z).
  destruct (seasonal_factor_range month Hm) as [factor [Hf Hr]].
  exists year, month, factor.
  split; [exact Hm |].
  split; [| split; [subst year; lia |
                    split; [exact Hf | split; [exact Hr |]]]].
  - assert (0 <= (current_month + Z.of_nat i - 1) / 12)%Z
      by (apply Z.div_pos; lia).
    subst year. split; [lia |].
    enough ((current_month + Z.of_nat i - 1) / 12 < 2)%Z by lia.
    apply Z.div_lt_upper_bound; lia.
  - cbv zeta. fold month. rewrite Hf. reflexivity.
Qed.

Lemma noise_range (k : nat) :
  0.95 <= 1 + uniform (-0.05) 0.05 (random_sample k) <= 1.05.
Proof.
  unfold uniform. pose proof (random_sample_range k). lra.
Qed.

Lemma forecast_entry_ok (base_sales : R) (rng i : nat) :
  (i < 6)%nat -> 0 <= base_sales ->
  exists f,
    forecast_entry random_sample current_year current_month base_sales rng i
    = Ok f /\
    forecast_month current_year current_month base_sales i f.
Proof.
  intros Hi Hbase.
  destruct (forecast_entry_unfold base_sales rng i Hi)
    as (year & month & factor & Hm & Hy & Hcal & Hf & Hr & ->).
  pose proof (noise_range (rng + i)) as Hn.
  set (noise := uniform (-0.05) 0.05 (random_sample (rng + i))) in *.
  assert (Hbf : 0 <= base_sales * factor) by (apply Rmult_le_pos; lra).
  eexists. split.
  - unfold SalesForecast.init, SalesForecast.errors.
    cbn [SalesForecast.month SalesForecast.amount].
    rewrite six_digits_append by (apply year_digits || apply month_digits;
                                  assumption).
    rewrite Rle_bool_true by nra. reflexivity.
  - exists year, month, factor.
    cbn [SalesForecast.month SalesForecast.amount].
    repeat split; try assumption; try lia; nra.
Qed.

Lemma forecast_entry_negative (base_sales : R) (rng i : nat) :
  (i < 6)%nat -> base_sales < 0 ->
  forecast_entry random_sample current_year current_month base_sales rng i
  = Raise (ValidationError "SalesForecast" ["amount"]).
Proof.
  intros Hi Hbase.
  destruct (forecast_entry_unfold base_sales rng i Hi)
    as (year & month & factor & Hm & Hy & Hcal & Hf & Hr & ->).
  pose proof (noise_range (rng + i)) as Hn.
  set (noise := uniform (-0.05) 0.05 (random_sample (rng + i))) in *.
  unfold SalesForecast.init, SalesForecast.errors.
  cbn [SalesForecast.month SalesForecast.amount].
  rewrite six_digits_append by (apply year_digits || apply month_digits;
                                assumption).
  assert (Hbf : 0 < - base_sales * factor)
    by (apply Rmult_lt_0_compat; lra).
  assert (Hpos : 0 < - base_sales * factor * (1 + noise))
    by (apply Rmult_lt_0_compat; lra).
  assert (Hneg : base_sales * factor * (1 + noise) < 0) by lra.
  rewrite Rle_bool_false by exact Hneg. reflexivity.
Qed.

Lemma generate_sales_forecast_ok (location : StoreLocation.t)
  (base_sales : R) (rng : nat) :
  0 <= base_sales ->
  exists forecast,
    _generate_sales_forecast random_sample current_year current_month
      location base_sales rng = Ok (forecast, (rng + 6)%nat) /\
    Forall2 (forecast_month current_year current_month base_sales)
            (seq 0 6) forecast.
Proof.
  intros Hbase. unfold _generate_sales_forecast.
  destruct (for_each_total_rel
              (forecast_entry random_sample current_year current_month
                              base_sales rng)
              (forecast_month current_year current_month base_sales)
              (seq 0 6)) as [forecast [-> Hf]].
  - intros i Hi. apply in_seq in Hi. apply forecast_entry_ok; [lia | exact Hbase].
  - exists forecast. split; [reflexivity | exact Hf].
Qed.

End Forecast.

(** X20. With draws in [0, 1), a clock between the years 1000 and 9998 and
    a base that is not negative, the sales forecast has six entries and
    takes six draws; entry [i] is labelled with the year and the two-digit
    month [i] months after the clock's month (the year advances after
    December), and its amount is within 5 % of the base times the seasonal
    factor of that month. For a negative base it raises the validation
    error of the amount. *)
Theorem sales_forecast_six_months :
  forall random_sample current_year current_month location base_sales rng,
    (forall k, 0 <= random_sample k < 1) ->
    (1000 <= current_year <= 9998)%Z ->
    (1 <= current_month <= 12)%Z ->
    (0 <= base_sales ->
     exists forecast,
       _generate_sales_forecast random_sample current_year current_month
         location base_sales rng = Ok (forecast, (rng + 6)%nat) /\
       List.length forecast = 6%nat /\
       Forall2 (forecast_month current_year current_month base_sales)
               (seq 0 6) forecast) /\
    (base_sales < 0 ->
     _generate_sales_forecast random_sample current_year current_month
       location base_sales rng
     = Raise (ValidationError "SalesForecast" ["amount"])).
Proof.
  intros rs cy cm location base rng Hrs Hy Hm. split.
  - intros Hbase.
    destruct (generate_sales_forecast_ok rs Hrs cy cm Hy Hm location base rng
                Hbase) as [forecast [H1 H2]].
    exists forecast. split; [exact H1 | split; [| exact H2]].
    now rewrite <- (Forall2_length H2).
  - intros Hbase. unfold _generate_sales_forecast.
    cbn [seq for_each].
    rewrite (forecast_entry_negative rs Hrs cy cm Hy Hm base rng 0)
      by (lia || exact Hbase).
    reflexivity.
Qed.

Lemma sales_forecast_witness :
  exists forecast,
    _generate_sales_forecast draw_half 2026 11 loc_hogar 480000 0
    = Ok (forecast, 6%nat) /\
    List.length forecast = 6%nat.
Proof.
  destruct (proj1 (sales_forecast_six_months draw_half 2026 11 loc_hogar
                     480000 0%nat
                     ltac:(intros k; unfold draw_half; lra)
                     ltac:(lia) ltac:(lia))
              ltac:(lra))
    as [forecast [H1 [H2 _]]].
  exists forecast. split; [exact H1 | exact H2].
Defined.

(** X21. With draws in [0, 1) and a clock between the years 1000 and 9998,
    [analyze_location] returns exactly when [predict_location] does: the
    forecast cannot fail, since the expected sales of a returned prediction
    are not negative. The analysis holds the location and its prediction
    unchanged, a forecast of six months made from the expected sales, and
    the stores within 2 km, or no list at all when there is none; six draws
    are taken. When the prediction fails, the error is the [ValueError] of
    the analysis. *)
Theorem analysis_follows_prediction :
  forall ds model random_sample current_year current_month location rng,
    (forall k, 0 <= random_sample k < 1) ->
    (1000 <= current_year <= 9998)%Z ->
    (1 <= current_month <= 12)%Z ->
    (forall prediction,
        predict_location ds model location = Ok prediction ->
        exists result forecast,
          analyze_location ds model random_sample current_year current_month
            location rng = Ok (result, (rng + 6)%nat) /\
          LocationAnalysisResult.location result = location /\
          LocationAnalysisResult.prediction result = prediction /\
          LocationAnalysisResult.nearbyStores result =
            match get_stores_in_area ds (StoreLocation.latitud location)
                    (StoreLocation.longitud location) 2.0 with
            | [] => None
            | stores => Some stores
            end /\
          LocationAnalysisResult.salesForecast result = Some forecast /\
          Forall2 (forecast_month current_year current_month
                     (PredictionResponse.expectedSales prediction))
                  (seq 0 6) forecast) /\
    (forall e,
        predict_location ds model location = Raise e ->
        analyze_location ds model random_sample current_year current_month
          location rng = Raise (ValueError "Failed to analyze location")).
Proof.
  intros ds model rs cy cm location rng Hrs Hy Hm. split.
  - intros prediction Hp. unfold analyze_location. rewrite Hp.
    assert (Hbase : 0 <= PredictionResponse.expectedSales prediction).
    { apply predict_location_inv in Hp. now destruct Hp as [ratio [_ [_ H]]]. }
    destruct (generate_sales_forecast_ok rs Hrs cy cm Hy Hm location
                (PredictionResponse.expectedSales prediction) rng Hbase)
      as [forecast [H1 H2]].
    cbv beta iota zeta delta [bind]. rewrite H1.
    cbv beta iota zeta delta [bind reraise].
    eexists. exists forecast.
    split; [reflexivity |].
    cbn [LocationAnalysisResult.location LocationAnalysisResult.prediction
         LocationAnalysisResult.nearbyStores
         LocationAnalysisResult.salesForecast].
    repeat split; try reflexivity; try exact H2.
    now destruct (get_stores_in_area _ _ _ _).
  - intros e Hp. unfold analyze_location. rewrite Hp. reflexivity.
Qed.

Lemma analysis_witness :
  exists result forecast,
    analyze_location ds_two (model_const 0.75) draw_half 2026 11 loc_hogar 0
    = Ok (result, 6%nat) /\
    LocationAnalysisResult.salesForecast result = Some forecast.
Proof.
  destruct (proj1 (analysis_follows_prediction
                     ds_two (model_const 0.75) draw_half 2026 11 loc_hogar
                     0%nat
                     ltac:(intros k; unfold draw_half; lra)
                     ltac:(lia) ltac:(lia))
              (response_of ds_two loc_hogar 0.75)
              ltac:(apply predict_location_ok; [reflexivity | simpl; lra]))
    as [result [forecast [H1 [_ [_ [_ [H2 _]]]]]]].
  exists result, forecast. split; [exact H1 | exact H2].
Defined.

(* ================================================================== *)
(** ** Further properties: sales metrics *)
(* ================================================================== *)

Lemma fold_left_Rplus (l : list R) (a : R) :
  fold_left Rplus l a = a + Rsum l.
Proof.
  unfold Rsum. revert a. induction l as [| x l IH]; intros a; simpl.
  - lra.
  - rewrite IH. lra.
Qed.

Lemma Rsum_app (l1 l2 : list R) : Rsum (l1 ++ l2) = Rsum l1 + Rsum l2.
Proof.
  unfold Rsum. induction l1 as [| x l1 IH]; simpl.
  - lra.
  - rewrite IH. lra.
Qed.

Lemma Rsum_perm (l l' : list R) : Permutation l l' -> Rsum l = Rsum l'.
Proof.
  unfold Rsum. induction 1; simpl; lra.
Qed.

Lemma add_sale_sum (c : string) (a : R) (d : list (string * R)) :
  Rsum (map snd (Sales.add_sale c a d)) = Rsum (map snd d) + a.
Proof.
  unfold Rsum. induction d as [| [k v] d IH]; simpl.
  - lra.
  - destruct (String.eqb k c); simpl; [lra | rewrite IH; lra].
Qed.

Lemma add_sale_keys (c : string) (a : R) (d : list (string * R)) (k : string) :
  In k (map fst (Sales.add_sale c a d)) <-> k = c \/ In k (map fst d).
Proof.
  induction d as [| [k0 v] d IH]; simpl.
  - intuition congruence.
  - destruct (String.eqb_spec k0 c) as [-> | Hne]; simpl.
    + intuition congruence.
    + rewrite IH. intuition congruence.
Qed.

Lemma add_sale_NoDup (c : string) (a : R) (d : list (string * R)) :
  NoDup (map fst d) -> NoDup (map fst (Sales.add_sale c a d)).
Proof.
  induction d as [| [k0 v] d IH]; simpl; intros H.
  - constructor; [intros [] | constructor].
  - destruct (String.eqb_spec k0 c) as [-> | Hne]; simpl; [exact H |].
    inversion H as [| x l Hx Hl]; subst.
    constructor; [| now apply IH].
    rewrite add_sale_keys. intros [E | E]; [congruence | contradiction].
Qed.

Lemma add_sale_entry (c : string) (a : R) (d : list (string * R))
  (k : string) (v : R) :
  NoDup (map fst d) -> In (k, v) (Sales.add_sale c a d) ->
  (k <> c /\ In (k, v) d) \/
  (k = c /\ ((exists v0, In (c, v0) d /\ v = v0 + a) \/
             (~ In c (map fst d) /\ v = a))).
Proof.
  induction d as [| [k0 v0] d IH]; simpl; intros Hnd Hin.
  - destruct Hin as [[= <- <-] | []].
    right. split; [reflexivity |]. right. split; [tauto | reflexivity].
  - inversion Hnd as [| x l Hx Hl]; subst.
    destruct (String.eqb_spec k0 c) as [-> | Hne]; simpl in Hin.
    + destruct Hin as [[= <- <-] | Hin].
      * right. split; [reflexivity |]. left. exists v0.
        split; [now left | reflexivity].
      * left. split; [| now right].
        intros ->. apply Hx. now apply (in_map fst) in Hin.
    + destruct Hin as [[= <- <-] | Hin].
      * left. split; [exact Hne | now left].
      * destruct (IH Hl Hin) as [[Hk Hi] | [-> [[w [Hw ->]] | [Hni ->]]]].
        -- left. split; [exact Hk | now right].
        -- right. split; [reflexivity |]. left. exists w.
           split; [now right | reflexivity].
        -- right. split; [reflexivity |]. right.
           split; [| reflexivity].
           intros [E | E]; [congruence | contradiction].
Qed.

Lemma category_total_snoc (k : string) (seen : list SaleData.t)
  (sale : SaleData.t) :
  category_total k (seen ++ [sale]) =
  category_total k seen
  + (if String.eqb (SaleData.category sale) k then SaleData.amount sale
     else 0).
Proof.
  unfold category_total. rewrite filter_app, map_app, Rsum_app.
  f_equal. cbn [filter].
  destruct (String.eqb (SaleData.category sale) k); unfold Rsum; simpl; lra.
Qed.

Lemma category_total_absent (k : string) (sales : list SaleData.t) :
  ~ In k (map SaleData.category sales) -> category_total k sales = 0.
Proof.
  unfold category_total. induction sales as [| x sales IH]; intros H.
  - reflexivity.
  - cbn [filter].
    destruct (String.eqb_spec (SaleData.category x) k) as [E | E].
    + exfalso. apply H. now left.
    + apply IH. intros Hin. apply H. now right.
Qed.

Lemma totals_of_step (seen : list SaleData.t) (d : list (string * R))
  (sale : SaleData.t) :
  totals_of seen d ->
  totals_of (seen ++ [sale])
            (Sales.add_sale (SaleData.category sale) (SaleData.amount sale) d).
Proof.
  intros (Hnd & Hkeys & Hval). split; [| split].
  - now apply add_sale_NoDup.
  - intros k. rewrite add_sale_keys, map_app, in_app_iff, Hkeys.
    simpl. intuition congruence.
  - intros k v Hin. rewrite category_total_snoc.
    destruct (add_sale_entry _ _ _ _ _ Hnd Hin)
      as [[Hk Hi] | [-> [[w [Hw ->]] | [Hni ->]]]].
    + destruct (String.eqb_spec (SaleData.category sale) k) as [E | E];
        [congruence |].
      rewrite (Hval k v Hi). lra.
    + rewrite String.eqb_refl, (Hval _ _ Hw). reflexivity.
    + rewrite String.eqb_refl, category_total_absent; [lra |].
      intros Hc. apply Hni. now apply Hkeys.
Qed.

Lemma totals_of_fold (sales seen : list SaleData.t) (d : list (string * R)) :
  totals_of seen d ->
  totals_of (seen ++ sales)
            (fold_left (fun d sale =>
                          Sales.add_sale (SaleData.category sale)
                                         (SaleData.amount sale) d)
                       sales d).
Proof.
  revert seen d. induction sales as [| x sales IH]; intros seen d H.
  - now rewrite app_nil_r.
  - simpl. replace (seen ++ x :: sales) with ((seen ++ [x]) ++ sales)
      by (rewrite <- app_assoc; reflexivity).
    apply IH. now apply totals_of_step.
Qed.

Lemma fold_add_sale_sum (sales : list SaleData.t) (d : list (string * R)) :
  Rsum (map snd (fold_left (fun d sale =>
                              Sales.add_sale (SaleData.category sale)
                                             (SaleData.amount sale) d)
                           sales d)) =
  Rsum (map snd d) + Rsum (map SaleData.amount sales).
Proof.
  revert d. induction sales as [| x sales IH]; intros d; cbn [fold_left map].
  - unfold Rsum. simpl. lra.
  - rewrite IH, add_sale_sum. unfold Rsum. simpl. lra.
Qed.

Lemma top_categories_eq (x : SaleData.t) (sales : list SaleData.t) :
  StoreMetrics.topCategories (Sales.calculate_metrics (x :: sales)) =
  sort_reverse CategorySales.sales
    (map (fun kv => {| CategorySales.category := fst kv;
                       CategorySales.sales := snd kv |})
         (fold_left (fun d sale =>
                       Sales.add_sale (SaleData.category sale)
                                      (SaleData.amount sale) d)
                    (x :: sales) [])).
Proof. reflexivity. Qed.

(** X22. The metrics add up: the total is the sum of the amounts, the
    totals of the categories sum to the total of all sales, and the average
    ticket times the number of sales is the total; without sales the average
    ticket is 0 and no division takes place. *)
Theorem metrics_add_up :
  forall sales,
    let metrics := Sales.calculate_metrics sales in
    StoreMetrics.totalSales metrics = Rsum (map SaleData.amount sales) /\
    Rsum (map CategorySales.sales (StoreMetrics.topCategories metrics))
    = StoreMetrics.totalSales metrics /\
    StoreMetrics.averageTicket metrics * INR (List.length sales)
    = StoreMetrics.totalSales metrics /\
    (sales = [] -> StoreMetrics.averageTicket metrics = 0).
Proof.
  intros sales metrics. subst metrics.
  destruct sales as [| x sales].
  - simpl. unfold Rsum. simpl. repeat split; lra.
  - assert (Htotal : StoreMetrics.totalSales
                       (Sales.calculate_metrics (x :: sales))
                     = Rsum (map SaleData.amount (x :: sales))).
    { unfold Sales.calculate_metrics. cbn [StoreMetrics.totalSales].
      rewrite fold_left_Rplus. lra. }
    split; [exact Htotal |]. split; [| split; [| discriminate]].
    + rewrite Htotal, top_categories_eq.
      rewrite (Rsum_perm _ _ (Permutation_map CategorySales.sales
                                (sort_reverse_perm CategorySales.sales _))).
      rewrite map_map, (map_ext _ snd) by (intros kv; reflexivity).
      rewrite (fold_add_sale_sum (x :: sales) []).
      unfold Rsum at 1. simpl. lra.
    + unfold Sales.calculate_metrics.
      cbn [StoreMetrics.totalSales StoreMetrics.averageTicket].
      field. apply not_0_INR. discriminate.
Qed.

(** X23. The category list of the metrics has exactly one entry for every
    category that occurs among the sales, each with the total of the amounts
    of that category, in non-increasing order of the totals. *)
Theorem top_categories_are_totals :
  forall sales,
    let top := StoreMetrics.topCategories (Sales.calculate_metrics sales) in
    NoDup (map CategorySales.category top) /\
    (forall c, In c (map CategorySales.category top) <->
               In c (map SaleData.category sales)) /\
    (forall entry, In entry top ->
                   CategorySales.sales entry =
                   category_total (CategorySales.category entry) sales) /\
    descending CategorySales.sales top.
Proof.
  intros sales top. subst top.
  destruct sales as [| x sales].
  - simpl. repeat split; try constructor; try tauto.
  - rewrite top_categories_eq.
    set (d := fold_left _ (x :: sales) []).
    assert (Hd : totals_of (x :: sales) d).
    { apply (totals_of_fold (x :: sales) [] []).
      split; [constructor | split; [tauto | intros k v []]]. }
    destruct Hd as (Hnd & Hkeys & Hval).
    set (mk := fun kv : string * R =>
                 {| CategorySales.category := fst kv;
                    CategorySales.sales := snd kv |}).
    pose proof (sort_reverse_perm CategorySales.sales (map mk d)) as Hperm.
    assert (Hcat : Permutation
                     (map CategorySales.category
                          (sort_reverse CategorySales.sales (map mk d)))
                     (map fst d)).
    { rewrite (Permutation_map CategorySales.category Hperm), map_map.
      apply Permutation_refl. }
    split; [| split; [| split]].
    + apply Permutation_NoDup with (map fst d);
        [now apply Permutation_sym | exact Hnd].
    + intros c. rewrite <- Hkeys. split; apply Permutation_in;
        [exact Hcat | now apply Permutation_sym].
    + intros entry Hin. apply (Permutation_in _ Hperm) in Hin.
      apply in_map_iff in Hin. destruct Hin as [[k v] [<- Hin]].
      cbn [mk CategorySales.sales CategorySales.category fst snd].
      now apply Hval.
    + apply sort_reverse_descending.
Qed.

Lemma days_lt (x k : Z) :
  (0 < k)%Z ->
  (x / 86400000000 <? k)%Z = true <-> (x < k * 86400000000)%Z.
Proof.
  intros Hk. rewrite Z.ltb_lt. split; intros H.
  - Z.div_mod_to_equations. lia.
  - apply Z.div_lt_upper_bound; lia.
Qed.

Lemma period_In (now : Z) (sales : list SaleData.t) (k : Z)
  (sale : SaleData.t) :
  (0 < k)%Z ->
  In sale (filter (fun sale =>
                     (Sales.days_since now (SaleData.date sale) <? k)%Z)
                  sales) <->
  In sale sales /\ (age now sale < k * 86400000000)%Z.
Proof.
  intros Hk. rewrite filter_In. unfold Sales.days_since, age.
  now rewrite days_lt.
Qed.

Lemma filter_filter_sub {A : Type} (f g : A -> bool) (l : list A) :
  (forall x, f x = true -> g x = true) ->
  filter f (filter g l) = filter f l.
Proof.
  intros H. induction l as [| x l IH]; [reflexivity |]. simpl.
  destruct (g x) eqn:Hg; simpl.
  - now rewrite IH.
  - destruct (f x) eqn:Hf; [| exact IH].
    apply H in Hf. congruence.
Qed.

(** X24. The periods of the sales filter: a sale is daily when it is less
    than 24 hours old, weekly when less than 7 days and monthly when less
    than 30 days old, a sale dated after the clock reading included; so the
    daily sales are the daily ones among the weekly, and the weekly the
    weekly ones among the monthly. Any other period name selects all sales
    in the filter, but the metrics route accepts only the four names
    daily, weekly, monthly and all. *)
Theorem sales_periods :
  forall now sales,
    (forall sale,
        In sale (Sales.filter_sales_by_period now sales "daily") <->
        In sale sales /\ (age now sale < 1 * 86400000000)%Z) /\
    (forall sale,
        In sale (Sales.filter_sales_by_period now sales "weekly") <->
        In sale sales /\ (age now sale < 7 * 86400000000)%Z) /\
    (forall sale,
        In sale (Sales.filter_sales_by_period now sales "monthly") <->
        In sale sales /\ (age now sale < 30 * 86400000000)%Z) /\
    Sales.filter_sales_by_period now
      (Sales.filter_sales_by_period now sales "weekly") "daily"
    = Sales.filter_sales_by_period now sales "daily" /\
    Sales.filter_sales_by_period now
      (Sales.filter_sales_by_period now sales "monthly") "weekly"
    = Sales.filter_sales_by_period now sales "weekly" /\
    (forall period,
        period <> "daily" -> period <> "weekly" -> period <> "monthly" ->
        Sales.filter_sales_by_period now sales period = sales) /\
    (forall period,
        (exists metrics, Sales.get_metrics now sales period = inl metrics) <->
        In period ["daily"; "weekly"; "monthly"; "all"]).
Proof.
  intros now sales.
  assert (Hd : forall l, Sales.filter_sales_by_period now l "daily" =
                         filter (fun sale =>
                                   (Sales.days_since now (SaleData.date sale)
                                    <? 1)%Z) l) by reflexivity.
  assert (Hw : forall l, Sales.filter_sales_by_period now l "weekly" =
                         filter (fun sale =>
                                   (Sales.days_since now (SaleData.date sale)
                                    <? 7)%Z) l) by reflexivity.
  assert (Hm : forall l, Sales.filter_sales_by_period now l "monthly" =
                         filter (fun sale =>
                                   (Sales.days_since now (SaleData.date sale)
                                    <? 30)%Z) l) by reflexivity.
  split; [intros sale; rewrite Hd; apply (period_In now sales 1); lia |].
  split; [intros sale; rewrite Hw; apply (period_In now sales 7); lia |].
  split; [intros sale; rewrite Hm; apply (period_In now sales 30); lia |].
  split; [| split; [| split; [| intros period; split]]].
  - rewrite !Hd, Hw. apply filter_filter_sub. intros sale H.
    apply Z.ltb_lt in H. apply Z.ltb_lt. lia.
  - rewrite !Hw, Hm. apply filter_filter_sub. intros sale H.
    apply Z.ltb_lt in H. apply Z.ltb_lt. lia.
  - intros period H1 H2 H3. unfold Sales.filter_sales_by_period.
    apply String.eqb_neq in H1, H2, H3. now rewrite H1, H2, H3.
  - intros [metrics H]. unfold Sales.get_metrics in H.
    destruct (existsb _ _) eqn:E; [| discriminate].
    apply existsb_exists in E. destruct E as [x [Hx E]].
    apply String.eqb_eq in E. now subst x.
  - intros H. unfold Sales.get_metrics.
    assert (E : existsb (String.eqb period)
                        ["daily"; "weekly"; "monthly"; "all"] = true).
    { apply existsb_exists. exists period. split; [exact H |].
      apply String.eqb_refl. }
    rewrite E. eexists. reflexivity.
Qed.

(* ================================================================== *)
(** ** Further properties: the points of the fallback grid *)
(* ================================================================== *)

Lemma distinct_NoDup (l : list string) : distinct l = true -> NoDup l.
Proof.
  induction l as [| x l IH]; simpl; intros H; [constructor |].
  apply andb_true_iff in H. destruct H as [Hx Hl].
  constructor; [| now apply IH].
  intros Hin. apply negb_true_iff in Hx.
  assert (E : existsb (String.eqb x) l = true).
  { apply existsb_exists. exists x. split; [exact Hin | apply String.eqb_refl]. }
  congruence.
Qed.

Lemma Forall2_map_eq {A B C : Type} (f : B -> C) (g : A -> C) (l : list A)
  (l' : list B) :
  Forall2 (fun x y => f y = g x) l l' -> map f l' = map g l.
Proof.
  induction 1 as [| x y l l' Hxy _ IH]; [reflexivity |].
  simpl. now rewrite Hxy, IH.
Qed.

(** X25. The points of the fallback grid are identified by their round:
    the point of round [(i, j)] has the id [grid_i_j] and the score drawn
    with draw number [10 i + j] of the call, uniformly from [0.3, 0.9); the
    call takes 100 draws, and no two points of the heatmap share an id. *)
Theorem grid_points_are_identified :
  forall ds model random_sample bounds rng h rng',
    stores_near ds bounds = [] ->
    generate_heatmap ds model random_sample bounds rng = Ok (h, rng') ->
    rng' = (rng + 100)%nat /\
    Forall2 (fun ij p =>
               MapPoint.id p = grid_id ij /\
               MapPoint.score p =
               uniform 0.3 0.9
                       (random_sample (rng + fst ij * 10 + snd ij)%nat))
            (list_prod (seq 0 10) (seq 0 10)) (HeatmapData.points h) /\
    NoDup (map MapPoint.id (HeatmapData.points h)).
Proof.
  intros ds model rs bounds rng h rng' Hnone H.
  rewrite generate_heatmap_unfold, Hnone in H.
  unfold _generate_grid_points in H.
  change (list_prod (seq 0 n_lat) (seq 0 n_lng))
    with (list_prod (seq 0 10) (seq 0 10)) in H.
  destruct (for_each _ _) as [points | e] eqn:E;
    cbv beta iota zeta delta [bind reraise] in H; [| discriminate].
  destruct (HeatmapData.init _) as [h0 | e] eqn:Eh; [| discriminate].
  injection H as <- <-. apply heatmap_init_inv in Eh. subst h0.
  cbn [HeatmapData.points].
  apply for_each_inv in E.
  assert (Hpts : Forall2 (fun ij p => p = grid_fields rs bounds rng ij)
                         (list_prod (seq 0 10) (seq 0 10)) points).
  { apply Forall2_impl with (2 := E). intros ij p Hp.
    rewrite grid_point_unfold in Hp. now apply point_init_inv in Hp. }
  split; [reflexivity |]. split.
  - apply Forall2_impl with (2 := Hpts). intros ij p ->.
    split; reflexivity.
  - rewrite (Forall2_map_eq MapPoint.id grid_id
               (list_prod (seq 0 10) (seq 0 10)) points).
    + apply distinct_NoDup. vm_compute. reflexivity.
    + apply Forall2_impl with (2 := Hpts). intros ij p ->. reflexivity.
Qed.

Lemma grid_points_witness :
  NoDup (map MapPoint.id
             (map (grid_fields draw_half bounds_mty 0)
                  (list_prod (seq 0 10) (seq 0 10)))).
Proof.
  apply (grid_points_are_identified
           ds_two (model_const 1) draw_half bounds_mty 0%nat
           {| HeatmapData.points :=
                map (grid_fields draw_half bounds_mty 0)
                    (list_prod (seq 0 10) (seq 0 10));
              HeatmapData.centerLat :=
                (MapBounds.north bounds_mty + MapBounds.south bounds_mty) / 2;
              HeatmapData.centerLng :=
                (MapBounds.east bounds_mty + MapBounds.west bounds_mty) / 2 |}
           (0 + 100)%nat eq_refl).
  apply generate_heatmap_grid.
  - intros k. unfold draw_half. lra.
  - unfold valid_bounds. simpl. lra.
  - reflexivity.
Defined.

(* ================================================================== *)
(** ** Further properties: distances *)
(* ================================================================== *)

Lemma sin_half_sqr (x : R) : sin (x / 2) ^ 2 = (1 - cos x) / 2.
Proof.
  replace (cos x) with (cos (2 * (x / 2))) by (f_equal; field).
  rewrite cos_2a_sin. simpl. field.
Qed.

Lemma haversine_a_range (lat lng : R) (r : Store.row) :
  0 <= haversine_a lat lng r <= 1.
Proof.
  unfold haversine_a.
  set (p1 := radians lat). set (p2 := radians (Store.latitud r)).
  set (dl := radians (Store.longitud r) - radians lng).
  rewrite !sin_half_sqr, cos_minus.
  pose proof (COS_bound dl) as Hdl.
  pose proof (COS_bound (p2 - p1)) as Hm. rewrite cos_minus in Hm.
  pose proof (COS_bound (p2 + p1)) as Hp. rewrite cos_plus in Hp.
  set (C := cos p1 * cos p2).
  replace (cos p2 * cos p1) with C in * by (unfold C; ring).
  set (S := sin p2 * sin p1) in *.
  set (B := (1 - cos dl) / 2).
  assert (HB : 0 <= B <= 1) by (unfold B; lra).
  destruct (Rle_dec 0 C) as [HC | HC].
  - assert (0 <= C * B <= C) by nra. lra.
  - assert (C <= C * B <= 0) by nra. lra.
Qed.

Lemma asin_nonneg (x : R) : 0 <= x <= 1 -> 0 <= asin x.
Proof.
  intros Hx. destruct (Rle_dec 0 (asin x)) as [H | H]; [exact H |].
  exfalso. pose proof (asin_bound x) as Hb. pose proof PI_RGT_0.
  assert (Hs : sin (asin x) < 0) by (apply sin_lt_0_var; lra).
  rewrite sin_asin in Hs by lra. lra.
Qed.

Lemma distance_km_range (lat lng : R) (r : Store.row) :
  distance_km lat lng r = 6371 * (2 * asin (sqrt (haversine_a lat lng r))) /\
  0 <= distance_km lat lng r <= 6371 * PI.
Proof.
  split; [reflexivity |].
  change (distance_km lat lng r)
    with (6371 * (2 * asin (sqrt (haversine_a lat lng r)))).
  pose proof (haversine_a_range lat lng r) as Ha.
  assert (Hs : 0 <= sqrt (haversine_a lat lng r) <= 1).
  { split; [apply sqrt_pos |].
    rewrite <- sqrt_1. apply sqrt_le_1; lra. }
  pose proof (asin_nonneg _ Hs). pose proof (asin_bound (sqrt (haversine_a lat lng r))).
  lra.
Qed.

Lemma for_each_perm {A B : Type} (body : A -> result B) (l l' : list A)
  (ys : list B) :
  Permutation l l' -> for_each body l = Ok ys ->
  exists ys', for_each body l' = Ok ys' /\ Permutation ys ys'.
Proof.
  intros Hp. revert ys.
  induction Hp as [| x l l' _ IH | x y l | l l' l'' _ IH1 _ IH2]; intros ys.
  - intros [= <-]. exists []. split; [reflexivity | constructor].
  - simpl. destruct (body x) as [b |]; [| discriminate].
    destruct (for_each body l) as [bs |]; [| discriminate].
    intros [= <-]. destruct (IH bs eq_refl) as [bs' [-> Hbs]].
    exists (b :: bs'). split; [reflexivity | now constructor].
  - simpl. destruct (body y) as [b |]; [| discriminate].
    destruct (body x) as [c |]; [| discriminate].
    destruct (for_each body l) as [bs |]; [| discriminate].
    intros [= <-]. exists (c :: b :: bs). split; [reflexivity | constructor].
  - intros H. destruct (IH1 ys H) as [ys' [H' Hp']].
    destruct (IH2 ys' H') as [ys'' [H'' Hp'']].
    exists ys''. split; [exact H'' | now apply perm_trans with ys'].
Qed.

Lemma filter_all {A : Type} (f : A -> bool) (l : list A) :
  (forall x, In x l -> f x = true) -> filter f l = l.
Proof.
  induction l as [| a l IH]; intros H; [reflexivity |].
  simpl. rewrite (H a (or_introl eq_refl)). f_equal. apply IH.
  intros x Hx. apply H. now right.
Qed.

(** X26. The haversine term [a] of the area query always lies in [0, 1], so
    the square root and the arc sine are taken inside their domains, and a
    distance is never negative and at most half the circumference of the
    earth, 6371 pi km. Hence a negative radius selects no store, and with a
    radius of at least 6371 pi km the area query returns the stores of
    [get_all_stores], reordered by distance. *)
Theorem distances_are_bounded :
  forall ds lat lng,
    (forall r,
        0 <= haversine_a lat lng r <= 1 /\
        distance_km lat lng r
        = 6371 * (2 * asin (sqrt (haversine_a lat lng r))) /\
        0 <= distance_km lat lng r <= 6371 * PI) /\
    (forall radius_km,
        radius_km < 0 -> get_stores_in_area ds lat lng radius_km = []) /\
    (forall radius_km,
        6371 * PI <= radius_km ->
        Permutation (get_stores_in_area ds lat lng radius_km)
                    (get_all_stores ds)).
Proof.
  intros ds lat lng. split; [| split].
  - intros r. split; [apply haversine_a_range | apply distance_km_range].
  - intros radius_km Hr. unfold get_stores_in_area.
    rewrite filter_none; [reflexivity |].
    intros r _. apply Rle_bool_false.
    pose proof (proj2 (distance_km_range lat lng r)). lra.
  - intros radius_km Hr. unfold get_stores_in_area, get_all_stores.
    fold (all_rows ds).
    rewrite filter_all.
    + pose proof (sort_values_perm (distance_km lat lng) (all_rows ds))
        as Hperm.
      destruct (for_each to_location
                  (sort_values (distance_km lat lng) (all_rows ds)))
        as [locs | e] eqn:E.
      * destruct (for_each_perm _ _ _ _ Hperm E) as [locs' [-> Hl]].
        exact Hl.
      * destruct (for_each to_location (all_rows ds)) as [locs' | e'] eqn:E';
          [| constructor].
        destruct (for_each_perm _ _ _ _ (Permutation_sym Hperm) E')
          as [locs'' [E'' _]].
        congruence.
    + intros r _. apply Rle_bool_true.
      pose proof (proj2 (distance_km_range lat lng r)). lra.
Qed.
